(** * Financiera Ancestral API server: request admission and response cache

    A shallow embedding of [api_server.py]: the in-memory sliding-window
    [RateLimiter], the file-backed [DataCache], the [require_rate_limit]
    decorator and the rate-limited request handlers of [create_app].

    Conventions of the embedding.
    - Instants ([time.time()], [st_mtime]) are integers: ticks of the clock.
    - Python [int] is [Z]; [str] is [string], the UTF-8 bytes of the text,
      so that [len] counts the bytes that start a character; a [dict] used
      as a map from client addresses is a [gmap]; a [dict] that is a JSON
      payload is an association list, in insertion order, whose keys are
      scalars.  The values of a row of the database are [None], [int],
      [float] and [str]: the columns of [stock_data] hold no BLOB.
    - The file system is a map from the text of a path to the file of that
      name: the cache directory holds regular files and no links, so that
      two names are one file only when [pathlib] gives them one text.  No
      name holds a NUL.
    - One request reads the clock once; the instant and everything else a
      request finds outside the process (storage faults, the answers of the
      database) are gathered in [Env].  The codecs of the standard library
      ([json] on text, [int], [round], [str.upper], [pandas]) are
      parameters: [PyLib].  What the program relies on in [pathlib]
      (joining a key to the directory), in [flask.jsonify] (it sorts the
      keys of every dict) and in the headers of [werkzeug] (names compare
      without case) is written out.
    - A call either returns a value or raises: [outcome].  Handlers run in
      the monad [M], which threads the mutable [World] (limiter, cache
      directory, log, statements sent to the database) and keeps the
      state changes made before an exception was raised. *)

From stdpp Require Import gmap strings list fin_maps pretty.
From Stdlib Require Import ZArith Lia PrimFloat Ascii.

Local Open Scope Z_scope.

(** ** Exceptions and outcomes *)

Inductive exn :=
  | OSError
  | JSONDecodeError
  | UnicodeDecodeError
  | RecursionError
  | ValueError
  | KeyError
  | IndexError
  | TypeError
  | SqliteError.

Inductive outcome (A : Type) :=
  | Returned (a : A)
  | Raised (e : exn).
Arguments Returned {A} a.
Arguments Raised {A} e.

(** ** class RateLimiter *)

Record RateLimiter := mkRateLimiter {
  max_requests : Z;
  window_seconds : Z;
  requests : gmap string (list Z)
}.

(** [RateLimiter.__init__]: three assignments, no check of its arguments. *)
Definition RateLimiter_init (max_requests window_minutes : Z) : outcome RateLimiter :=
  Returned {| max_requests := max_requests;
              window_seconds := window_minutes * 60;
              requests := ∅ |}.

(** [RateLimiter.is_allowed], with the instant read from [time.time()] as
    an argument.  The result is the returned flag and the limiter after
    the call. *)
Definition is_allowed (self : RateLimiter) (current_time : Z) (client_ip : string)
    : bool * RateLimiter :=
  (* Clean old entries *)
  let cutoff_time := current_time - window_seconds self in
  let requests1 : gmap string (list Z) :=
    filter (λ kv : string * list Z, Exists (λ ts, ts > cutoff_time) kv.2)
           (requests self) in
  (* Update client's request history *)
  let requests2 : gmap string (list Z) :=
    match requests1 !! client_ip with
    | None => <[client_ip := []]> requests1
    | Some _ => requests1
    end in
  (* Remove old timestamps for this client *)
  let requests3 : gmap string (list Z) :=
    <[client_ip := filter (λ ts, ts > cutoff_time) (requests2 !!! client_ip)]> requests2 in
  (* Check if under limit *)
  if bool_decide (Z.of_nat (length (requests3 !!! client_ip)) >= max_requests self)
  then (false, mkRateLimiter (max_requests self) (window_seconds self) requests3)
  else
    (* Add current request *)
    (true, mkRateLimiter (max_requests self) (window_seconds self)
             (<[client_ip := (requests3 !!! client_ip) ++ [current_time]]> requests3)).

(** A client calling [is_allowed] at each instant of [times], in order. *)
Fixpoint verdicts (self : RateLimiter) (client_ip : string) (times : list Z) : list bool :=
  match times with
  | [] => []
  | t :: rest =>
      let '(ok, self') := is_allowed self t client_ip in
      ok :: verdicts self' client_ip rest
  end.

(** Calls by several clients, in order; the limiter they leave behind. *)
Fixpoint after_calls (self : RateLimiter) (calls : list (string * Z)) : RateLimiter :=
  match calls with
  | [] => self
  | (client_ip, t) :: rest => after_calls (is_allowed self t client_ip).2 rest
  end.

(** The timestamps recorded for a client (none when it is not tracked). *)
Definition history (self : RateLimiter) (client_ip : string) : list Z :=
  default [] (requests self !! client_ip).

(** The records of a sequence that are strictly newer than [cutoff]. *)
Definition newer_than (cutoff : Z) (l : list Z) : list Z :=
  filter (λ ts, ts > cutoff) l.

Definition admitted_count (oks : list bool) : nat :=
  length (filter (λ ok : bool, ok = true) oks).


(** ** Python values

    The values that travel between the database, the handlers, the cache
    files and the responses.  A [dict] keeps its items in insertion order;
    its keys are the scalars the program uses as keys. *)

Inductive pyval :=
  | PNone
  | PBool (b : bool)
  | PInt (n : Z)
  | PFloat (x : float)
  | PStr (s : string)
  | PList (l : list pyval)
  | PDict (items : list (pyval * pyval)).

Coercion PStr : string >-> pyval.

(** [bool(v)]: the truth value Python gives to [v] in [if v:]. *)
Definition truthy (v : pyval) : bool :=
  match v with
  | PNone => false
  | PBool b => b
  | PInt n => negb (n =? 0)
  | PFloat x => negb (PrimFloat.eqb x 0%float)
  | PStr s => negb (String.eqb s "")
  | PList l => negb (bool_decide (length l = 0%nat))
  | PDict items => negb (bool_decide (length items = 0%nat))
  end.

(** Equality of two scalars used as [dict] keys ([True == 1] as in Python;
    an [int] and a [float] are never both keys of one payload here). *)
Definition key_eqb (a b : pyval) : bool :=
  match a, b with
  | PNone, PNone => true
  | PBool x, PBool y => bool_decide (x = y)
  | PBool x, PInt n | PInt n, PBool x => n =? (if x then 1 else 0)
  | PInt n, PInt m => n =? m
  | PFloat x, PFloat y => PrimFloat.eqb x y
  | PStr s, PStr t => String.eqb s t
  | _, _ => false
  end.

(** [d.get(key)] on the items of a [dict]. *)
Fixpoint dict_get (items : list (pyval * pyval)) (key : pyval) : option pyval :=
  match items with
  | [] => None
  | (k, v) :: rest => if key_eqb k key then Some v else dict_get rest key
  end.

(** A [str] or [None], as [request.args.get] returns it. *)
Definition of_optional (o : option string) : pyval :=
  match o with
  | Some s => PStr s
  | None => PNone
  end.

(** [x or default] for [x] a [str] or [None]. *)
Definition or_else (o : option string) (default : string) : string :=
  match o with
  | Some s => if String.eqb s "" then default else s
  | None => default
  end.

(** [if x:] for [x] a [str] or [None]. *)
Definition given (o : option string) : bool :=
  match o with
  | Some s => negb (String.eqb s "")
  | None => false
  end.

(** [str(n)] for an [int]. *)
Definition str_of_int (n : Z) : string := pretty n.

(** A byte that continues a character of a UTF-8 text: [10xxxxxx]. *)
Definition continuation_byte (a : ascii) : bool :=
  (128 <=? Ascii.nat_of_ascii a)%nat && (Ascii.nat_of_ascii a <? 192)%nat.

(** [len(s)] for a [str]: the number of its characters. *)
Fixpoint len (s : string) : nat :=
  match s with
  | EmptyString => 0%nat
  | String a rest => ((if continuation_byte a then 0 else 1) + len rest)%nat
  end.

(** ** Library functions the program calls

    Their code is not part of the repository; the program is embedded over
    any behaviour of them. *)

Record PyLib := {
  (** [json.dump(data, f, default=str)]: the text written; with
      [default=str] it accepts every value whose keys are scalars *)
  json_dumps : pyval → string;
  (** [json.load(f)] on a file that holds these bytes: the value read, or
      what it raises: [json.JSONDecodeError] on a text that is no JSON,
      [UnicodeDecodeError] on bytes that are no text, [RecursionError] on
      a text nested too deep *)
  json_loads : string → outcome pyval;
  (** [int(s)] for a [str]: [None] when it raises [ValueError] *)
  int_of_str : string → option Z;
  (** [round(x, ndigits)] for a [float] *)
  round_float : float → Z → float;
  (** [s.upper()], [s.lower()] *)
  str_upper : string → string;
  str_lower : string → string;
  (** [DataFrame.to_csv(index=False)], [DataFrame.to_json(orient='records', indent=2)] *)
  df_to_csv : list (list (string * pyval)) → string;
  df_to_json : list (list (string * pyval)) → string
}.

(** ** The world a request runs in *)

Record File := mkFile {
  st_mtime : Z;
  content : string
}.

Inductive LogLevel := WARNING | ERROR.

(** A log record: level, message up to the exception text, the exception. *)
Record LogRecord := mkLog {
  levelname : LogLevel;
  message : string;
  exc : option exn
}.

Record World := mkWorld {
  rate_limiter : RateLimiter;
  files : gmap string File;
  log : list LogRecord;
  statements : list (string * list pyval)
}.

(** A row of a result set: column names and values, as [dict(row)] lists them. *)
Abbreviation Row := (list (string * pyval)).

(** Which storage operations of the cache fail during a request. *)
Record Faults := {
  (** the [stat] behind [Path.exists()] fails, and not because the file
      is missing: the name is too long, the directory cannot be searched *)
  exists_fails : bool;
  stat_fails : bool;
  unlink_fails : bool;
  open_read_fails : bool;
  read_fails : bool;
  open_write_fails : bool;
  (** [Some n]: the write fails after [n] characters reached the file *)
  write_fails : option nat
}.

(** What a request finds outside the process: the clock, the storage
    faults, the database. *)
Record Env := {
  time_time : Z;
  isoformat_now : string;
  faults : Faults;
  connect_fails : bool;
  execute : string → list pyval → outcome (list Row)
}.

(** ** The monad of handlers *)

Definition M (A : Type) : Type := World → outcome A * World.

Definition ret {A} (a : A) : M A := λ w, (Returned a, w).

Definition bind {A B} (m : M A) (k : A → M B) : M B := λ w,
  match m w with
  | (Returned a, w') => k a w'
  | (Raised e, w') => (Raised e, w')
  end.

Definition raise {A} (e : exn) : M A := λ w, (Raised e, w).

(** A call that does not touch the world. *)
Definition lift {A} (o : outcome A) : M A := λ w, (o, w).

(** [try: body  except classes as e: handler e] *)
Definition try_except {A} (body : M A) (classes : exn → bool) (handler : exn → M A) : M A :=
  λ w,
  match body w with
  | (Returned a, w') => (Returned a, w')
  | (Raised e, w') => if classes e then handler e w' else (Raised e, w')
  end.

Notation "x <- m ;; k" := (bind m (λ x, k))
  (at level 100, m at next level, right associativity, only parsing).
Notation "m ;; k" := (bind m (λ _, k))
  (at level 100, right associativity, only parsing).

(** [except Exception] *)
Definition Exception (e : exn) : bool := true.

Fixpoint mapM {A B} (f : A → M B) (l : list A) : M (list B) :=
  match l with
  | [] => ret []
  | x :: rest => y <- f x ;; ys <- mapM f rest ;; ret (y :: ys)
  end.

Fixpoint foldM {A B} (f : B → A → M B) (acc : B) (l : list A) : M B :=
  match l with
  | [] => ret acc
  | x :: rest => acc' <- f acc x ;; foldM f acc' rest
  end.

Definition logger_warning (msg : string) (e : option exn) : M unit := λ w,
  (Returned tt,
   mkWorld (rate_limiter w) (files w) (log w ++ [mkLog WARNING msg e]) (statements w)).

Definition logger_error (msg : string) (e : option exn) : M unit := λ w,
  (Returned tt,
   mkWorld (rate_limiter w) (files w) (log w ++ [mkLog ERROR msg e]) (statements w)).

(** ** Paths

    [pathlib] on POSIX, as far as [DataCache] uses it. *)

(** [s.split('/')] *)
Fixpoint split_slash (s : string) : list string :=
  match s with
  | EmptyString => [EmptyString]
  | String a rest =>
      if Ascii.eqb a "/" then EmptyString :: split_slash rest
      else match split_slash rest with
           | [] => [String a EmptyString]
           | part :: parts => String a part :: parts
           end
  end.

(** The components of a path text: empty components and dots are dropped. *)
Definition path_parts (s : string) : list string :=
  filter (λ part : string, part ≠ ""%string ∧ part ≠ "."%string) (split_slash s).

(** [s[:1] == '/'] and [s[1:]] *)
Definition leading_slash (s : string) : bool :=
  match s with
  | String a _ => Ascii.eqb a "/"
  | EmptyString => false
  end.

Definition behead (s : string) : string :=
  match s with
  | String _ rest => rest
  | EmptyString => EmptyString
  end.

(** The root of a path text: none, one slash, or exactly two slashes
    (three and more count as one). *)
Definition path_root (s : string) : string :=
  if negb (leading_slash s) then ""
  else if leading_slash (behead s) && negb (leading_slash (behead (behead s))) then "//"
  else "/".

(** A [PurePosixPath]. *)
Record PurePath := mkPath {
  root : string;
  parts : list string
}.

(** [Path(s)] *)
Definition Path (s : string) : PurePath :=
  {| root := path_root s; parts := path_parts s |}.

(** [p / s]: a text that has a root replaces [p]. *)
Definition truediv (p : PurePath) (s : string) : PurePath :=
  if String.eqb (path_root s) ""
  then {| root := root p; parts := parts p ++ path_parts s |}
  else Path s.

(** [str(p)] *)
Definition path_str (p : PurePath) : string :=
  match parts p with
  | [] => if String.eqb (root p) "" then "." else root p
  | _ => root p +:+ String.concat "/" (parts p)
  end.

(** A text with a NUL names no file. *)
Fixpoint has_nul (s : string) : bool :=
  match s with
  | EmptyString => false
  | String a rest => Ascii.eqb a Ascii.zero || has_nul rest
  end.

(** ** Storage operations of the cache directory *)

Section storage.
Context (e : Env).

Definition set_files (fs : gmap string File) : M unit := λ w,
  (Returned tt, mkWorld (rate_limiter w) fs (log w) (statements w)).

(** [Path.exists()]: [False] for a name the system call cannot take and
    for a missing file; any other failure of [stat] is raised. *)
Definition path_exists (p : string) : M bool := λ w,
  if has_nul p then (Returned false, w)
  else if exists_fails (faults e) then (Raised OSError, w)
  else (Returned (bool_decide (is_Some (files w !! p))), w).

(** [Path.stat().st_mtime] *)
Definition path_mtime (p : string) : M Z := λ w,
  if stat_fails (faults e) then (Raised OSError, w)
  else match files w !! p with
       | Some f => (Returned (st_mtime f), w)
       | None => (Raised OSError, w)
       end.

(** [Path.unlink()] *)
Definition path_unlink (p : string) : M unit := λ w,
  if unlink_fails (faults e) then (Raised OSError, w)
  else match files w !! p with
       | Some _ => set_files (delete p (files w)) w
       | None => (Raised OSError, w)
       end.

(** [with open(p, 'r') as f: f.read()] *)
Definition read_text (p : string) : M string := λ w,
  if open_read_fails (faults e) || read_fails (faults e) then (Raised OSError, w)
  else match files w !! p with
       | Some f => (Returned (content f), w)
       | None => (Raised OSError, w)
       end.

(** [with open(p, 'w') as f: f.write(text)]: [open] refuses a name that
    holds a NUL with [ValueError]; opening truncates the file; a write
    that fails leaves the characters already written. *)
Definition write_text (p : string) (text : string) : M unit := λ w,
  if has_nul p then (Raised ValueError, w)
  else if open_write_fails (faults e) then (Raised OSError, w)
  else match write_fails (faults e) with
       | Some n =>
           (Raised OSError,
            mkWorld (rate_limiter w)
                    (<[p := mkFile (time_time e) (String.substring 0 n text)]> (files w))
                    (log w) (statements w))
       | None => set_files (<[p := mkFile (time_time e) text]> (files w)) w
       end.
End storage.

(** ** class DataCache *)

Record DataCache := mkDataCache {
  cache_dir : string;
  ttl_seconds : Z
}.

(** [DataCache.__init__] (the directory is taken to exist). *)
Definition DataCache_init (cache_dir : string) (ttl_minutes : Z) : DataCache :=
  {| cache_dir := cache_dir; ttl_seconds := ttl_minutes * 60 |}.

(** [self.cache_dir / f"{key}.json"], as the text handed to the file
    system. *)
Definition cache_file (self : DataCache) (key : string) : string :=
  path_str (truediv (Path (cache_dir self)) (key +:+ ".json")).

Section DataCache.
Context (lib : PyLib) (e : Env) (self : DataCache).

(** [DataCache.get]: [None] is [PNone]. *)
Definition DataCache_get (key : string) : M pyval :=
  found <- path_exists e (cache_file self key) ;;
  if negb found then ret PNone
  else
    try_except
      ((* Check if cache is still valid *)
       mtime <- path_mtime e (cache_file self key) ;;
       if bool_decide (time_time e - mtime > ttl_seconds self) then
         (path_unlink e (cache_file self key) ;;
          ret PNone)
       else
         (text <- read_text e (cache_file self key) ;;
          lift (json_loads lib text)))
      (λ ex, match ex with JSONDecodeError | OSError => true | _ => false end)
      (λ ex,
         logger_warning ("Cache read error for " +:+ key) (Some ex) ;;
         ret PNone).

(** [DataCache.set] *)
Definition DataCache_set (key : string) (data : pyval) : M unit :=
  try_except
    (write_text e (cache_file self key) (json_dumps lib data))
    (λ ex, match ex with OSError => true | _ => false end)
    (λ ex, logger_warning ("Cache write error for " +:+ key) (Some ex)).
End DataCache.

(** ** Requests and responses *)

Record Request := {
  http_x_forwarded_for : option string;
  remote_addr : string;
  args : list (string * string)
}.

(** [request.args.get(name)] *)
Fixpoint args_get (l : list (string * string)) (name : string) : option string :=
  match l with
  | [] => None
  | (k, v) :: rest => if String.eqb k name then Some v else args_get rest name
  end.

Inductive Body :=
  | Json (v : pyval)
  | Raw (data : string).

Record Response := mkResponse {
  status_code : Z;
  mimetype : string;
  body : Body;
  headers : list (string * string)
}.

(** The keys of a dict that [sorted] can order: at most one key, or keys
    that are all [str], or all numbers.  Ordering [None] or a [str]
    against anything else raises [TypeError]. *)
Definition is_key (k : pyval) : bool :=
  match k with
  | PNone | PBool _ | PInt _ | PFloat _ | PStr _ => true
  | _ => false
  end.

Definition is_str (k : pyval) : bool :=
  match k with
  | PStr _ => true
  | _ => false
  end.

Definition is_number (k : pyval) : bool :=
  match k with
  | PBool _ | PInt _ | PFloat _ => true
  | _ => false
  end.

Definition sortable (keys : list pyval) : bool :=
  match keys with
  | [] => true
  | [k] => is_key k
  | _ => forallb is_str keys || forallb is_number keys
  end.

(** The values [jsonify] serializes: it sorts the keys of every dict
    before it converts them. *)
Fixpoint serializable (v : pyval) : bool :=
  match v with
  | PList l => forallb serializable l
  | PDict items =>
      sortable (map fst items) && forallb (λ kv, serializable (snd kv)) items
  | _ => true
  end.

(** The response [jsonify] builds. *)
Definition json_response (v : pyval) : Response :=
  mkResponse 200 "application/json" (Json v) [].

(** [jsonify(v)] *)
Definition jsonify (v : pyval) : outcome Response :=
  if serializable v then Returned (json_response v) else Raised TypeError.

(** [return response, code] *)
Definition with_status (r : Response) (code : Z) : Response :=
  mkResponse code (mimetype r) (body r) (headers r).

(** [c.lower()] on the letters of ASCII, of which header names are made. *)
Definition lower_ascii (a : ascii) : ascii :=
  let n := Ascii.nat_of_ascii a in
  if (65 <=? n)%nat && (n <=? 90)%nat then Ascii.ascii_of_nat (n + 32) else a.

(** [name.lower()] for a header name. *)
Fixpoint lower (s : string) : string :=
  match s with
  | EmptyString => EmptyString
  | String a rest => String (lower_ascii a) (lower rest)
  end.

(** Two header names that are one name. *)
Definition same_header (k k' : string) : bool := String.eqb (lower k) (lower k').

(** [response.headers[k] = v]: the first header of that name, whatever
    its case, is replaced and the later ones are removed; without one,
    the header is added at the end. *)
Fixpoint set_header (k v : string) (hs : list (string * string)) : list (string * string) :=
  match hs with
  | [] => [(k, v)]
  | (k', v') :: rest =>
      if same_header k' k
      then (k, v) :: filter (λ h : string * string, same_header h.1 k = false) rest
      else (k', v') :: set_header k v rest
  end.

(** [SecurityHeaders.add_headers] *)
Definition add_headers (response : Response) : Response :=
  mkResponse (status_code response) (mimetype response) (body response)
    (set_header "Content-Security-Policy"
       ("default-src 'self'; "
        +:+ "script-src 'self' 'unsafe-inline' https://cdnjs.cloudflare.com; "
        +:+ "style-src 'self' 'unsafe-inline' https://fonts.googleapis.com; "
        +:+ "font-src 'self' https://fonts.gstatic.com; "
        +:+ "img-src 'self' data: https:; "
        +:+ "connect-src 'self'")
    (set_header "Strict-Transport-Security" "max-age=31536000; includeSubDomains"
    (set_header "X-XSS-Protection" "1; mode=block"
    (set_header "X-Frame-Options" "DENY"
    (set_header "X-Content-Type-Options" "nosniff" (headers response)))))).

(** ** create_app *)

Record Config := {
  RATE_LIMIT_REQUESTS : Z;
  RATE_LIMIT_WINDOW : Z;
  CACHE_TTL : Z
}.

Record App := {
  config : Config
}.

(** [cache = DataCache(ttl_minutes=app.config['CACHE_TTL'])]: the
    directory is the default of [DataCache.__init__]. *)
Definition cache (app : App) : DataCache :=
  DataCache_init "cache" (CACHE_TTL (config app)).
Arguments cache : simpl never.

(** The components [create_app] initialises: the application, and the
    world with the new limiter over the files on [disk]. *)
Definition create_app (cfg : Config) (disk : gmap string File) : outcome (App * World) :=
  match RateLimiter_init (RATE_LIMIT_REQUESTS cfg) (RATE_LIMIT_WINDOW cfg) with
  | Returned rate_limiter =>
      Returned ({| config := cfg |}, mkWorld rate_limiter disk [] [])
  | Raised ex => Raised ex
  end.

Definition valid_decades : list string :=
  ["1920s"; "1930s"; "1940s"; "1950s"; "1960s"; "1970s";
   "1980s"; "1990s"; "2000s"; "2010s"; "2020s"]%string.

Definition validate_decade (decade : string) : bool :=
  bool_decide (decade ∈ valid_decades).

Definition valid_markets : list string :=
  ["NYSE"; "Frankfurt"; "Tokyo"; "Hong Kong"]%string.

Definition validate_market (market : string) : bool :=
  bool_decide (market ∈ valid_markets).

(** [dict(row)] *)
Definition dict_of_row (row : Row) : pyval :=
  PDict (map (λ kv : string * pyval, (PStr kv.1, kv.2)) row).

(** [row[name]] on a [sqlite3.Row] *)
Fixpoint row_item (row : Row) (name : string) : M pyval :=
  match row with
  | [] => raise IndexError
  | (k, v) :: rest => if String.eqb k name then ret v else row_item rest name
  end.

(** [d[key]] *)
Definition dict_item (d : pyval) (key : pyval) : M pyval :=
  match d with
  | PDict items =>
      match dict_get items key with
      | Some v => ret v
      | None => raise KeyError
      end
  | _ => raise TypeError
  end.

(** [d.get(key, default)] *)
Definition dict_get_default (d : pyval) (key default : pyval) : pyval :=
  match d with
  | PDict items => match dict_get items key with Some v => v | None => default end
  | _ => default
  end.

(** [d[key] = v] on the items of a [dict] *)
Fixpoint dict_set (items : list (pyval * pyval)) (key v : pyval) : list (pyval * pyval) :=
  match items with
  | [] => [(key, v)]
  | (k, x) :: rest =>
      if key_eqb k key then (k, v) :: rest else (k, x) :: dict_set rest key v
  end.

(** ** The request handlers of [create_app]

    [lib] the library functions, [app] the application, [e] what this
    request finds outside the process, [request] the request served. *)

Section handlers.
Context (lib : PyLib) (app : App) (e : Env) (request : Request).

(** [rate_limiter.is_allowed(client_ip)] on the limiter of the process *)
Definition rate_limiter_is_allowed (client_ip : string) : M bool := λ w,
  let '(ok, limiter) := is_allowed (rate_limiter w) (time_time e) client_ip in
  (Returned ok, mkWorld limiter (files w) (log w) (statements w)).

(** The decorator [require_rate_limit], applied to a view function that
    already holds its arguments. *)
Definition require_rate_limit (f : M Response) : M Response :=
  let client_ip := default (remote_addr request) (http_x_forwarded_for request) in
  allowed <- rate_limiter_is_allowed client_ip ;;
  if negb allowed then
    logger_warning ("Rate limit exceeded for " +:+ client_ip) None ;;
    response <-
      lift (jsonify (PDict
        [(PStr "error", PStr "Rate limit exceeded");
         (PStr "message",
          PStr ("Maximum " +:+ str_of_int (RATE_LIMIT_REQUESTS (config app))
                +:+ " requests per " +:+ str_of_int (RATE_LIMIT_WINDOW (config app))
                +:+ " minutes"))])) ;;
    let response := with_status response 429 in
    ret (add_headers response)
  else f.

(** [get_db_connection] *)
Definition get_db_connection : M unit :=
  if connect_fails e then
    logger_error "Database connection error" (Some SqliteError) ;;
    raise SqliteError
  else ret tt.

(** [conn.execute(sql, params).fetchall()] *)
Definition conn_execute (sql : string) (params : list pyval) : M (list Row) := λ w,
  (execute e sql params,
   mkWorld (rate_limiter w) (files w) (log w) (statements w ++ [(sql, params)])).

(** [return jsonify({'error': text}), code] *)
Definition error_answer (text : string) (code : Z) : M Response :=
  response <- lift (jsonify (PDict [(PStr "error", PStr text)])) ;;
  ret (with_status response code).

(** [/api/data/decades] *)
Definition get_decades : M Response :=
  let cache_key := "decades_list" in
  cached_data <- DataCache_get lib e (cache app) cache_key ;;
  if truthy cached_data then lift (jsonify cached_data)
  else
    try_except
      (get_db_connection ;;
       rows <- conn_execute "SELECT DISTINCT decade FROM stock_data ORDER BY decade" [] ;;
       decades <- mapM (λ row, row_item row "decade") rows ;;
       let data := PDict
         [(PStr "decades", PList decades);
          (PStr "count", PInt (Z.of_nat (length decades)));
          (PStr "timestamp", PStr (isoformat_now e))] in
       DataCache_set lib e (cache app) cache_key data ;;
       lift (jsonify data))
      Exception
      (λ ex,
         logger_error "Error fetching decades" (Some ex) ;;
         error_answer "Failed to fetch decades" 500).

(** [/api/data/markets] *)
Definition get_markets : M Response :=
  let cache_key := "markets_list" in
  cached_data <- DataCache_get lib e (cache app) cache_key ;;
  if truthy cached_data then lift (jsonify cached_data)
  else
    try_except
      (get_db_connection ;;
       rows <- conn_execute "SELECT DISTINCT market FROM stock_data ORDER BY market" [] ;;
       markets <- mapM (λ row, row_item row "market") rows ;;
       let data := PDict
         [(PStr "markets", PList markets);
          (PStr "count", PInt (Z.of_nat (length markets)));
          (PStr "timestamp", PStr (isoformat_now e))] in
       DataCache_set lib e (cache app) cache_key data ;;
       lift (jsonify data))
      Exception
      (λ ex,
         logger_error "Error fetching markets" (Some ex) ;;
         error_answer "Failed to fetch markets" 500).

(** One turn of the loop that groups the stocks of a decade by market:
    [markets] holds the items of the [dict] built so far. *)
Definition add_to_market (stock : pyval) (group : pyval) : pyval :=
  match group with
  | PDict items =>
      PDict (map (λ kv : pyval * pyval,
               if key_eqb kv.1 (PStr "stocks") then
                 (kv.1, match kv.2 with PList l => PList (l ++ [stock]) | v => v end)
               else if key_eqb kv.1 (PStr "total_stocks") then
                 (kv.1, match kv.2 with PInt n => PInt (n + 1) | v => v end)
               else kv) items)
  | v => v
  end.

Definition group_by_market (markets : list (pyval * pyval)) (stock : pyval)
    : M (list (pyval * pyval)) :=
  market <- dict_item stock (PStr "market") ;;
  let markets :=
    match dict_get markets market with
    | None =>
        dict_set markets market
          (PDict [(PStr "name", market);
                  (PStr "stocks", PList []);
                  (PStr "total_stocks", PInt 0)])
    | Some _ => markets
    end in
  group <- dict_item (PDict markets) market ;;
  ret (dict_set markets market (add_to_market stock group)).

Definition decade_cache_key (decade : string) : string := "decade_" +:+ decade.

(** [/api/data/decade/<decade>] *)
Definition get_decade_data (decade : string) : M Response :=
  if negb (validate_decade decade) then
    error_answer "Invalid decade parameter" 400
  else
  let cache_key := decade_cache_key decade in
  cached_data <- DataCache_get lib e (cache app) cache_key ;;
  if truthy cached_data then lift (jsonify cached_data)
  else
    try_except
      (get_db_connection ;;
       rows <- conn_execute
                 "SELECT * FROM stock_data WHERE decade = ? ORDER BY market, symbol"
                 [PStr decade] ;;
       let stocks := map dict_of_row rows in
       if bool_decide (length stocks = 0%nat) then
         error_answer "No data found for this decade" 404
       else
         (* Group by market *)
         markets <- foldM group_by_market [] stocks ;;
         let data := PDict
           [(PStr "decade", PStr decade);
            (PStr "markets", PDict markets);
            (PStr "total_stocks", PInt (Z.of_nat (length stocks)));
            (PStr "timestamp", PStr (isoformat_now e))] in
         DataCache_set lib e (cache app) cache_key data ;;
         lift (jsonify data))
      Exception
      (λ ex,
         logger_error "Error fetching decade data" (Some ex) ;;
         error_answer "Failed to fetch decade data" 500).

Definition market_cache_key (market : string) (decade : option string) : string :=
  "market_" +:+ market +:+ "_" +:+ or_else decade "all".

(** [/api/data/market/<market>] *)
Definition get_market_data (market : string) : M Response :=
  if negb (validate_market market) then
    error_answer "Invalid market parameter" 400
  else
  let decade := args_get (args request) "decade" in
  if given decade && negb (validate_decade (default "" decade)) then
    error_answer "Invalid decade parameter" 400
  else
  let cache_key := market_cache_key market decade in
  cached_data <- DataCache_get lib e (cache app) cache_key ;;
  if truthy cached_data then lift (jsonify cached_data)
  else
    try_except
      (let query := "SELECT * FROM stock_data WHERE market = ?" in
       let params := [PStr market] in
       let query := if given decade then query +:+ " AND decade = ?" else query in
       let params := if given decade then params ++ [of_optional decade] else params in
       let query := query +:+ " ORDER BY decade, symbol" in
       get_db_connection ;;
       rows <- conn_execute query params ;;
       let stocks := map dict_of_row rows in
       if bool_decide (length stocks = 0%nat) then
         error_answer "No data found for this market" 404
       else
         let data := PDict
           [(PStr "market", PStr market);
            (PStr "decade", of_optional decade);
            (PStr "stocks", PList stocks);
            (PStr "total_stocks", PInt (Z.of_nat (length stocks)));
            (PStr "timestamp", PStr (isoformat_now e))] in
         DataCache_set lib e (cache app) cache_key data ;;
         lift (jsonify data))
      Exception
      (λ ex,
         logger_error "Error fetching market data" (Some ex) ;;
         error_answer "Failed to fetch market data" 500).

Definition stock_cache_key (symbol : string) : string :=
  "stock_" +:+ str_upper lib symbol.

(** [/api/data/stock/<symbol>] *)
Definition get_stock_data (symbol : string) : M Response :=
  if String.eqb symbol "" || bool_decide (Z.of_nat (len symbol) > 10) then
    error_answer "Invalid symbol parameter" 400
  else
  let cache_key := stock_cache_key symbol in
  cached_data <- DataCache_get lib e (cache app) cache_key ;;
  if truthy cached_data then lift (jsonify cached_data)
  else
    try_except
      (get_db_connection ;;
       rows <- conn_execute
                 "SELECT * FROM stock_data WHERE UPPER(symbol) = UPPER(?) ORDER BY decade"
                 [PStr symbol] ;;
       let stocks := map dict_of_row rows in
       if bool_decide (length stocks = 0%nat) then
         error_answer "No data found for this stock" 404
       else
         let data := PDict
           [(PStr "symbol", PStr (str_upper lib symbol));
            (PStr "company_name",
             dict_get_default (default PNone (head stocks)) (PStr "company_name") (PStr ""));
            (PStr "historical_data", PList stocks);
            (PStr "decades_count", PInt (Z.of_nat (length stocks)));
            (PStr "timestamp", PStr (isoformat_now e))] in
         DataCache_set lib e (cache app) cache_key data ;;
         lift (jsonify data))
      Exception
      (λ ex,
         logger_error "Error fetching stock data" (Some ex) ;;
         error_answer "Failed to fetch stock data" 500).

Definition top_performers_cache_key (decade market : option string) (limit : Z) : string :=
  "top_performers_" +:+ or_else decade "all" +:+ "_" +:+ or_else market "all"
    +:+ "_" +:+ str_of_int limit.

(** [int(request.args.get('limit', 10))] *)
Definition limit_argument : M Z :=
  match args_get (args request) "limit" with
  | None => ret 10
  | Some s =>
      match int_of_str lib s with
      | Some n => ret n
      | None => raise ValueError
      end
  end.

(** [/api/data/top-performers] *)
Definition get_top_performers : M Response :=
  let decade := args_get (args request) "decade" in
  let market := args_get (args request) "market" in
  requested <- limit_argument ;;
  let limit := Z.min requested 50 in  (* Max 50 results *)
  if given decade && negb (validate_decade (default "" decade)) then
    error_answer "Invalid decade parameter" 400
  else if given market && negb (validate_market (default "" market)) then
    error_answer "Invalid market parameter" 400
  else
  let cache_key := top_performers_cache_key decade market limit in
  cached_data <- DataCache_get lib e (cache app) cache_key ;;
  if truthy cached_data then lift (jsonify cached_data)
  else
    try_except
      (let query := "SELECT * FROM stock_data WHERE 1=1" in
       let params := [] in
       let query := if given decade then query +:+ " AND decade = ?" else query in
       let params := if given decade then params ++ [of_optional decade] else params in
       let query := if given market then query +:+ " AND market = ?" else query in
       let params := if given market then params ++ [of_optional market] else params in
       let query := query +:+ " ORDER BY total_return DESC LIMIT ?" in
       let params := params ++ [PInt limit] in
       get_db_connection ;;
       rows <- conn_execute query params ;;
       let stocks := map dict_of_row rows in
       let data := PDict
         [(PStr "top_performers", PList stocks);
          (PStr "filters", PDict
             [(PStr "decade", of_optional decade);
              (PStr "market", of_optional market);
              (PStr "limit", PInt limit)]);
          (PStr "count", PInt (Z.of_nat (length stocks)));
          (PStr "timestamp", PStr (isoformat_now e))] in
       DataCache_set lib e (cache app) cache_key data ;;
       lift (jsonify data))
      Exception
      (λ ex,
         logger_error "Error fetching top performers" (Some ex) ;;
         error_answer "Failed to fetch top performers" 500).

Definition statistics_cache_key (decade market : option string) : string :=
  "statistics_" +:+ or_else decade "all" +:+ "_" +:+ or_else market "all".

(** [round(v, 2)] *)
Definition py_round2 (v : pyval) : M pyval :=
  match v with
  | PFloat x => ret (PFloat (round_float lib x 2))
  | PInt n => ret (PInt n)
  | PBool b => ret (PInt (if b then 1 else 0))
  | _ => raise TypeError
  end.

(** One turn of the loop that rounds the numeric values of [stats]. *)
Definition round_stat (stats : list (pyval * pyval)) (key : string)
    : M (list (pyval * pyval)) :=
  v <- dict_item (PDict stats) (PStr key) ;;
  match v with
  | PNone => ret stats
  | _ => r <- py_round2 v ;; ret (dict_set stats (PStr key) r)
  end.

(** [dict(cursor.fetchone())] *)
Definition fetchone_dict (rows : list Row) : M (list (pyval * pyval)) :=
  match rows with
  | [] => raise TypeError
  | row :: _ => ret (map (λ kv : string * pyval, (PStr kv.1, kv.2)) row)
  end.

(** The text of the statistics query; runs of blanks and line breaks of
    the source literal are written as one blank. *)
Definition statistics_query : string :=
  " SELECT COUNT(*) as total_stocks, AVG(total_return) as avg_return,"
  +:+ " MAX(total_return) as max_return, MIN(total_return) as min_return,"
  +:+ " AVG(volatility) as avg_volatility, COUNT(DISTINCT market) as markets_count,"
  +:+ " COUNT(DISTINCT decade) as decades_count FROM stock_data WHERE 1=1 ".

(** [/api/data/statistics] *)
Definition get_statistics : M Response :=
  let decade := args_get (args request) "decade" in
  let market := args_get (args request) "market" in
  if given decade && negb (validate_decade (default "" decade)) then
    error_answer "Invalid decade parameter" 400
  else if given market && negb (validate_market (default "" market)) then
    error_answer "Invalid market parameter" 400
  else
  let cache_key := statistics_cache_key decade market in
  cached_data <- DataCache_get lib e (cache app) cache_key ;;
  if truthy cached_data then lift (jsonify cached_data)
  else
    try_except
      (let query := statistics_query in
       let params := [] in
       let query := if given decade then query +:+ " AND decade = ?" else query in
       let params := if given decade then params ++ [of_optional decade] else params in
       let query := if given market then query +:+ " AND market = ?" else query in
       let params := if given market then params ++ [of_optional market] else params in
       get_db_connection ;;
       rows <- conn_execute query params ;;
       stats <- fetchone_dict rows ;;
       (* Round numeric values *)
       stats <- foldM round_stat stats
                  ["avg_return"; "max_return"; "min_return"; "avg_volatility"]%string ;;
       let data := PDict
         [(PStr "statistics", PDict stats);
          (PStr "filters", PDict
             [(PStr "decade", of_optional decade);
              (PStr "market", of_optional market)]);
          (PStr "timestamp", PStr (isoformat_now e))] in
       DataCache_set lib e (cache app) cache_key data ;;
       lift (jsonify data))
      Exception
      (λ ex,
         logger_error "Error fetching statistics" (Some ex) ;;
         error_answer "Failed to fetch statistics" 500).

(** [app.response_class(data, mimetype=..., headers={'Content-Disposition': ...})] *)
Definition attachment (data mime filename : string) : Response :=
  mkResponse 200 mime (Raw data)
    [("Content-Disposition"%string, "attachment; filename=" +:+ filename)].

(** [/api/data/export] *)
Definition export_data : M Response :=
  let decade := args_get (args request) "decade" in
  let market := args_get (args request) "market" in
  let format_type := str_lower lib (default "csv" (args_get (args request) "format")) in
  if negb (bool_decide (format_type ∈ ["csv"; "json"]%string)) then
    error_answer "Invalid format. Use csv or json" 400
  else if given decade && negb (validate_decade (default "" decade)) then
    error_answer "Invalid decade parameter" 400
  else if given market && negb (validate_market (default "" market)) then
    error_answer "Invalid market parameter" 400
  else
    try_except
      (let query := "SELECT * FROM stock_data WHERE 1=1" in
       let params := [] in
       let query := if given decade then query +:+ " AND decade = ?" else query in
       let params := if given decade then params ++ [of_optional decade] else params in
       let query := if given market then query +:+ " AND market = ?" else query in
       let params := if given market then params ++ [of_optional market] else params in
       let query := query +:+ " ORDER BY decade, market, symbol" in
       get_db_connection ;;
       df <- conn_execute query params ;;
       if bool_decide (length df = 0%nat) then
         error_answer "No data found for export" 404
       else if String.eqb format_type "csv" then
         ret (attachment (df_to_csv lib df) "text/csv"
                ("financiera_data_" +:+ or_else decade "all" +:+ "_"
                 +:+ or_else market "all" +:+ ".csv"))
       else (* json *)
         ret (attachment (df_to_json lib df) "application/json"
                ("financiera_data_" +:+ or_else decade "all" +:+ "_"
                 +:+ or_else market "all" +:+ ".json")))
      Exception
      (λ ex,
         logger_error "Error exporting data" (Some ex) ;;
         error_answer "Failed to export data" 500).
End handlers.

(** ** The routes decorated with [@require_rate_limit] *)

Inductive Endpoint :=
  | Decades
  | Markets
  | DecadeData (decade : string)
  | MarketData (market : string)
  | StockData (symbol : string)
  | TopPerformers
  | Statistics
  | Export.

Section routes.
Context (lib : PyLib) (app : App) (e : Env) (request : Request).

(** The view function of a route, holding its path argument. *)
Definition view_function (ep : Endpoint) : M Response :=
  match ep with
  | Decades => get_decades lib app e
  | Markets => get_markets lib app e
  | DecadeData decade => get_decade_data lib app e decade
  | MarketData market => get_market_data lib app e request market
  | StockData symbol => get_stock_data lib app e symbol
  | TopPerformers => get_top_performers lib app e request
  | Statistics => get_statistics lib app e request
  | Export => export_data lib e request
  end.

(** What the route runs for a request: the decorated view function. *)
Definition route (ep : Endpoint) : M Response :=
  require_rate_limit app e request (view_function ep).
End routes.

(** ** The health route, outside the limiter *)

Section health.
Context (e : Env) (str_exn : exn → string).

(** [/api/health]; [str_exn] is [str(e)] of an exception. *)
Definition health_check : M Response :=
  try_except
    ((* Check database connection *)
     get_db_connection e ;;
     conn_execute e "SELECT 1" [] ;;
     lift (jsonify (PDict
             [(PStr "status", PStr "healthy");
              (PStr "timestamp", PStr (isoformat_now e));
              (PStr "version", PStr "2.0")])))
    Exception
    (λ ex,
       logger_error "Health check failed" (Some ex) ;;
       response <-
         lift (jsonify (PDict
           [(PStr "status", PStr "unhealthy");
            (PStr "timestamp", PStr (isoformat_now e));
            (PStr "error", PStr (str_exn ex))])) ;;
       let response := with_status response 503 in
       ret response).
End health.

(** ** import_spy_stooq_csv.py: what the import writes into [stock_data] *)

Definition TICKER : string := "SPY".
Definition MARKET : string := "SPDR S&P 500 ETF".

(** [get_decade]: [f"{year//10*10}s"] *)
Definition get_decade (year : Z) : string :=
  str_of_int (year / 10 * 10) +:+ "s".

(** ** Statements examined below *)

(** Every stored timestamp of every tracked client is newer than [cutoff],
    and no tracked client has an empty sequence. *)
Definition pruned_everywhere (cutoff : Z) (self : RateLimiter) : Prop :=
  ∀ ip l, requests self !! ip = Some l → Forall (λ ts, ts > cutoff) l ∧ l ≠ [].

(** Client B called at 0 and at 50 on a new limiter of 100 requests per minute. *)
Definition after_two_calls : RateLimiter :=
  after_calls (mkRateLimiter 100 60 ∅) [("B"%string, 0); ("B"%string, 50)].

(** The constructor refuses its arguments. *)
Definition rejected_at_construction (max_requests window_minutes : Z) : Prop :=
  ∃ ex, RateLimiter_init max_requests window_minutes = Raised ex.

(** No storage operation fails. *)
Definition no_faults : Faults :=
  {| exists_fails := false; stat_fails := false; unlink_fails := false;
     open_read_fails := false; read_fails := false;
     open_write_fails := false; write_fails := None |}.

(** The world after a warning was logged. *)
Definition warned (msg : string) (ex : exn) (w : World) : World :=
  mkWorld (rate_limiter w) (files w) (log w ++ [mkLog WARNING msg (Some ex)]) (statements w).

(** The world with other files. *)
Definition with_files (fs : gmap string File) (w : World) : World :=
  mkWorld (rate_limiter w) fs (log w) (statements w).

(** The entry [file] is older than the time to live at the instant of [e]. *)
Definition expired (e : Env) (self : DataCache) (file : File) : bool :=
  bool_decide (time_time e - st_mtime file > ttl_seconds self).

(** What is raised inside the [try] of [DataCache.get] on its way
    through [file]: a storage fault, or what [json.load] raises. *)
Definition try_fault (lib : PyLib) (e : Env) (self : DataCache) (file : File)
    : option exn :=
  if stat_fails (faults e) then Some OSError
  else if expired e self file then
    (if unlink_fails (faults e) then Some OSError else None)
  else if open_read_fails (faults e) || read_fails (faults e) then Some OSError
  else match json_loads lib (content file) with
       | Returned _ => None
       | Raised ex => Some ex
       end.

(** A storage or parse fault meets [DataCache.get] on its way to [file]
    and through it. *)
Definition read_fault (lib : PyLib) (e : Env) (self : DataCache) (file : File)
    : option exn :=
  if exists_fails (faults e) then Some OSError else try_fault lib e self file.

(** The exceptions [DataCache.get] catches:
    [except (json.JSONDecodeError, OSError)]. *)
Definition caught_on_read (ex : exn) : bool :=
  match ex with
  | JSONDecodeError | OSError => true
  | _ => false
  end.

(** The value [json.load] reads from [file], when it reads one. *)
Definition payload (lib : PyLib) (file : File) : pyval :=
  match json_loads lib (content file) with
  | Returned v => v
  | Raised _ => PNone
  end.

(** The response of [return jsonify({'error': text}), code]. *)
Definition error_response (text : string) (code : Z) : Response :=
  with_status (json_response (PDict [(PStr "error", PStr text)])) code.

(** A storage fault meets [DataCache.set]. *)
Definition write_fault (e : Env) : bool :=
  open_write_fails (faults e) || bool_decide (is_Some (write_fails (faults e))).

(** The client a request is counted for. *)
Definition client_of (request : Request) : string :=
  default (remote_addr request) (http_x_forwarded_for request).

(** The response of a refused request. *)
Definition throttling_response (cfg : Config) : Response :=
  add_headers
    (mkResponse 429 "application/json"
       (Json (PDict
          [(PStr "error", PStr "Rate limit exceeded");
           (PStr "message",
            PStr ("Maximum " +:+ str_of_int (RATE_LIMIT_REQUESTS cfg)
                  +:+ " requests per " +:+ str_of_int (RATE_LIMIT_WINDOW cfg)
                  +:+ " minutes"))]))
       []).

(** The [decade] query parameter is given and is not a recognised decade;
    likewise for [market]. *)
Definition bad_decade (request : Request) : bool :=
  given (args_get (args request) "decade")
  && negb (validate_decade (default "" (args_get (args request) "decade"))).

Definition bad_market (request : Request) : bool :=
  given (args_get (args request) "market")
  && negb (validate_market (default "" (args_get (args request) "market"))).

(** A path or query parameter of the request fails the checks of the
    handler of [ep]. *)
Definition fails_validation (lib : PyLib) (request : Request) (ep : Endpoint) : bool :=
  match ep with
  | Decades | Markets => false
  | DecadeData decade => negb (validate_decade decade)
  | MarketData market => negb (validate_market market) || bad_decade request
  | StockData symbol =>
      String.eqb symbol "" || bool_decide (Z.of_nat (len symbol) > 10)
  | TopPerformers | Statistics => bad_decade request || bad_market request
  | Export =>
      negb (bool_decide
              (str_lower lib (default "csv" (args_get (args request) "format"))
               ∈ ["csv"; "json"]%string))
      || bad_decade request || bad_market request
  end.

(** The integer the [limit] query parameter parses as, 10 when absent. *)
Definition requested_limit (lib : PyLib) (request : Request) : option Z :=
  match args_get (args request) "limit" with
  | None => Some 10
  | Some s => int_of_str lib s
  end.

(** The cache key of a request that passed validation; the export route
    has none. *)
Definition cache_key_of (lib : PyLib) (request : Request) (ep : Endpoint)
    : option string :=
  match ep with
  | Decades => Some "decades_list"%string
  | Markets => Some "markets_list"%string
  | DecadeData decade => Some (decade_cache_key decade)
  | MarketData market =>
      Some (market_cache_key market (args_get (args request) "decade"))
  | StockData symbol => Some (stock_cache_key lib symbol)
  | TopPerformers =>
      match requested_limit lib request with
      | Some n =>
          Some (top_performers_cache_key (args_get (args request) "decade")
                  (args_get (args request) "market") (Z.min n 50))
      | None => None
      end
  | Statistics =>
      Some (statistics_cache_key (args_get (args request) "decade")
              (args_get (args request) "market"))
  | Export => None
  end.

(** A request is answered with a client error, records no timestamp for
    its client, and leaves the cache files as they were. *)
Definition uncounted_and_uncached
    (lib : PyLib) (app : App) (e : Env) (request : Request) (ep : Endpoint)
    (w : World) : Prop :=
  let result := route lib app e request ep w in
  (∃ r, result.1 = Returned r ∧ 400 ≤ status_code r < 500) ∧
  history (rate_limiter result.2) (client_of request)
    = newer_than (time_time e - window_seconds (rate_limiter w))
        (history (rate_limiter w) (client_of request)) ∧
  files result.2 = files w.

(** Two worlds that differ at most in the files of the cache. *)
Definition same_but_files (w1 w2 : World) : Prop :=
  rate_limiter w1 = rate_limiter w2 ∧ log w1 = log w2 ∧ statements w1 = statements w2.

(** A computation that does not look at the files of the cache: from two
    worlds that differ at most there it gives the same outcome, and worlds
    that again differ at most there. *)
Definition blind_to_files {A} (m : M A) : Prop :=
  ∀ w1 w2, same_but_files w1 w2 →
    (m w1).1 = (m w2).1 ∧ same_but_files (m w1).2 (m w2).2.

(** A computation that sends nothing to the database. *)
Definition sends_nothing {A} (m : M A) : Prop :=
  ∀ w, statements (m w).2 = statements w.

(** ** Closed instances for the examples

    Stand-ins for the codecs of the standard library, on the texts and
    values the examples use: decimal integers, and JSON without floats
    and without characters that need an escape. *)

(** Decimal digits read most significant first. *)
Fixpoint decimal_digits (s : string) (acc : Z) : option Z :=
  match s with
  | EmptyString => Some acc
  | String a rest =>
      let d := Z.of_nat (Ascii.nat_of_ascii a) - 48 in
      if bool_decide (0 ≤ d ≤ 9) then decimal_digits rest (10 * acc + d) else None
  end.

(** [int(s)] on an optional minus sign followed by decimal digits.  (Python
    also reads a plus sign, blanks around the number and underscores
    between digits; no example has them.) *)
Definition decimal_int (s : string) : option Z :=
  match s with
  | EmptyString => None
  | String "-"%char EmptyString => None
  | String "-"%char rest => Z.opp <$> decimal_digits rest 0
  | _ => decimal_digits s 0
  end.

(** The double quote. *)
Definition quote : ascii := Ascii.ascii_of_nat 34.

Definition quoted (s : string) : string :=
  String quote (s +:+ String quote EmptyString).

(** The text [json] writes for a key: keys that are no [str] become one. *)
Definition key_text (k : pyval) : string :=
  match k with
  | PStr s => s
  | PInt n => str_of_int n
  | PBool true => "true"
  | PBool false => "false"
  | PNone => "null"
  | _ => "#"
  end.

(** [json.dumps(v)] with the separators of the default encoder. *)
Fixpoint plain_dumps (v : pyval) : string :=
  match v with
  | PNone => "null"
  | PBool true => "true"
  | PBool false => "false"
  | PInt n => str_of_int n
  | PFloat _ => "#"
  | PStr s => quoted s
  | PList l => "[" +:+ String.concat ", " (map plain_dumps l) +:+ "]"
  | PDict items =>
      "{" +:+ String.concat ", "
                (map (λ kv, quoted (key_text (fst kv)) +:+ ": " +:+ plain_dumps (snd kv))
                     items)
          +:+ "}"
  end.

Definition blank (a : ascii) : bool :=
  Ascii.eqb a " " || Ascii.eqb a (Ascii.ascii_of_nat 10)
  || Ascii.eqb a (Ascii.ascii_of_nat 13) || Ascii.eqb a (Ascii.ascii_of_nat 9).

Fixpoint skip_blanks (s : string) : string :=
  match s with
  | String a rest => if blank a then skip_blanks rest else s
  | EmptyString => s
  end.

(** The characters up to the closing quote, and what follows it. *)
Fixpoint read_string (s : string) : option (string * string) :=
  match s with
  | EmptyString => None
  | String a rest =>
      if Ascii.eqb a quote then Some (EmptyString, rest)
      else if Ascii.eqb a "\" || (Ascii.nat_of_ascii a <? 32)%nat then None
      else match read_string rest with
           | Some (text, rest') => Some (String a text, rest')
           | None => None
           end
  end.

Definition digit (a : ascii) : bool :=
  (48 <=? Ascii.nat_of_ascii a)%nat && (Ascii.nat_of_ascii a <=? 57)%nat.

(** The digits a text starts with, and what follows them. *)
Fixpoint read_digits (s : string) : string * string :=
  match s with
  | String a rest =>
      if digit a then let '(ds, rest') := read_digits rest in (String a ds, rest')
      else (EmptyString, s)
  | EmptyString => (EmptyString, s)
  end.

(** An integer of JSON: no leading zero, and no fraction or exponent
    after it. *)
Definition read_int (s : string) : option (Z * string) :=
  let '(sign, s') :=
    match s with
    | String "-"%char rest => (-1, rest)
    | _ => (1, s)
    end in
  let '(ds, rest) := read_digits s' in
  match ds, rest with
  | EmptyString, _ => None
  | String "0"%char (String _ _), _ => None
  | _, String "."%char _ | _, String "e"%char _ | _, String "E"%char _ => None
  | _, _ => (λ n, (sign * n, rest)) <$> decimal_digits ds 0
  end.

(** [s] without the prefix [word], when it starts with it. *)
Fixpoint after (word s : string) : option string :=
  match word, s with
  | EmptyString, _ => Some s
  | String a word', String b s' => if Ascii.eqb a b then after word' s' else None
  | _, _ => None
  end.

(** A value of JSON and what follows it; [fuel] bounds the nesting and
    the number of items. *)
Fixpoint read_value (fuel : nat) (s : string) : option (pyval * string) :=
  match fuel with
  | O => None
  | S fuel =>
      match skip_blanks s with
      | String "n"%char rest => (λ r, (PNone, r)) <$> after "ull" rest
      | String "t"%char rest => (λ r, (PBool true, r)) <$> after "rue" rest
      | String "f"%char rest => (λ r, (PBool false, r)) <$> after "alse" rest
      | String "["%char rest =>
          match skip_blanks rest with
          | String "]"%char rest' => Some (PList [], rest')
          | _ => (λ lr : list pyval * string, (PList lr.1, lr.2)) <$> read_items fuel rest
          end
      | String "{"%char rest =>
          match skip_blanks rest with
          | String "}"%char rest' => Some (PDict [], rest')
          | _ =>
              (λ lr : list (pyval * pyval) * string, (PDict lr.1, lr.2))
                <$> read_members fuel [] rest
          end
      | String a rest =>
          if Ascii.eqb a quote
          then (λ tr : string * string, (PStr tr.1, tr.2)) <$> read_string rest
          else (λ nr : Z * string, (PInt nr.1, nr.2)) <$> read_int (String a rest)
      | EmptyString => None
      end
  end
with read_items (fuel : nat) (s : string) : option (list pyval * string) :=
  match fuel with
  | O => None
  | S fuel =>
      match read_value fuel s with
      | Some (v, rest) =>
          match skip_blanks rest with
          | String ","%char rest' =>
              (λ lr : list pyval * string, (v :: lr.1, lr.2)) <$> read_items fuel rest'
          | String "]"%char rest' => Some ([v], rest')
          | _ => None
          end
      | None => None
      end
  end
with read_members (fuel : nat) (items : list (pyval * pyval)) (s : string)
    : option (list (pyval * pyval) * string) :=
  match fuel with
  | O => None
  | S fuel =>
      match skip_blanks s with
      | String a rest =>
          if Ascii.eqb a quote then
            match read_string rest with
            | Some (k, rest1) =>
                match skip_blanks rest1 with
                | String ":"%char rest2 =>
                    match read_value fuel rest2 with
                    | Some (v, rest3) =>
                        let items := dict_set items (PStr k) v in
                        match skip_blanks rest3 with
                        | String ","%char rest4 => read_members fuel items rest4
                        | String "}"%char rest4 => Some (items, rest4)
                        | _ => None
                        end
                    | None => None
                    end
                | _ => None
                end
            | None => None
            end
          else None
      | EmptyString => None
      end
  end.

(** A byte that no UTF-8 text holds: [0xF8] to [0xFF]. *)
Fixpoint undecodable (s : string) : bool :=
  match s with
  | EmptyString => false
  | String a rest => (248 <=? Ascii.nat_of_ascii a)%nat || undecodable rest
  end.

(** [json.load] on a file that holds [s]. *)
Definition plain_loads (s : string) : outcome pyval :=
  if undecodable s then Raised UnicodeDecodeError
  else match read_value (S (String.length s)) s with
       | Some (v, rest) =>
           match skip_blanks rest with
           | EmptyString => Returned v
           | _ => Raised JSONDecodeError
           end
       | None => Raised JSONDecodeError
       end.

(** [c.upper()] on the letters of ASCII. *)
Definition upper_ascii (a : ascii) : ascii :=
  let n := Ascii.nat_of_ascii a in
  if (97 <=? n)%nat && (n <=? 122)%nat then Ascii.ascii_of_nat (n - 32) else a.

Fixpoint upper (s : string) : string :=
  match s with
  | EmptyString => EmptyString
  | String a rest => String (upper_ascii a) (upper rest)
  end.

Definition plain_lib : PyLib :=
  {| json_dumps := plain_dumps;
     json_loads := plain_loads;
     int_of_str := decimal_int;
     round_float := λ x _, x;
     str_upper := upper;
     str_lower := lower;
     df_to_csv := λ _, ""%string;
     df_to_json := λ _, ""%string |}.

(** A request at instant [t] that meets no fault, and a database that
    connects and answers every statement with no row. *)
Definition quiet (t : Z) : Env :=
  {| time_time := t;
     isoformat_now := "2024-01-01T00:00:00";
     faults := no_faults;
     connect_fails := false;
     execute := λ _ _, Returned [] |}.

(** The application with the default configuration: 100 requests per 15
    minutes, entries cached for 60 minutes. *)
Definition default_config : Config :=
  {| RATE_LIMIT_REQUESTS := 100; RATE_LIMIT_WINDOW := 15; CACHE_TTL := 60 |}.

Definition default_app : App :=
  {| config := default_config |}.

(** The world of a process that just started, with no cache file. *)
Definition new_world : World :=
  mkWorld (mkRateLimiter 100 (15 * 60) ∅) ∅ [] [].

Definition plain_request (query : list (string * string)) : Request :=
  {| http_x_forwarded_for := None; remote_addr := "10.0.0.1"; args := query |}.

(** No tracked sequence is longer than the limit allows. *)
Definition bounded_table (self : RateLimiter) : Prop :=
  ∀ ip l, requests self !! ip = Some l →
    Z.of_nat (length l) ≤ Z.max 0 (max_requests self).

(** [response.headers.get(k)]: the first header of that name, whatever
    its case. *)
Fixpoint header_get (k : string) (hs : list (string * string)) : option string :=
  match hs with
  | [] => None
  | (k', v) :: rest => if same_header k' k then Some v else header_get k rest
  end.

(** The headers of a name, whatever its case. *)
Definition headers_named (k : string) (hs : list (string * string))
    : list (string * string) :=
  filter (λ h : string * string, same_header h.1 k = true) hs.

(** The names [SecurityHeaders.add_headers] assigns. *)
Definition security_header_names : list string :=
  ["X-Content-Type-Options"; "X-Frame-Options"; "X-XSS-Protection";
   "Strict-Transport-Security"; "Content-Security-Policy"]%string.

(** A computation that leaves a component of the world as it was. *)
Definition preserves {X A} (proj : World → X) (m : M A) : Prop :=
  ∀ w, proj (m w).2 = proj w.

(** A computation that raises nothing. *)
Definition always_returns {A} (m : M A) : Prop :=
  ∀ w, ∃ a w', m w = (Returned a, w').

(** What a handler makes of the payload [data] it stored: the 200
    response that carries it, when [jsonify] takes it; otherwise the
    [TypeError] of [jsonify] or, once the handler caught it, a 500. *)
Definition answer_for (data : pyval) (o : outcome Response) : Prop :=
  match o with
  | Returned r =>
      if serializable data then r = json_response data
      else ∃ text, r = error_response text 500
  | Raised ex => serializable data = false ∧ ex = TypeError
  end.

(** A computation of a handler that writes the cache, under [key], at
    most once, and then the payload it goes on to answer with: either
    nothing is written and no 200 is returned, or [set] ran to its end
    on a truthy payload and the outcome is the answer for that payload. *)
Definition caches_its_payload
    (lib : PyLib) (e : Env) (c : DataCache) (key : string) (m : M Response) : Prop :=
  ∀ w,
    (files (m w).2 = files w ∧ ∀ r, (m w).1 = Returned r → status_code r ≠ 200) ∨
    (∃ data,
       truthy data = true ∧
       (DataCache_set lib e c key data w).1 = Returned tt ∧
       files (m w).2 = files (DataCache_set lib e c key data w).2 ∧
       answer_for data (m w).1).

(** The database is down, or refuses every statement. *)
Definition database_fails (e : Env) : Prop :=
  connect_fails e = true ∨ ∀ sql params, ∃ ex, execute e sql params = Raised ex.

(** A request at instant [t] that finds the database down. *)
Definition database_down (t : Z) : Env :=
  {| time_time := t;
     isoformat_now := "2024-01-01T00:00:00";
     faults := no_faults;
     connect_fails := true;
     execute := λ _ _, Returned [] |}.

(** The payload of the decades route over an empty table. *)
Definition no_decades : pyval :=
  PDict [(PStr "decades", PList []);
         (PStr "count", PInt 0);
         (PStr "timestamp", PStr "2024-01-01T00:00:00")].

(** The database answers, and every statement finds no row. *)
Definition database_empty (e : Env) : Prop :=
  connect_fails e = false ∧ ∀ sql params, execute e sql params = Returned [].

(** The routes that answer "no data" for an empty result. *)
Definition answers_no_data (ep : Endpoint) : bool :=
  match ep with
  | DecadeData _ | MarketData _ | StockData _ | Export => true
  | _ => false
  end.

(** The routes that answer with the list they found, empty or not. *)
Definition answers_list (ep : Endpoint) : bool :=
  match ep with
  | Decades | Markets | TopPerformers => true
  | _ => false
  end.

(** What a cached route asks for, once its parameters are normalised as
    the handler normalises them: the route, its text parameters ([all]
    for a decade or market that is not given, the symbol in upper case)
    and the limit after clamping. *)
Definition normalized_query (lib : PyLib) (request : Request) (ep : Endpoint)
    : string * list string * option Z :=
  let decade := or_else (args_get (args request) "decade") "all" in
  let market := or_else (args_get (args request) "market") "all" in
  match ep with
  | Decades => ("decades", [], None)
  | Markets => ("markets", [], None)
  | DecadeData d => ("decade", [d], None)
  | MarketData m => ("market", [m; decade], None)
  | StockData symbol => ("stock", [str_upper lib symbol], None)
  | TopPerformers =>
      ("top-performers", [decade; market],
       (λ n, Z.min n 50) <$> requested_limit lib request)
  | Statistics => ("statistics", [decade; market], None)
  | Export => ("export", [decade; market], None)
  end%string.

(** Two rows of a decade: a stock without a market, and one on the NYSE. *)
Definition mixed_rows : list Row :=
  [[("symbol", PStr "A"); ("market", PNone)];
   [("symbol", PStr "B"); ("market", PStr "NYSE")]]%string.

(** A request at instant [t] that meets no fault, and a database that
    connects and answers every statement with [rows]. *)
Definition answering (t : Z) (rows : list Row) : Env :=
  {| time_time := t;
     isoformat_now := "2024-01-01T00:00:00";
     faults := no_faults;
     connect_fails := false;
     execute := λ _ _, Returned rows |}.

(** The world of a process whose cache holds the list of decades,
    written at instant 0. *)
Definition stale_world : World :=
  mkWorld (mkRateLimiter 100 (15 * 60) ∅)
    {[ "cache/decades_list.json"%string := mkFile 0 (plain_dumps no_decades) ]} [] [].

(** The [limit] parameter [-1000...0], 300 zeros. *)
Definition long_limit : string := str_of_int (- 10 ^ 300).

(** A key with a slash: its file lies outside the cache directory, or
    has another name than the key. *)
Fixpoint has_slash (s : string) : bool :=
  match s with
  | EmptyString => false
  | String a rest => Ascii.eqb a "/" || has_slash rest
  end.

(** Calls of [DataCache.set], in order: the world they leave. *)
Fixpoint after_sets (lib : PyLib) (self : DataCache)
    (calls : list (Env * string * pyval)) (w : World) : World :=
  match calls with
  | [] => w
  | (e, key, data) :: rest => after_sets lib self rest (DataCache_set lib e self key data w).2
  end.

(** [set(key, v)] followed by [get(key)] within the time to live returns
    [v], the storage working. *)
Definition returns_what_was_set
    (lib : PyLib) (self : DataCache) (key : string) (v : pyval) : Prop :=
  ∀ w e_set e_get,
    faults e_set = no_faults → faults e_get = no_faults →
    time_time e_get - time_time e_set ≤ ttl_seconds self →
    (DataCache_get lib e_get self key (DataCache_set lib e_set self key v w).2).1
    = Returned v.

(** In a cache directory that was empty, [get(key)] returns [None] when
    only [other] was ever set, the storage working. *)
Definition unset_key_not_found
    (lib : PyLib) (self : DataCache) (key other : string) : Prop :=
  ∀ v e_set e_get,
    faults e_set = no_faults → faults e_get = no_faults →
    (DataCache_get lib e_get self key (DataCache_set lib e_set self other v new_world).2).1
    = Returned PNone.

(** The key of a request for the top performers with
    [limit=-1000...0], 300 zeros: too long for a file name. *)
Definition long_key : string :=
  top_performers_cache_key None None (- 10 ^ 300).

(** Bytes that are no text, and a key with a NUL. *)
Definition no_text : string := String (Ascii.ascii_of_nat 255) EmptyString.

Definition nul_key : string := String "a" (String Ascii.zero (String "b" EmptyString)).

(** A cache of five seconds. *)
Definition short_cache : DataCache := mkDataCache "cache" 5.

(** A request at instant [t] that meets the storage faults [f]. *)
Definition faulty (t : Z) (f : Faults) : Env :=
  {| time_time := t;
     isoformat_now := "2024-01-01T00:00:00";
     faults := f;
     connect_fails := false;
     execute := λ _ _, Returned [] |}.

(** The name of the entry is one the file system refuses to look up: it
    is too long, or the directory cannot be searched. *)
Definition lookup_refused : Faults :=
  {| exists_fails := true; stat_fails := false; unlink_fails := false;
     open_read_fails := false; read_fails := false;
     open_write_fails := false; write_fails := None |}.

(** The write breaks off after [n] characters. *)
Definition write_breaks_after (n : nat) : Faults :=
  {| exists_fails := false; stat_fails := false; unlink_fails := false;
     open_read_fails := false; read_fails := false;
     open_write_fails := false; write_fails := Some n |}.

(** * The limiter: one call *)

Section limiter_call.
Context (self : RateLimiter) (now : Z) (c : string).

Let cutoff := now - window_seconds self.

Lemma filter_none_of_not_exists (l : list Z) :
  ¬ Exists (λ ts, ts > cutoff) l → newer_than cutoff l = [].
Proof.
  intros Hno. unfold newer_than. induction l as [|x l IH]; [done|].
  rewrite filter_cons. destruct (decide (x > cutoff)) as [Hx|Hx].
  - exfalso. apply Hno. by left.
  - apply IH. intros He. apply Hno. by right.
Qed.

(** The two pruning steps leave, for the caller, exactly the records of
    the old sequence that are newer than the cutoff. *)
Lemma is_allowed_unfold :
  let live := newer_than cutoff (history self c) in
  is_allowed self now c =
    if bool_decide (Z.of_nat (length live) >= max_requests self)
    then (false, mkRateLimiter (max_requests self) (window_seconds self)
            (<[c := live]>
               (filter (λ kv : string * list Z, Exists (λ ts, ts > cutoff) kv.2)
                       (requests self))))
    else (true, mkRateLimiter (max_requests self) (window_seconds self)
            (<[c := live ++ [now]]>
               (filter (λ kv : string * list Z, Exists (λ ts, ts > cutoff) kv.2)
                       (requests self)))).
Proof.
  intros live. unfold is_allowed. fold cutoff.
  set (m1 := filter _ (requests self)).
  assert (Hlive : filter (λ ts, ts > cutoff)
            ((match m1 !! c with None => <[c:=[]]> m1 | Some _ => m1 end) !!! c) = live).
  { unfold live, history. destruct (m1 !! c) as [l|] eqn:Hm1.
    - rewrite (lookup_total_correct _ _ _ Hm1).
      apply map_lookup_filter_Some in Hm1 as [-> _]. done.
    - rewrite lookup_total_insert_eq.
      apply map_lookup_filter_None in Hm1 as [-> | Hm1]; [done|].
      destruct (requests self !! c) as [l|] eqn:Hl; [|done]. simpl.
      symmetry. apply filter_none_of_not_exists. by apply Hm1. }
  rewrite Hlive, !lookup_total_insert_eq.
  assert (Hins : ∀ v, <[c := v]> (match m1 !! c with None => <[c:=[]]> m1 | Some _ => m1 end)
                      = <[c := v]> m1).
  { intros v. destruct (m1 !! c); [done|]. by rewrite insert_insert_eq. }
  rewrite insert_insert_eq, !Hins. done.
Qed.

Lemma is_allowed_verdict :
  (is_allowed self now c).1 =
    negb (bool_decide (Z.of_nat (length (newer_than cutoff (history self c)))
                       >= max_requests self)).
Proof. rewrite is_allowed_unfold. by case_bool_decide. Qed.

Lemma is_allowed_history :
  history (is_allowed self now c).2 c =
    if (is_allowed self now c).1
    then newer_than cutoff (history self c) ++ [now]
    else newer_than cutoff (history self c).
Proof.
  rewrite is_allowed_unfold. case_bool_decide; simpl;
    unfold history; simpl; by rewrite lookup_insert_eq.
Qed.

Lemma is_allowed_config :
  max_requests (is_allowed self now c).2 = max_requests self ∧
  window_seconds (is_allowed self now c).2 = window_seconds self.
Proof. rewrite is_allowed_unfold. by case_bool_decide. Qed.

Lemma is_allowed_other (ip : string) :
  ip ≠ c →
  requests (is_allowed self now c).2 !! ip =
    filter (λ kv : string * list Z, Exists (λ ts, ts > cutoff) kv.2) (requests self) !! ip.
Proof.
  intros Hne. rewrite is_allowed_unfold.
  case_bool_decide; simpl; by rewrite lookup_insert_ne.
Qed.
End limiter_call.

(** * The limiter: calls inside one window *)

Section limiter_window.
Context (c : string) (t0 : Z).

Lemma newer_than_all (cutoff : Z) (l : list Z) :
  Forall (λ ts, ts > cutoff) l → newer_than cutoff l = l.
Proof.
  unfold newer_than. induction 1 as [|x l Hx _ IH]; [done|].
  by rewrite filter_cons_True, IH.
Qed.

Lemma since_newer_than (cutoff : Z) (l : list Z) :
  cutoff < t0 →
  filter (λ ts, t0 ≤ ts) (newer_than cutoff l) = filter (λ ts, t0 ≤ ts) l.
Proof.
  intros Hc. unfold newer_than. induction l as [|x l IH]; [done|].
  rewrite !filter_cons.
  destruct (decide (x > cutoff)), (decide (t0 ≤ x)); try lia.
  - by rewrite filter_cons_True, IH.
  - by rewrite filter_cons_False, IH.
  - done.
Qed.

Lemma verdicts_length (times : list Z) :
  ∀ self, length (verdicts self c times) = length times.
Proof.
  induction times as [|t rest IH]; intros self; simpl; [done|].
  destruct (is_allowed self t c) as [ok self'] eqn:Hcall. simpl. by rewrite IH.
Qed.

(** When every record of the client lies in the window, the i-th call is
    admitted exactly when the records and the earlier calls leave room. *)
Lemma verdicts_in_window (times : list Z) :
  ∀ self (i : nat),
    Forall (λ t, t0 ≤ t < t0 + window_seconds self) times →
    Forall (λ ts, t0 ≤ ts) (history self c) →
    (i < length times)%nat →
    verdicts self c times !! i =
      Some (bool_decide (Z.of_nat (length (history self c)) + Z.of_nat i
                         < max_requests self)).
Proof.
  induction times as [|t rest IH]; intros self i Hwin Hhist Hi; simpl in *; [lia|].
  apply Forall_cons in Hwin as [Ht Hwin].
  pose proof (is_allowed_verdict self t c) as Hv.
  pose proof (is_allowed_history self t c) as Hh.
  pose proof (is_allowed_config self t c) as [Hmax Hw].
  rewrite newer_than_all in Hv, Hh
    by (eapply Forall_impl; [exact Hhist | simpl; intros; lia]).
  destruct (is_allowed self t c) as [ok self'] eqn:Hcall. simpl in *.
  destruct i as [|i]; simpl.
  - f_equal. rewrite Hv. repeat case_bool_decide; simpl; first [done | lia].
  - rewrite IH; [| by rewrite Hw | | lia].
    + f_equal. rewrite Hmax, Hh, Hv.
      case_bool_decide as Hfull; simpl.
      * repeat case_bool_decide; first [done | lia].
      * rewrite length_app. simpl. repeat case_bool_decide; first [done | lia].
    + rewrite Hh. destruct ok; [|done].
      apply Forall_app. split; [done|]. apply Forall_singleton. lia.
Qed.

(** From any state: the admissions inside the window and the records of
    the window never exceed the limit together. *)
Lemma admitted_in_window (times : list Z) :
  ∀ self,
    Forall (λ t, t0 ≤ t < t0 + window_seconds self) times →
    Z.of_nat (admitted_count (verdicts self c times))
      + Z.of_nat (length (filter (λ ts, t0 ≤ ts) (history self c)))
    ≤ Z.max (max_requests self)
            (Z.of_nat (length (filter (λ ts, t0 ≤ ts) (history self c)))).
Proof.
  induction times as [|t rest IH]; intros self Hwin; simpl.
  { unfold admitted_count. simpl. lia. }
  apply Forall_cons in Hwin as [Ht Hwin].
  pose proof (is_allowed_verdict self t c) as Hv.
  pose proof (is_allowed_history self t c) as Hh.
  pose proof (is_allowed_config self t c) as [Hmax Hw].
  pose proof (since_newer_than (t - window_seconds self) (history self c)) as Hsince.
  pose proof (length_filter (λ ts, t0 ≤ ts)
                (newer_than (t - window_seconds self) (history self c))) as Hlen.
  rewrite Hsince in Hlen by lia.
  destruct (is_allowed self t c) as [ok self'] eqn:Hcall. simpl in *.
  specialize (IH self'). rewrite Hw, Hmax, Hh in IH. specialize (IH Hwin).
  unfold admitted_count in *. rewrite filter_cons.
  destruct ok; simpl in *.
  - rewrite filter_app, length_app, Hsince in IH by lia.
    rewrite filter_cons_True, filter_nil in IH by lia. simpl in IH.
    destruct (decide (true = true)); [|done]. simpl.
    symmetry in Hv. apply negb_true_iff, bool_decide_eq_false in Hv. lia.
  - rewrite Hsince in IH by lia.
    destruct (decide (false = true)); [done|]. lia.
Qed.
End limiter_window.

(** The scenario of the specification: two requests per 60 seconds, client A
    calling at 0, 10, 20 and 61. *)
Example scenario_two_per_minute :
  verdicts (mkRateLimiter 2 60 ∅) "A" [0; 10; 20; 61] = [true; true; false; true].
Proof. vm_compute. reflexivity. Qed.

(** C1. One call of [is_allowed] is refused, and records nothing for the
    caller, exactly when the caller's records strictly newer than
    [now - window_seconds] number at least [max_requests]; otherwise the
    call appends [now] to the caller's sequence and is admitted.  Hence,
    for calls of one client at instants of one window of length
    [window_seconds], at most [max_requests] are admitted (from any
    state), and for a client without records the i-th call is admitted
    exactly when [i < max_requests], so the call after [max_requests]
    calls is refused. *)
Theorem C1_is_allowed_admission (self : RateLimiter) (now : Z) (c : string) :
  let live := newer_than (now - window_seconds self) (history self c) in
  ((is_allowed self now c).1 = false ↔ Z.of_nat (length live) >= max_requests self) ∧
  ((is_allowed self now c).1 = false → history (is_allowed self now c).2 c = live) ∧
  ((is_allowed self now c).1 = true →
     history (is_allowed self now c).2 c = live ++ [now]) ∧
  (∀ (t0 : Z) (times : list Z),
     0 ≤ max_requests self →
     Forall (λ t, t0 ≤ t < t0 + window_seconds self) times →
     Z.of_nat (admitted_count (verdicts self c times)) ≤ max_requests self ∧
     (history self c = [] →
      ∀ i : nat, (i < length times)%nat →
        verdicts self c times !! i = Some (bool_decide (Z.of_nat i < max_requests self)))).
Proof.
  intros live. split; [|split; [|split]].
  - rewrite is_allowed_verdict. fold live. split; intros Hfull.
    + by apply negb_false_iff, bool_decide_eq_true in Hfull.
    + by apply negb_false_iff, bool_decide_eq_true.
  - intros Hrefused. by rewrite is_allowed_history, Hrefused.
  - intros Hadmitted. by rewrite is_allowed_history, Hadmitted.
  - intros t0 times Hmax Hwindow. split.
    + pose proof (admitted_in_window c t0 times self Hwindow). lia.
    + intros Hnone i Hi.
      rewrite (verdicts_in_window c t0 times self i Hwindow); [| by rewrite Hnone | done].
      rewrite Hnone. simpl. f_equal; repeat case_bool_decide; first [done | lia].
Qed.

Lemma C1_is_allowed_admission_witness :
  Z.of_nat (admitted_count (verdicts (mkRateLimiter 2 60 ∅) "A" [0; 10; 20])) ≤ 2 ∧
  verdicts (mkRateLimiter 2 60 ∅) "A" [0; 10; 20] !! 2%nat = Some false.
Proof.
  destruct (C1_is_allowed_admission (mkRateLimiter 2 60 ∅) 0 "A") as (_ & _ & _ & Hwin).
  destruct (Hwin 0 [0; 10; 20]) as [Hbound Hnth].
  - simpl. lia.
  - repeat constructor; simpl; lia.
  - split; [exact Hbound|]. apply (Hnth eq_refl 2%nat). simpl. lia.
Defined.

(** * The limiter: what a call leaves in the table *)

Lemma is_allowed_caller_entry (self : RateLimiter) (now : Z) (c : string) :
  requests (is_allowed self now c).2 !! c = Some (history (is_allowed self now c).2 c).
Proof.
  rewrite is_allowed_unfold. case_bool_decide; unfold history; simpl;
    by rewrite lookup_insert_eq.
Qed.

(** C3, as stated, fails: after B called at 0 and at 50, a call of A at 70
    (cutoff 10) leaves B tracked with its record 0, which is not newer than
    the cutoff. *)
Lemma C3_counterexample :
  ¬ pruned_everywhere (70 - 60) (is_allowed after_two_calls 70 "A").2.
Proof.
  intros Hall.
  destruct (Hall "B"%string [0; 50]) as [Hnew _].
  - vm_compute. reflexivity.
  - apply Forall_cons in Hnew as [H0 _]. lia.
Qed.

(** C3, amended.  After a call of [is_allowed] by [c] with cutoff
    [now - window_seconds]: when the window is positive every timestamp of
    the caller's sequence is strictly newer than the cutoff; any other
    client is tracked afterwards exactly when it was tracked before with
    at least one timestamp strictly newer than the cutoff, and then with
    its whole previous sequence; and when [max_requests] is at least 1 no
    tracked client has an empty sequence. *)
Theorem C3_pruning_after_call (self : RateLimiter) (now : Z) (c : string) :
  let cutoff := now - window_seconds self in
  let self' := (is_allowed self now c).2 in
  (0 < window_seconds self → Forall (λ ts, ts > cutoff) (history self' c)) ∧
  (∀ ip l, ip ≠ c →
     requests self' !! ip = Some l ↔
     requests self !! ip = Some l ∧ Exists (λ ts, ts > cutoff) l) ∧
  (1 ≤ max_requests self → ∀ ip l, requests self' !! ip = Some l → l ≠ []).
Proof.
  intros cutoff self'.
  assert (Hlive : Forall (λ ts, ts > cutoff) (newer_than cutoff (history self c))).
  { apply Forall_forall. intros ts Hts.
    unfold newer_than in Hts. apply list_elem_of_filter in Hts as [Hts _]. done. }
  assert (Hother : ∀ ip l, ip ≠ c →
     requests self' !! ip = Some l ↔
     requests self !! ip = Some l ∧ Exists (λ ts, ts > cutoff) l).
  { intros ip l Hne. unfold self'. rewrite is_allowed_other by done.
    rewrite map_lookup_filter_Some. simpl. tauto. }
  split; [|split]; [| exact Hother |].
  - intros Hw. unfold self'. rewrite is_allowed_history.
    destruct ((is_allowed self now c).1); [|done].
    apply Forall_app. split; [done|]. apply Forall_singleton. unfold cutoff. lia.
  - intros Hmax ip l Hl. destruct (decide (ip = c)) as [->|Hne].
    + unfold self' in Hl. rewrite is_allowed_caller_entry in Hl.
      injection Hl as <-. rewrite is_allowed_history.
      destruct ((is_allowed self now c).1) eqn:Hv.
      * intros Habs. by apply app_eq_nil in Habs as [_ ?].
      * rewrite is_allowed_verdict in Hv.
        apply negb_false_iff, bool_decide_eq_true in Hv.
        intros Habs. unfold cutoff in Habs. rewrite Habs in Hv. simpl in Hv. lia.
    + apply Hother in Hl as [_ Hex]; [|done].
      intros ->. by apply Exists_nil in Hex.
Qed.

Lemma C3_pruning_after_call_witness :
  Forall (λ ts, ts > 70 - 60) (history (is_allowed after_two_calls 70 "A").2 "A") ∧
  (∀ ip l, requests (is_allowed after_two_calls 70 "A").2 !! ip = Some l → l ≠ []).
Proof.
  destruct (C3_pruning_after_call after_two_calls 70 "A") as (Hfresh & _ & Hnonempty).
  split.
  - apply Hfresh. vm_compute. reflexivity.
  - apply Hnonempty. vm_compute. discriminate.
Defined.

(** * The limiter: configuration *)

(** C7, as stated, fails: a window of 0 minutes is accepted. *)
Lemma C7_counterexample :
  0 * 60 ≤ 0 ∧ ¬ rejected_at_construction 100 0.
Proof.
  split; [lia|]. intros [ex Hex]. discriminate Hex.
Qed.

(** C7, amended.  [RateLimiter.__init__] validates nothing: for every
    [max_requests] and [window_minutes] it returns a limiter with
    [window_seconds = window_minutes * 60] and no records, also for a window
    that is zero or negative.  A limiter with such a window and
    [max_requests] of at least 1 admits every call of a client none of whose
    recorded timestamps lies after the instant of the call. *)
Theorem C7_no_validation_at_construction (m window_minutes : Z) :
  RateLimiter_init m window_minutes
    = Returned (mkRateLimiter m (window_minutes * 60) ∅) ∧
  (window_minutes * 60 ≤ 0 → 1 ≤ m →
   ∀ (table : gmap string (list Z)) (now : Z) (c : string),
     Forall (λ ts, ts ≤ now)
            (history (mkRateLimiter m (window_minutes * 60) table) c) →
     (is_allowed (mkRateLimiter m (window_minutes * 60) table) now c).1 = true).
Proof.
  split; [done|].
  intros Hw Hm table now c Hpast.
  rewrite is_allowed_verdict. simpl.
  assert (Hnone : newer_than (now - window_minutes * 60)
                    (history (mkRateLimiter m (window_minutes * 60) table) c) = []).
  { apply (filter_none_of_not_exists (mkRateLimiter m (window_minutes * 60) table) now).
    simpl. intros Hex. apply Exists_exists in Hex as (ts & Hin & Hts).
    rewrite Forall_forall in Hpast. specialize (Hpast ts Hin). simpl in Hpast. lia. }
  rewrite Hnone. simpl. apply negb_true_iff, bool_decide_eq_false. lia.
Qed.

Lemma C7_no_validation_at_construction_witness :
  RateLimiter_init 1 0 = Returned (mkRateLimiter 1 (0 * 60) ∅) ∧
  (is_allowed (mkRateLimiter 1 (0 * 60) {[ "A"%string := [5] ]}) 5 "A").1 = true.
Proof.
  destruct (C7_no_validation_at_construction 1 0) as [Hinit Hadmit].
  split; [exact Hinit|].
  apply Hadmit.
  - lia.
  - lia.
  - vm_compute. repeat constructor. discriminate.
Defined.

(** C8. A limiter with [max_requests = 0] refuses every call: for every
    window, every table of records, every instant and every client. *)
Theorem C8_zero_limit_rejects_all
    (window : Z) (table : gmap string (list Z)) (now : Z) (c : string) :
  (is_allowed (mkRateLimiter 0 window table) now c).1 = false.
Proof.
  rewrite is_allowed_verdict. simpl.
  apply negb_false_iff, bool_decide_eq_true. lia.
Qed.

(** * Names of cache files *)

Lemma string_app_length (s t : string) :
  String.length (s +:+ t) = (String.length s + String.length t)%nat.
Proof. induction s as [|a s IH]; simpl; [done|]. by rewrite IH. Qed.

Lemma string_app_inj_r (s1 s2 t : string) : s1 +:+ t = s2 +:+ t → s1 = s2.
Proof.
  revert s2. induction s1 as [|a s1 IH]; intros [|b s2] Heq; simpl in Heq.
  - done.
  - apply (f_equal String.length) in Heq.
    rewrite !string_app_length in Heq. simpl in Heq. lia.
  - apply (f_equal String.length) in Heq.
    rewrite !string_app_length in Heq. simpl in Heq. lia.
  - injection Heq as -> Heq. f_equal. by apply IH.
Qed.

Lemma has_slash_app (s t : string) : has_slash (s +:+ t) = has_slash s || has_slash t.
Proof. induction s as [|a s IH]; simpl; [done|]. by rewrite IH, orb_assoc. Qed.

Lemma has_nul_app (s t : string) : has_nul (s +:+ t) = has_nul s || has_nul t.
Proof. induction s as [|a s IH]; simpl; [done|]. by rewrite IH, orb_assoc. Qed.

Lemma split_slash_flat (s : string) : has_slash s = false → split_slash s = [s].
Proof.
  induction s as [|a s IH]; simpl; [done|].
  intros Hs. apply orb_false_iff in Hs as [-> Hs]. by rewrite (IH Hs).
Qed.

Lemma path_root_flat (s : string) : has_slash s = false → path_root s = ""%string.
Proof.
  destruct s as [|a s]; simpl; [done|].
  intros Hs. apply orb_false_iff in Hs as [Ha _].
  unfold path_root. simpl. by rewrite Ha.
Qed.

Lemma path_root_nul (s : string) : has_nul (path_root s) = false.
Proof.
  unfold path_root. destruct (negb (leading_slash s)); [done|].
  by destruct (leading_slash (behead s) && negb (leading_slash (behead (behead s)))).
Qed.

Lemma split_slash_nul (s : string) :
  has_nul s = false → Forall (λ part, has_nul part = false) (split_slash s).
Proof.
  induction s as [|a s IH]; simpl; [by repeat constructor|].
  intros Hs. apply orb_false_iff in Hs as [Ha Hs]. specialize (IH Hs).
  destruct (Ascii.eqb a "/"); [by constructor|].
  destruct (split_slash s) as [|part rest]; [repeat constructor; simpl; by rewrite Ha|].
  apply Forall_cons in IH as [Hpart Hrest].
  constructor; [simpl; by rewrite Ha, Hpart | done].
Qed.

Lemma concat_nul (l : list string) :
  Forall (λ part, has_nul part = false) l → has_nul (String.concat "/" l) = false.
Proof.
  induction l as [|x l IH]; [done|].
  intros Hl. apply Forall_cons in Hl as [Hx Hl]. specialize (IH Hl).
  destruct l as [|y l]; [done|].
  change (String.concat "/" (x :: y :: l))
    with (x +:+ "/" +:+ String.concat "/" (y :: l)).
  by rewrite !has_nul_app, Hx, IH.
Qed.

Lemma path_str_nul (p : PurePath) :
  has_nul (root p) = false → Forall (λ part, has_nul part = false) (parts p) →
  has_nul (path_str p) = false.
Proof.
  intros Hroot Hparts. unfold path_str.
  destruct (parts p) as [|part rest]; [by destruct (String.eqb _ _)|].
  rewrite has_nul_app, Hroot. by apply concat_nul.
Qed.

Lemma path_parts_nul (s : string) :
  has_nul s = false → Forall (λ part, has_nul part = false) (path_parts s).
Proof.
  intros Hs. unfold path_parts. apply Forall_forall. intros part Hin.
  apply list_elem_of_filter in Hin as [_ Hin]. revert part Hin.
  apply Forall_forall. by apply split_slash_nul.
Qed.

(** A key without a NUL has a file name without one. *)
Lemma cache_file_nul (self : DataCache) (key : string) :
  has_nul (cache_dir self) = false → has_nul key = false →
  has_nul (cache_file self key) = false.
Proof.
  intros Hdir Hkey.
  assert (Hname : has_nul (key +:+ ".json") = false) by (by rewrite has_nul_app, Hkey).
  unfold cache_file, truediv.
  destruct (String.eqb (path_root (key +:+ ".json")) ""); apply path_str_nul; simpl.
  - apply path_root_nul.
  - apply Forall_app. split; by apply path_parts_nul.
  - apply path_root_nul.
  - by apply path_parts_nul.
Qed.

Lemma pretty_N_go_nul (x : N) (s : string) :
  has_nul s = false → has_nul (pretty_N_go x s) = false.
Proof.
  revert s. induction (N.lt_wf_0 x) as [x _ IH]; intros s Hs.
  destruct (decide (x = 0)%N) as [->|Hx]; [by rewrite pretty_N_go_0|].
  rewrite pretty_N_go_step by lia. apply IH; [apply N.div_lt; lia|].
  simpl. rewrite Hs. unfold pretty_N_char. by repeat case_match.
Qed.

Lemma str_of_int_nul (n : Z) : has_nul (str_of_int n) = false.
Proof.
  assert (HN : ∀ x : N, has_nul (pretty x) = false).
  { intros x. unfold pretty, pretty_N. destruct (decide _); [done|].
    by apply pretty_N_go_nul. }
  unfold str_of_int, pretty, pretty_Z. destruct n as [|p|p]; [done|apply HN|].
  rewrite has_nul_app. simpl. apply (HN (Npos p)).
Qed.

Lemma concat_snoc_inj (l : list string) (a b : string) :
  String.concat "/" (l ++ [a]) = String.concat "/" (l ++ [b]) → a = b.
Proof.
  induction l as [|x l IH]; simpl; [done|].
  destruct l as [|y l]; simpl in *.
  - intros Heq. by apply String.app_inj, String.app_inj in Heq.
  - intros Heq. apply String.app_inj, String.app_inj in Heq. by apply IH.
Qed.

(** The file of a key without a slash lies in the cache directory, under
    the name of the key. *)
Lemma cache_file_flat (self : DataCache) (key : string) :
  has_slash key = false →
  cache_file self key
  = path_root (cache_dir self)
    +:+ String.concat "/" (path_parts (cache_dir self) ++ [key +:+ ".json"]).
Proof.
  intros Hkey.
  assert (Hflat : has_slash (key +:+ ".json") = false)
    by (by rewrite has_slash_app, Hkey).
  assert (Hparts : path_parts (key +:+ ".json") = [key +:+ ".json"]).
  { unfold path_parts. rewrite (split_slash_flat _ Hflat), filter_cons, filter_nil.
    destruct (decide _) as [_|Hno]; [done|].
    exfalso. apply Hno. split; intros Heq; apply (f_equal String.length) in Heq;
      rewrite string_app_length in Heq; simpl in Heq; lia. }
  unfold cache_file, truediv, path_str.
  rewrite (path_root_flat _ Hflat), Hparts. simpl.
  by destruct (path_parts (cache_dir self)).
Qed.

(** Two keys without a slash have one file only when they are one key. *)
Lemma cache_file_inj (self : DataCache) (k k' : string) :
  has_slash k = false → has_slash k' = false →
  cache_file self k = cache_file self k' → k = k'.
Proof.
  intros Hk Hk'. rewrite !cache_file_flat by done. intros Heq.
  apply String.app_inj in Heq. apply concat_snoc_inj in Heq.
  by apply string_app_inj_r in Heq.
Qed.

(** * The cache *)

Section cache.
Context (lib : PyLib) (self : DataCache).

(** [DataCache.get], path by path. *)
Lemma DataCache_get_unfold (e : Env) (key : string) (w : World) :
  DataCache_get lib e self key w =
    if has_nul (cache_file self key) then (Returned PNone, w)
    else if exists_fails (faults e) then (Raised OSError, w)
    else match files w !! cache_file self key with
         | None => (Returned PNone, w)
         | Some file =>
             match try_fault lib e self file with
             | Some ex =>
                 if caught_on_read ex
                 then (Returned PNone, warned ("Cache read error for " +:+ key) ex w)
                 else (Raised ex, w)
             | None =>
                 if expired e self file
                 then (Returned PNone,
                       with_files (delete (cache_file self key) (files w)) w)
                 else (Returned (payload lib file), w)
             end
         end.
Proof.
  unfold DataCache_get, try_fault, expired, payload, bind, path_exists, try_except,
    path_mtime, path_unlink, read_text, logger_warning, ret, raise, lift, set_files,
    warned, with_files.
  destruct (has_nul (cache_file self key)); [done|].
  destruct (exists_fails (faults e)); [done|].
  destruct (files w !! cache_file self key) as [file|] eqn:Hfile.
  - rewrite bool_decide_eq_true_2 by (by eexists). simpl.
    destruct (stat_fails (faults e)); simpl; [done|].
    rewrite Hfile. simpl.
    case_bool_decide; simpl.
    + destruct (unlink_fails (faults e)); simpl; [done|]. by rewrite Hfile.
    + destruct (open_read_fails (faults e)), (read_fails (faults e)); simpl; try done.
      rewrite Hfile. simpl.
      destruct (json_loads lib (content file)) as [v|ex]; [by destruct w|].
      by destruct ex.
  - rewrite bool_decide_eq_false_2 by (intros [? ?]; done). done.
Qed.

Lemma DataCache_get_missing (e : Env) (key : string) (w : World) :
  files w !! cache_file self key = None →
  exists_fails (faults e) = false →
  DataCache_get lib e self key w = (Returned PNone, w).
Proof.
  intros Hnone Hexists. rewrite DataCache_get_unfold, Hnone, Hexists.
  by destruct (has_nul _).
Qed.

(** [DataCache.get] on an entry that it finds and reads. *)
Lemma DataCache_get_readable (e : Env) (key : string) (w : World) (file : File) :
  files w !! cache_file self key = Some file →
  has_nul (cache_file self key) = false →
  read_fault lib e self file = None →
  DataCache_get lib e self key w =
    if expired e self file
    then (Returned PNone, with_files (delete (cache_file self key) (files w)) w)
    else (Returned (payload lib file), w).
Proof.
  intros Hfile Hname Hfault. unfold read_fault in Hfault.
  rewrite DataCache_get_unfold, Hname, Hfile.
  destruct (exists_fails (faults e)); [done|]. by rewrite Hfault.
Qed.

(** No fault meets a [get] when the storage works and [json] reads the file. *)
Lemma read_fault_none (e : Env) (file : File) (v : pyval) :
  faults e = no_faults →
  json_loads lib (content file) = Returned v →
  read_fault lib e self file = None.
Proof.
  intros Hfaults Hjson. unfold read_fault, try_fault. rewrite Hfaults. simpl.
  rewrite Hjson. by destruct (expired e self file).
Qed.

(** [DataCache.set], path by path. *)
Lemma DataCache_set_unfold (e : Env) (key : string) (data : pyval) (w : World) :
  DataCache_set lib e self key data w =
    if has_nul (cache_file self key) then (Raised ValueError, w)
    else if open_write_fails (faults e)
    then (Returned tt, warned ("Cache write error for " +:+ key) OSError w)
    else match write_fails (faults e) with
         | Some n =>
             (Returned tt,
              warned ("Cache write error for " +:+ key) OSError
                (with_files
                   (<[cache_file self key :=
                        mkFile (time_time e) (String.substring 0 n (json_dumps lib data))]>
                      (files w)) w))
         | None =>
             (Returned tt,
              with_files
                (<[cache_file self key := mkFile (time_time e) (json_dumps lib data)]>
                   (files w)) w)
         end.
Proof.
  unfold DataCache_set, try_except, write_text, logger_warning, set_files,
    warned, with_files.
  destruct (has_nul (cache_file self key)); simpl; [done|].
  destruct (open_write_fails (faults e)); simpl; [done|].
  destruct (write_fails (faults e)); done.
Qed.

(** A [set] leaves the files of other names as they were. *)
Lemma DataCache_set_other (e : Env) (key : string) (data : pyval) (w : World) (p : string) :
  p ≠ cache_file self key →
  files (DataCache_set lib e self key data w).2 !! p = files w !! p.
Proof.
  intros Hp. rewrite DataCache_set_unfold.
  destruct (has_nul _); [done|].
  destruct (open_write_fails (faults e)); [done|].
  destruct (write_fails (faults e)); simpl; by rewrite lookup_insert_ne.
Qed.

Lemma after_sets_other (calls : list (Env * string * pyval)) (w : World) (p : string) :
  Forall (λ c : Env * string * pyval, cache_file self c.1.2 ≠ p) calls →
  files (after_sets lib self calls w) !! p = files w !! p.
Proof.
  revert w. induction calls as [|[[e k] v] calls IH]; intros w Hcalls; simpl; [done|].
  apply Forall_cons in Hcalls as [Hk Hcalls]. simpl in Hk.
  rewrite IH by done. by apply DataCache_set_other.
Qed.

(** C4, amended.  For a key whose file name holds no NUL, the storage
    working: [set(k, v)] then [get(k)] not later than [ttl_seconds] after
    the write returns the value [json] reads back from the text it wrote
    for [v]; a [get(k)] later than [ttl_seconds] after the write returns
    [None] and removes the file, so that any further [get(k)] returns
    [None]; a [get(k)] for a key without a slash that has no entry
    returns [None], and still does after any calls of [set] for other
    keys without a slash, the files of two such keys being two files. *)
Theorem C4_cache_set_get
    (key : string) (v : pyval) (w : World) (e_set e_get e_next : Env)
    (calls : list (Env * string * pyval)) :
  faults e_set = no_faults →
  faults e_get = no_faults →
  exists_fails (faults e_next) = false →
  has_nul (cache_file self key) = false →
  let w1 := (DataCache_set lib e_set self key v w).2 in
  let w2 := (DataCache_get lib e_get self key w1).2 in
  (∀ v', json_loads lib (json_dumps lib v) = Returned v' →
     time_time e_get - time_time e_set ≤ ttl_seconds self →
     (DataCache_get lib e_get self key w1).1 = Returned v') ∧
  (time_time e_get - time_time e_set > ttl_seconds self →
     (DataCache_get lib e_get self key w1).1 = Returned PNone ∧
     files w2 !! cache_file self key = None ∧
     (DataCache_get lib e_next self key w2).1 = Returned PNone) ∧
  (files w !! cache_file self key = None →
     has_slash key = false →
     Forall (λ c : Env * string * pyval, has_slash c.1.2 = false ∧ c.1.2 ≠ key) calls →
     (DataCache_get lib e_next self key (after_sets lib self calls w)).1
     = Returned PNone) ∧
  (∀ other, has_slash key = false → has_slash other = false → other ≠ key →
     cache_file self other ≠ cache_file self key).
Proof.
  intros Hset Hget Hnext Hname w1 w2.
  assert (Hw1 : files w1 !! cache_file self key
                = Some (mkFile (time_time e_set) (json_dumps lib v))).
  { unfold w1. rewrite DataCache_set_unfold, Hname, Hset. simpl. apply lookup_insert_eq. }
  assert (Hexists : exists_fails (faults e_get) = false) by (by rewrite Hget).
  pose proof (DataCache_get_unfold e_get key w1) as Hread.
  rewrite Hname, Hexists, Hw1 in Hread.
  unfold try_fault, expired, payload in Hread. rewrite Hget in Hread. simpl in Hread.
  split; [|split; [|split]].
  - intros v' Hjson Hfresh. rewrite Hread.
    rewrite bool_decide_eq_false_2 by lia. by rewrite Hjson.
  - intros Hold. unfold w2. rewrite Hread.
    rewrite bool_decide_eq_true_2 by lia. simpl.
    split; [done|]. split; [apply lookup_delete_eq|].
    rewrite DataCache_get_missing; [done| |done]. simpl. apply lookup_delete_eq.
  - intros Hnone Hkey Hcalls.
    rewrite DataCache_get_missing; [done| |done].
    rewrite after_sets_other; [done|].
    eapply Forall_impl; [exact Hcalls|]. intros [[e k] d] [Hk Hne] Heq. simpl in *.
    apply Hne. by apply (cache_file_inj self).
  - intros other Hkey Hother Hne Heq. apply Hne. by apply (cache_file_inj self).
Qed.

(** X21. The faults [DataCache] swallows, and the ones it lets out.  A
    [get] raises in two cases only, leaving the world as it was: the
    file system refuses to look the name up, and [exists()], which
    stands before the [try], raises [OSError]; or something other than
    [OSError] and [JSONDecodeError] is raised while the entry is read.
    Every [OSError] of [stat], [unlink], [open] and [read] and every
    [JSONDecodeError] reads as a missing entry, after a warning.  A [set]
    raises only for a name with a NUL, [ValueError], before it touches
    the file; a write that fails is logged, and leaves under the name
    of the key what was there, when [open] failed, or the start of the
    new text. *)
Theorem cache_raises_exactly (e : Env) (key : string) (data : pyval) (w : World) :
  (∀ ex w',
     DataCache_get lib e self key w = (Raised ex, w') ↔
     w' = w ∧ has_nul (cache_file self key) = false ∧
     ((exists_fails (faults e) = true ∧ ex = OSError) ∨
      (exists_fails (faults e) = false ∧
       ∃ file, files w !! cache_file self key = Some file ∧
               try_fault lib e self file = Some ex ∧ caught_on_read ex = false))) ∧
  (∀ file ex,
     has_nul (cache_file self key) = false →
     exists_fails (faults e) = false →
     files w !! cache_file self key = Some file →
     try_fault lib e self file = Some ex →
     caught_on_read ex = true →
     DataCache_get lib e self key w
     = (Returned PNone, warned ("Cache read error for " +:+ key) ex w)) ∧
  (∀ ex w',
     DataCache_set lib e self key data w = (Raised ex, w') ↔
     has_nul (cache_file self key) = true ∧ ex = ValueError ∧ w' = w) ∧
  (has_nul (cache_file self key) = false →
   write_fault e = true →
   ∃ w0,
     DataCache_set lib e self key data w
     = (Returned tt, warned ("Cache write error for " +:+ key) OSError w0) ∧
     rate_limiter w0 = rate_limiter w ∧
     (files w0 = files w ∨
      ∃ n, files w0
           = <[cache_file self key
                 := mkFile (time_time e) (String.substring 0 n (json_dumps lib data))]>
               (files w))).
Proof.
  split; [|split; [|split]].
  - intros ex w'. rewrite DataCache_get_unfold.
    destruct (has_nul (cache_file self key)).
    { split; [intros Heq; discriminate Heq | by intros (_ & Hno & _)]. }
    destruct (exists_fails (faults e)).
    { split.
      - intros [= <- <-]. split; [done|]. split; [done|]. by left.
      - intros (-> & _ & [[_ ->] | [Hno _]]); [done | discriminate Hno]. }
    destruct (files w !! cache_file self key) as [file|].
    + destruct (try_fault lib e self file) as [ex0|] eqn:Hfault.
      * destruct (caught_on_read ex0) eqn:Hcaught.
        -- split; [intros Heq; discriminate Heq|].
           intros (_ & _ & [[Hno _] | (_ & file' & Hfile' & Hfault' & Hout)]);
             [discriminate Hno | congruence].
        -- split.
           ++ intros [= <- <-]. split; [done|]. split; [done|]. right.
              split; [done|]. by exists file.
           ++ intros (-> & _ & [[Hno _] | (_ & file' & Hfile' & Hfault' & _)]);
                [discriminate Hno | congruence].
      * split; [destruct (expired e self file); intros Heq; discriminate Heq|].
        intros (_ & _ & [[Hno _] | (_ & file' & Hfile' & Hfault' & _)]);
          [discriminate Hno | congruence].
    + split; [intros Heq; discriminate Heq|].
      intros (_ & _ & [[Hno _] | (_ & file' & Hsome & _)]);
        [discriminate Hno | discriminate Hsome].
  - intros file ex Hname Hexists Hfile Hfault Hcaught.
    by rewrite DataCache_get_unfold, Hname, Hexists, Hfile, Hfault, Hcaught.
  - intros ex w'. rewrite DataCache_set_unfold.
    destruct (has_nul (cache_file self key)).
    { split; [by intros [= <- <-] | by intros (_ & -> & ->)]. }
    split; [|by intros (Hno & _)].
    destruct (open_write_fails (faults e)); [intros Heq; discriminate Heq|].
    destruct (write_fails (faults e)); intros Heq; discriminate Heq.
  - intros Hname Hfault. unfold write_fault in Hfault.
    rewrite DataCache_set_unfold, Hname.
    destruct (open_write_fails (faults e)).
    { exists w. split; [done|]. split; [done|]. by left. }
    destruct (write_fails (faults e)) as [n|]; [|discriminate Hfault].
    eexists. split; [reflexivity|]. split; [done|]. right. by exists n.
Qed.
End cache.


(** * The decorator in front of the handlers *)

Section decorator.
Context (lib : PyLib) (app : App) (e : Env) (request : Request).

(** The decorator, by the verdict of the limiter. *)
Lemma require_rate_limit_unfold (f : M Response) (w : World) :
  require_rate_limit app e request f w =
    if (is_allowed (rate_limiter w) (time_time e) (client_of request)).1
    then f (mkWorld (is_allowed (rate_limiter w) (time_time e) (client_of request)).2
              (files w) (log w) (statements w))
    else (Returned (throttling_response (config app)),
          mkWorld (is_allowed (rate_limiter w) (time_time e) (client_of request)).2
            (files w)
            (log w ++ [mkLog WARNING ("Rate limit exceeded for " +:+ client_of request)
                         None])
            (statements w)).
Proof.
  unfold require_rate_limit, bind, rate_limiter_is_allowed, client_of.
  destruct (is_allowed (rate_limiter w) (time_time e)
              (default (remote_addr request) (http_x_forwarded_for request)))
    as [[] limiter]; done.
Qed.

(** C5. On every rate-limited route, a request whose client the limiter
    refuses is answered with status 429 and a payload holding the error
    label and a message that names the configured number of requests and
    the window; whatever the view function, it is not run: the files of
    the cache and the statements sent to the database are as before, and
    only the limiter and the log changed. *)
Theorem C5_refused_request (f : M Response) (ep : Endpoint) (w : World) :
  (is_allowed (rate_limiter w) (time_time e) (client_of request)).1 = false →
  let w' :=
    mkWorld (is_allowed (rate_limiter w) (time_time e) (client_of request)).2
      (files w)
      (log w ++ [mkLog WARNING ("Rate limit exceeded for " +:+ client_of request) None])
      (statements w) in
  require_rate_limit app e request f w
    = (Returned (throttling_response (config app)), w') ∧
  route lib app e request ep w
    = (Returned (throttling_response (config app)), w') ∧
  status_code (throttling_response (config app)) = 429 ∧
  body (throttling_response (config app))
    = Json (PDict
        [(PStr "error", PStr "Rate limit exceeded");
         (PStr "message",
          PStr ("Maximum " +:+ str_of_int (RATE_LIMIT_REQUESTS (config app))
                +:+ " requests per " +:+ str_of_int (RATE_LIMIT_WINDOW (config app))
                +:+ " minutes"))]) ∧
  files w' = files w ∧
  statements w' = statements w.
Proof.
  intros Hrefused w'. unfold route.
  rewrite !require_rate_limit_unfold, Hrefused. done.
Qed.

(** A request that fails validation gets its 400 from the view function
    before the cache or the database is touched. *)
Lemma invalid_request_answer (ep : Endpoint) (w : World) :
  fails_validation lib request ep = true →
  (ep = TopPerformers → is_Some (requested_limit lib request)) →
  ∃ text,
    view_function lib app e request ep w = (Returned (error_response text 400), w).
Proof.
  intros Hbad Hlimit.
  destruct ep as [| |decade|market|symbol| | |]; simpl in Hbad; try done.
  - unfold view_function, get_decade_data. rewrite Hbad. by eexists.
  - unfold view_function, get_market_data, bad_decade in *.
    destruct (negb (validate_market market)); [by eexists|].
    simpl in Hbad. rewrite Hbad. by eexists.
  - unfold view_function, get_stock_data. rewrite Hbad. by eexists.
  - destruct (Hlimit eq_refl) as [n Hn].
    unfold view_function, get_top_performers, limit_argument, bind,
      requested_limit, bad_decade, bad_market in *.
    destruct (args_get (args request) "limit") as [s|].
    + rewrite Hn. unfold ret at 1.
      destruct (given (args_get (args request) "decade")
                && negb (validate_decade (default "" (args_get (args request) "decade"))));
        [by eexists|].
      simpl in Hbad. rewrite Hbad. by eexists.
    + unfold ret at 1.
      destruct (given (args_get (args request) "decade")
                && negb (validate_decade (default "" (args_get (args request) "decade"))));
        [by eexists|].
      simpl in Hbad. rewrite Hbad. by eexists.
  - unfold view_function, get_statistics, bad_decade, bad_market in *.
    destruct (given (args_get (args request) "decade")
              && negb (validate_decade (default "" (args_get (args request) "decade"))));
      [by eexists|].
    simpl in Hbad. rewrite Hbad. by eexists.
  - unfold view_function, export_data, bad_decade, bad_market in *.
    destruct (negb (bool_decide
                (str_lower lib (default "csv" (args_get (args request) "format"))
                 ∈ ["csv"; "json"]%string))); [by eexists|].
    destruct (given (args_get (args request) "decade")
              && negb (validate_decade (default "" (args_get (args request) "decade"))));
      [by eexists|].
    simpl in Hbad. rewrite Hbad. by eexists.
Qed.

(** C2, amended.  A request to a rate-limited route whose decade, market,
    symbol or format parameter fails the validation of its handler (on
    the top-performers route: whose [limit] also parses as an integer)
    first goes through the limiter.  When the limiter admits it, the
    request is counted, [now] being appended to the records of its
    client, and it is answered with status 400; when the limiter refuses
    it, it is answered with status 429.  In both cases no cache file is
    read, written or removed and no statement reaches the database. *)
Theorem C2_invalid_request_counted (ep : Endpoint) (w : World) :
  fails_validation lib request ep = true →
  (ep = TopPerformers → is_Some (requested_limit lib request)) →
  let call := is_allowed (rate_limiter w) (time_time e) (client_of request) in
  let result := route lib app e request ep w in
  (call.1 = true →
     (∃ text, result.1 = Returned (error_response text 400)) ∧
     result.2 = mkWorld call.2 (files w) (log w) (statements w) ∧
     history (rate_limiter result.2) (client_of request)
       = newer_than (time_time e - window_seconds (rate_limiter w))
           (history (rate_limiter w) (client_of request)) ++ [time_time e]) ∧
  (call.1 = false → result.1 = Returned (throttling_response (config app))) ∧
  (∃ r, result.1 = Returned r ∧ 400 ≤ status_code r < 500) ∧
  files result.2 = files w ∧
  statements result.2 = statements w.
Proof.
  intros Hbad Hlimit call result.
  unfold result, route. rewrite require_rate_limit_unfold. fold call.
  destruct (invalid_request_answer ep
              (mkWorld call.2 (files w) (log w) (statements w)) Hbad Hlimit)
    as [text Hview].
  pose proof (is_allowed_history (rate_limiter w) (time_time e) (client_of request))
    as Hhist.
  fold call in Hhist.
  destruct (call.1) eqn:Hverdict; rewrite ?Hview; simpl.
  - split; [|split; [done|]]; [|split; [|done]].
    + intros _. split; [by eexists|]. split; [done|]. exact Hhist.
    + eexists. split; [done|]. simpl. lia.
  - split; [done|]. split; [done|]. split; [|done].
    eexists. split; [done|]. simpl. lia.
Qed.
End decorator.

(** C2, as stated, fails: on a new process, a request for the decade
    1890s is answered 400 and yet recorded for its client. *)
Lemma C2_counterexample :
  fails_validation plain_lib (plain_request []) (DecadeData "1890s") = true ∧
  ¬ uncounted_and_uncached plain_lib default_app (quiet 1000) (plain_request [])
      (DecadeData "1890s") new_world.
Proof.
  split; [vm_compute; reflexivity|].
  intros (_ & Hrecords & _). vm_compute in Hrecords. discriminate Hrecords.
Qed.

Lemma C2_invalid_request_counted_witness :
  history
    (rate_limiter
       (route plain_lib default_app (quiet 1000) (plain_request [])
          (DecadeData "1890s") new_world).2)
    (client_of (plain_request []))
  = [1000] ∧
  files (route plain_lib default_app (quiet 1000) (plain_request [])
           (DecadeData "1890s") new_world).2 = files new_world.
Proof.
  destruct (C2_invalid_request_counted plain_lib default_app (quiet 1000)
              (plain_request []) (DecadeData "1890s") new_world)
    as (Hadmitted & _ & _ & Hfiles & _).
  - vm_compute. reflexivity.
  - intros Heq. discriminate Heq.
  - split; [|exact Hfiles].
    destruct Hadmitted as (_ & _ & Hhist); [vm_compute; reflexivity|].
    exact Hhist.
Defined.

(** One request per 15 minutes: the client that called at 5 is refused at 10. *)
Lemma C5_refused_request_witness :
  route plain_lib
    {| config := {| RATE_LIMIT_REQUESTS := 1; RATE_LIMIT_WINDOW := 15; CACHE_TTL := 60 |} |}
    (quiet 10) (plain_request []) Decades
    (mkWorld (mkRateLimiter 1 900 {[ "10.0.0.1"%string := [5] ]}) ∅ [] [])
  = (Returned
       (add_headers
          (mkResponse 429 "application/json"
             (Json (PDict
                [(PStr "error", PStr "Rate limit exceeded");
                 (PStr "message", PStr "Maximum 1 requests per 15 minutes")]))
             [])),
     mkWorld (mkRateLimiter 1 900 {[ "10.0.0.1"%string := [5] ]}) ∅
       [mkLog WARNING "Rate limit exceeded for 10.0.0.1" None] []).
Proof.
  destruct (C5_refused_request plain_lib
              {| config := {| RATE_LIMIT_REQUESTS := 1; RATE_LIMIT_WINDOW := 15;
                              CACHE_TTL := 60 |} |}
              (quiet 10) (plain_request []) (lift (jsonify PNone)) Decades
              (mkWorld (mkRateLimiter 1 900 {[ "10.0.0.1"%string := [5] ]}) ∅ [] []))
    as (_ & Hroute & _).
  - vm_compute. reflexivity.
  - rewrite Hroute. vm_compute. reflexivity.
Defined.


(** * Computations that do not look at the cache files *)

Section blind.
Context (lib : PyLib) (e : Env).

Lemma blind_ret {A} (a : A) : blind_to_files (ret a).
Proof. intros w1 w2 Hw. done. Qed.

Lemma blind_raise {A} (ex : exn) : blind_to_files (@raise A ex).
Proof. intros w1 w2 Hw. done. Qed.

Lemma blind_lift {A} (o : outcome A) : blind_to_files (lift o).
Proof. intros w1 w2 Hw. done. Qed.

Lemma blind_bind {A B} (m : M A) (k : A → M B) :
  blind_to_files m → (∀ a, blind_to_files (k a)) → blind_to_files (bind m k).
Proof.
  intros Hm Hk w1 w2 Hw. unfold bind.
  destruct (Hm w1 w2 Hw) as [Hout Hw'].
  destruct (m w1) as [[a1|ex1] w1'], (m w2) as [[a2|ex2] w2']; simpl in *;
    try discriminate.
  - injection Hout as ->. by apply Hk.
  - injection Hout as ->. by split.
Qed.

Lemma blind_try_except {A} (body : M A) (classes : exn → bool) (handler : exn → M A) :
  blind_to_files body → (∀ ex, blind_to_files (handler ex)) →
  blind_to_files (try_except body classes handler).
Proof.
  intros Hbody Hhandler w1 w2 Hw. unfold try_except.
  destruct (Hbody w1 w2 Hw) as [Hout Hw'].
  destruct (body w1) as [[a1|ex1] w1'], (body w2) as [[a2|ex2] w2']; simpl in *;
    try discriminate.
  - split; assumption.
  - injection Hout as ->. destruct (classes ex2); [by apply Hhandler | by split].
Qed.

Lemma blind_logger_error (msg : string) (ex : option exn) :
  blind_to_files (logger_error msg ex).
Proof.
  intros w1 w2 (Hl & Hlog & Hs). unfold logger_error, same_but_files. simpl.
  by rewrite Hl, Hlog, Hs.
Qed.

Lemma blind_get_db_connection : blind_to_files (get_db_connection e).
Proof.
  unfold get_db_connection. destruct (connect_fails e).
  - apply blind_bind; [apply blind_logger_error | intros; apply blind_raise].
  - apply blind_ret.
Qed.

Lemma blind_conn_execute (sql : string) (params : list pyval) :
  blind_to_files (conn_execute e sql params).
Proof.
  intros w1 w2 (Hl & Hlog & Hs). unfold conn_execute, same_but_files. simpl.
  by rewrite Hl, Hlog, Hs.
Qed.

Lemma blind_DataCache_set (self : DataCache) (key : string) (data : pyval) :
  blind_to_files (DataCache_set lib e self key data).
Proof.
  intros w1 w2 (Hl & Hlog & Hs). rewrite !DataCache_set_unfold.
  unfold same_but_files, warned, with_files.
  destruct (has_nul _); simpl; [done|].
  destruct (open_write_fails (faults e)); simpl; [by rewrite Hl, Hlog, Hs|].
  destruct (write_fails (faults e)); simpl; by rewrite Hl, Hlog, Hs.
Qed.

Lemma blind_error_answer (text : string) (code : Z) :
  blind_to_files (error_answer text code).
Proof. intros w1 w2 Hw. done. Qed.

Lemma blind_mapM {A B} (f : A → M B) (l : list A) :
  (∀ a, blind_to_files (f a)) → blind_to_files (mapM f l).
Proof.
  intros Hf. induction l as [|x l IH]; simpl; [apply blind_ret|].
  apply blind_bind; [apply Hf|]. intros y.
  apply blind_bind; [apply IH|]. intros ys. apply blind_ret.
Qed.

Lemma blind_foldM {A B} (f : B → A → M B) (l : list A) :
  (∀ b a, blind_to_files (f b a)) → ∀ acc, blind_to_files (foldM f acc l).
Proof.
  intros Hf. induction l as [|x l IH]; intros acc; simpl; [apply blind_ret|].
  apply blind_bind; [apply Hf | apply IH].
Qed.

Lemma blind_row_item (row : Row) (name : string) : blind_to_files (row_item row name).
Proof.
  induction row as [|[k v] row IH]; simpl; [apply blind_raise|].
  destruct (String.eqb k name); [apply blind_ret | apply IH].
Qed.

Lemma blind_dict_item (d key : pyval) : blind_to_files (dict_item d key).
Proof.
  destruct d; simpl; try apply blind_raise.
  destruct (dict_get items key); [apply blind_ret | apply blind_raise].
Qed.

Lemma blind_group_by_market (markets : list (pyval * pyval)) (stock : pyval) :
  blind_to_files (group_by_market markets stock).
Proof.
  unfold group_by_market.
  apply blind_bind; [apply blind_dict_item|]. intros market.
  apply blind_bind; [apply blind_dict_item|]. intros group. apply blind_ret.
Qed.

Lemma blind_py_round2 (v : pyval) : blind_to_files (py_round2 lib v).
Proof. destruct v; simpl; first [apply blind_ret | apply blind_raise]. Qed.

Lemma blind_round_stat (stats : list (pyval * pyval)) (key : string) :
  blind_to_files (round_stat lib stats key).
Proof.
  unfold round_stat. apply blind_bind; [apply blind_dict_item|]. intros v.
  destruct v; try apply blind_ret;
    (apply blind_bind; [apply blind_py_round2 | intros; apply blind_ret]).
Qed.

Lemma blind_fetchone_dict (rows : list Row) : blind_to_files (fetchone_dict rows).
Proof. destruct rows; simpl; [apply blind_raise | apply blind_ret]. Qed.
End blind.

(** Splits a computation built from the parts above. *)
Ltac blind_step :=
  lazymatch goal with
  | |- blind_to_files (ret _) => apply blind_ret
  | |- blind_to_files (raise _) => apply blind_raise
  | |- blind_to_files (lift _) => apply blind_lift
  | |- blind_to_files (error_answer _ _) => apply blind_error_answer
  | |- blind_to_files (bind _ _) => apply blind_bind; [|intros ?]
  | |- blind_to_files (try_except _ _ _) => apply blind_try_except; [|intros ?]
  | |- blind_to_files (logger_error _ _) => apply blind_logger_error
  | |- blind_to_files (get_db_connection _) => apply blind_get_db_connection
  | |- blind_to_files (conn_execute _ _ _) => apply blind_conn_execute
  | |- blind_to_files (DataCache_set _ _ _ _ _) => apply blind_DataCache_set
  | |- blind_to_files (mapM _ _) => apply blind_mapM; intros ?
  | |- blind_to_files (foldM group_by_market _ _) =>
      apply blind_foldM; intros ? ?; apply blind_group_by_market
  | |- blind_to_files (foldM (round_stat _) _ _) =>
      apply blind_foldM; intros ? ?; apply blind_round_stat
  | |- blind_to_files (row_item _ _) => apply blind_row_item
  | |- blind_to_files (fetchone_dict _) => apply blind_fetchone_dict
  | |- blind_to_files (if ?b then _ else _) => destruct b
  | |- blind_to_files (let _ := _ in _) => cbv zeta
  end.

Ltac blind := repeat blind_step.

(** * Computations that send nothing to the database *)

Section silent.
Context (lib : PyLib) (e : Env).

Lemma silent_ret {A} (a : A) : sends_nothing (ret a).
Proof. intros w. done. Qed.

Lemma silent_raise {A} (ex : exn) : sends_nothing (@raise A ex).
Proof. intros w. done. Qed.

Lemma silent_lift {A} (o : outcome A) : sends_nothing (lift o).
Proof. intros w. done. Qed.

Lemma silent_error_answer (text : string) (code : Z) :
  sends_nothing (error_answer text code).
Proof. intros w. done. Qed.

Lemma silent_bind {A B} (m : M A) (k : A → M B) :
  sends_nothing m → (∀ a, sends_nothing (k a)) → sends_nothing (bind m k).
Proof.
  intros Hm Hk w. unfold bind. specialize (Hm w).
  destruct (m w) as [[a|ex] w']; simpl in *; [|done].
  by rewrite Hk.
Qed.

Lemma silent_try_except {A} (body : M A) (classes : exn → bool) (handler : exn → M A) :
  sends_nothing body → (∀ ex, sends_nothing (handler ex)) →
  sends_nothing (try_except body classes handler).
Proof.
  intros Hbody Hhandler w. unfold try_except. specialize (Hbody w).
  destruct (body w) as [[a|ex] w']; simpl in *; [done|].
  destruct (classes ex); [by rewrite Hhandler | done].
Qed.

Lemma silent_logger_error (msg : string) (ex : option exn) :
  sends_nothing (logger_error msg ex).
Proof. intros w. done. Qed.

Lemma silent_DataCache_set (self : DataCache) (key : string) (data : pyval) :
  sends_nothing (DataCache_set lib e self key data).
Proof.
  intros w. rewrite DataCache_set_unfold.
  destruct (has_nul _); [done|].
  destruct (open_write_fails (faults e)); [done|].
  destruct (write_fails (faults e)); done.
Qed.

Lemma silent_mapM {A B} (f : A → M B) (l : list A) :
  (∀ a, sends_nothing (f a)) → sends_nothing (mapM f l).
Proof.
  intros Hf. induction l as [|x l IH]; simpl; [apply silent_ret|].
  apply silent_bind; [apply Hf|]. intros y.
  apply silent_bind; [apply IH|]. intros ys. apply silent_ret.
Qed.

Lemma silent_foldM {A B} (f : B → A → M B) (l : list A) :
  (∀ b a, sends_nothing (f b a)) → ∀ acc, sends_nothing (foldM f acc l).
Proof.
  intros Hf. induction l as [|x l IH]; intros acc; simpl; [apply silent_ret|].
  apply silent_bind; [apply Hf | apply IH].
Qed.

Lemma silent_row_item (row : Row) (name : string) : sends_nothing (row_item row name).
Proof.
  induction row as [|[k v] row IH]; simpl; [apply silent_raise|].
  destruct (String.eqb k name); [apply silent_ret | apply IH].
Qed.

Lemma silent_dict_item (d key : pyval) : sends_nothing (dict_item d key).
Proof.
  destruct d; simpl; try apply silent_raise.
  destruct (dict_get items key); [apply silent_ret | apply silent_raise].
Qed.

Lemma silent_group_by_market (markets : list (pyval * pyval)) (stock : pyval) :
  sends_nothing (group_by_market markets stock).
Proof.
  unfold group_by_market.
  apply silent_bind; [apply silent_dict_item|]. intros market.
  apply silent_bind; [apply silent_dict_item|]. intros group. apply silent_ret.
Qed.

Lemma silent_py_round2 (v : pyval) : sends_nothing (py_round2 lib v).
Proof. destruct v; simpl; first [apply silent_ret | apply silent_raise]. Qed.

Lemma silent_round_stat (stats : list (pyval * pyval)) (key : string) :
  sends_nothing (round_stat lib stats key).
Proof.
  unfold round_stat. apply silent_bind; [apply silent_dict_item|]. intros v.
  destruct v; try apply silent_ret;
    (apply silent_bind; [apply silent_py_round2 | intros; apply silent_ret]).
Qed.

Lemma silent_fetchone_dict (rows : list Row) : sends_nothing (fetchone_dict rows).
Proof. destruct rows; simpl; [apply silent_raise | apply silent_ret]. Qed.

(** The part of a handler that runs on a cache miss: it connects, sends
    one statement, and what follows sends none. *)
Lemma recompute_sends_statement
    (sql : string) (params : list pyval)
    (rest : list Row → M Response) (handler : exn → M Response) (w : World) :
  (∀ rows, sends_nothing (rest rows)) →
  (∀ ex, sends_nothing (handler ex)) →
  connect_fails e = false →
  statements
    (try_except
       (bind (get_db_connection e) (λ _, bind (conn_execute e sql params) rest))
       Exception handler w).2
  = statements w ++ [(sql, params)].
Proof.
  intros Hrest Hhandler Hconnect.
  unfold try_except, bind, get_db_connection. rewrite Hconnect.
  unfold ret at 1. unfold conn_execute.
  destruct (execute e sql params) as [rows|ex]; simpl.
  - specialize (Hrest rows
      (mkWorld (rate_limiter w) (files w) (log w) (statements w ++ [(sql, params)]))).
    destruct (rest rows _) as [[r|ex] w']; simpl in *; [done|].
    by rewrite Hhandler.
  - by rewrite Hhandler.
Qed.
End silent.

Ltac silent_step :=
  lazymatch goal with
  | |- sends_nothing (ret _) => apply silent_ret
  | |- sends_nothing (raise _) => apply silent_raise
  | |- sends_nothing (lift _) => apply silent_lift
  | |- sends_nothing (error_answer _ _) => apply silent_error_answer
  | |- sends_nothing (bind _ _) => apply silent_bind; [|intros ?]
  | |- sends_nothing (try_except _ _ _) => apply silent_try_except; [|intros ?]
  | |- sends_nothing (logger_error _ _) => apply silent_logger_error
  | |- sends_nothing (DataCache_set _ _ _ _ _) => apply silent_DataCache_set
  | |- sends_nothing (mapM _ _) => apply silent_mapM; intros ?
  | |- sends_nothing (foldM group_by_market _ _) =>
      apply silent_foldM; intros ? ?; apply silent_group_by_market
  | |- sends_nothing (foldM (round_stat _) _ _) =>
      apply silent_foldM; intros ? ?; apply silent_round_stat
  | |- sends_nothing (row_item _ _) => apply silent_row_item
  | |- sends_nothing (fetchone_dict _) => apply silent_fetchone_dict
  | |- sends_nothing (if ?b then _ else _) => destruct b
  | |- sends_nothing (let _ := _ in _) => cbv zeta
  end.

Ltac silent := repeat silent_step.

(** * Cached routes *)

Section cached_routes.
Context (lib : PyLib) (app : App) (e : Env) (request : Request).

Lemma limit_argument_parsed (n : Z) (w : World) :
  requested_limit lib request = Some n →
  limit_argument lib request w = (Returned n, w).
Proof.
  unfold requested_limit, limit_argument.
  destruct (args_get (args request) "limit") as [s|].
  - by intros ->.
  - by intros [= ->].
Qed.

Lemma limit_cases (ep : Endpoint) :
  (ep = TopPerformers ∧ requested_limit lib request = None) ∨
  (ep = TopPerformers → is_Some (requested_limit lib request)).
Proof.
  destruct (requested_limit lib request) eqn:Hlimit; [right; by eexists|].
  destruct ep; first [by left | right; intros Heq; discriminate Heq].
Qed.

Lemma top_performers_unparsed (w : World) :
  requested_limit lib request = None →
  view_function lib app e request TopPerformers w = (Raised ValueError, w).
Proof.
  intros Hnone. unfold view_function, get_top_performers, bind, limit_argument.
  unfold requested_limit in Hnone.
  destruct (args_get (args request) "limit") as [s|]; [|discriminate Hnone].
  by rewrite Hnone.
Qed.

Lemma bind_returned {A B} (m : M A) (k : A → M B) (w : World) (a : A) (w' : World) :
  m w = (Returned a, w') → bind m k w = k a w'.
Proof. intros Hm. unfold bind. by rewrite Hm. Qed.

Lemma read_fault_exists (self : DataCache) (file : File) :
  read_fault lib e self file = None → exists_fails (faults e) = false.
Proof. unfold read_fault. by destruct (exists_fails (faults e)). Qed.

(** A view function that starts with the cache lookup and, on a miss,
    connects and sends one statement: what it makes of an entry that is
    present, readable and not expired. *)
Lemma cached_entry_use (V : M Response) (key sql : string) (params : list pyval)
    (rest : list Row → M Response) (handler : exn → M Response)
    (w : World) (file : File) (v : pyval) :
  (∀ w', V w' = bind (DataCache_get lib e (cache app) key)
                  (λ cached_data,
                     if truthy cached_data then lift (jsonify cached_data)
                     else try_except
                            (bind (get_db_connection e)
                               (λ _, bind (conn_execute e sql params) rest))
                            Exception handler) w') →
  (∀ rows, blind_to_files (rest rows)) →
  (∀ ex, blind_to_files (handler ex)) →
  (∀ rows, sends_nothing (rest rows)) →
  (∀ ex, sends_nothing (handler ex)) →
  files w !! cache_file (cache app) key = Some file →
  has_nul (cache_file (cache app) key) = false →
  read_fault lib e (cache app) file = None →
  expired e (cache app) file = false →
  json_loads lib (content file) = Returned v →
  (truthy v = false →
     (V w).1 = (V (with_files (delete (cache_file (cache app) key) (files w)) w)).1 ∧
     (connect_fails e = false → statements (V w).2 = statements w ++ [(sql, params)])) ∧
  (truthy v = true → V w = (jsonify v, w)).
Proof.
  intros HV Hb1 Hb2 Hs1 Hs2 Hfile Hname Hfault Hexp Hjson. rewrite !HV.
  rewrite (bind_returned _ _ w v w)
    by (rewrite (DataCache_get_readable lib (cache app) e key w file Hfile Hname Hfault),
          Hexp; unfold payload; by rewrite Hjson).
  rewrite (bind_returned _ _ (with_files _ w) PNone (with_files _ w))
    by (apply DataCache_get_missing;
          [simpl; apply lookup_delete_eq | exact (read_fault_exists (cache app) file Hfault)]).
  simpl. split; intros Hv; rewrite Hv; [|done].
  split.
  - assert (Hblind : blind_to_files
              (try_except
                 (bind (get_db_connection e) (λ _, bind (conn_execute e sql params) rest))
                 Exception handler)).
    { apply blind_try_except; [|exact Hb2].
      apply blind_bind; [apply blind_get_db_connection|]. intros _.
      apply blind_bind; [apply blind_conn_execute | exact Hb1]. }
    apply Hblind. by destruct w.
  - intros Hconnect. by apply recompute_sends_statement.
Qed.

(** Closes the side conditions of [cached_entry_use] for a handler whose
    checks were rewritten away. *)
Ltac cached_route Hfile Hname Hfault Hexp Hjson :=
  eapply cached_entry_use;
    [ intros ?; cbv zeta; reflexivity
    | intros ?; cbv beta; blind
    | intros ?; cbv beta; blind
    | intros ?; cbv beta; silent
    | intros ?; cbv beta; silent
    | exact Hfile | exact Hname | exact Hfault | exact Hexp | exact Hjson ].

(** C9. On every cached route, for a request that passed validation and
    whose cache entry is present (under a key without NUL, as every file
    name is), readable and within its time to live:
    when the payload read from the entry is falsy (an empty dict, say)
    the entry is not served: the response is the one the same request
    gets without the entry, and the handler goes on to the database as
    on a miss (with the connection up, one more statement is sent); the
    entry is served, and the handler stops there, only when its payload
    is truthy: the outcome is then what [jsonify] makes of the payload. *)
Theorem C9_falsy_entry_not_served
    (ep : Endpoint) (key : string) (w : World) (file : File) (v : pyval) :
  fails_validation lib request ep = false →
  cache_key_of lib request ep = Some key →
  files w !! cache_file (cache app) key = Some file →
  has_nul key = false →
  read_fault lib e (cache app) file = None →
  expired e (cache app) file = false →
  json_loads lib (content file) = Returned v →
  (truthy v = false →
     (view_function lib app e request ep w).1
     = (view_function lib app e request ep
          (with_files (delete (cache_file (cache app) key) (files w)) w)).1 ∧
     (connect_fails e = false →
        ∃ statement,
          statements (view_function lib app e request ep w).2
          = statements w ++ [statement])) ∧
  (truthy v = true →
     view_function lib app e request ep w = (jsonify v, w) ∧
     statements (view_function lib app e request ep w).2 = statements w).
Proof.
  intros Hvalid Hkey Hfile Hnul Hfault Hexp Hjson.
  assert (Hname : has_nul (cache_file (cache app) key) = false)
    by (by apply cache_file_nul).
  cut ((truthy v = false →
          (view_function lib app e request ep w).1
          = (view_function lib app e request ep
               (with_files (delete (cache_file (cache app) key) (files w)) w)).1 ∧
          (connect_fails e = false →
             ∃ statement,
               statements (view_function lib app e request ep w).2
               = statements w ++ [statement])) ∧
       (truthy v = true →
          view_function lib app e request ep w = (jsonify v, w))).
  { intros [Hfalsy Htruthy]. split; [exact Hfalsy|].
    intros Hv. split; [by apply Htruthy|]. by rewrite Htruthy. }
  cut (∃ sql params,
         (truthy v = false →
            (view_function lib app e request ep w).1
            = (view_function lib app e request ep
                 (with_files (delete (cache_file (cache app) key) (files w)) w)).1 ∧
            (connect_fails e = false →
               statements (view_function lib app e request ep w).2
               = statements w ++ [(sql, params)])) ∧
         (truthy v = true →
            view_function lib app e request ep w = (jsonify v, w))).
  { intros (sql & params & Hfalsy & Htruthy). split; [|exact Htruthy].
    intros Hv. destruct (Hfalsy Hv) as [Hsame Hsent]. split; [exact Hsame|].
    intros Hconnect. eexists. by apply Hsent. }
  destruct ep as [| |decade|market|symbol| | |]; simpl in Hvalid, Hkey;
    try discriminate Hkey.
  - injection Hkey as <-. do 2 eexists.
    unfold view_function, get_decades.
    cached_route Hfile Hname Hfault Hexp Hjson.
  - injection Hkey as <-. do 2 eexists.
    unfold view_function, get_markets.
    cached_route Hfile Hname Hfault Hexp Hjson.
  - injection Hkey as <-. do 2 eexists.
    unfold view_function, get_decade_data. rewrite Hvalid.
    cached_route Hfile Hname Hfault Hexp Hjson.
  - injection Hkey as <-. apply orb_false_iff in Hvalid as [Hmarket Hdecade].
    unfold bad_decade in Hdecade. do 2 eexists.
    unfold view_function, get_market_data. rewrite Hmarket, Hdecade.
    cached_route Hfile Hname Hfault Hexp Hjson.
  - injection Hkey as <-. do 2 eexists.
    unfold view_function, get_stock_data. rewrite Hvalid.
    cached_route Hfile Hname Hfault Hexp Hjson.
  - destruct (requested_limit lib request) as [n|] eqn:Hlimit; [|discriminate Hkey].
    injection Hkey as <-. apply orb_false_iff in Hvalid as [Hdecade Hmarket].
    unfold bad_decade in Hdecade. unfold bad_market in Hmarket. do 2 eexists.
    eapply cached_entry_use;
      [ intros w'; unfold view_function, get_top_performers; unfold bind at 1;
        rewrite (limit_argument_parsed n w' Hlimit), Hdecade, Hmarket;
        cbv zeta; reflexivity
      | intros ?; cbv beta; blind | intros ?; cbv beta; blind
      | intros ?; cbv beta; silent | intros ?; cbv beta; silent
      | exact Hfile | exact Hname | exact Hfault | exact Hexp | exact Hjson ].
  - injection Hkey as <-. apply orb_false_iff in Hvalid as [Hdecade Hmarket].
    unfold bad_decade in Hdecade. unfold bad_market in Hmarket. do 2 eexists.
    unfold view_function, get_statistics. rewrite Hdecade, Hmarket.
    cached_route Hfile Hname Hfault Hexp Hjson.
Qed.
End cached_routes.

(** * The top-performers route *)

Lemma normalized_decade (request : Request) :
  bad_decade request = false →
  or_else (args_get (args request) "decade") "all" ∈ "all"%string :: valid_decades.
Proof.
  unfold bad_decade, given, or_else.
  destruct (args_get (args request) "decade") as [d|]; simpl;
    [|intros _; apply list_elem_of_here].
  destruct (String.eqb d ""); simpl; [intros _; apply list_elem_of_here|].
  intros Hvalid. apply negb_false_iff, bool_decide_eq_true in Hvalid.
  by apply list_elem_of_further.
Qed.

Lemma normalized_market (request : Request) :
  bad_market request = false →
  or_else (args_get (args request) "market") "all" ∈ "all"%string :: valid_markets.
Proof.
  unfold bad_market, given, or_else.
  destruct (args_get (args request) "market") as [m|]; simpl;
    [|intros _; apply list_elem_of_here].
  destruct (String.eqb m ""); simpl; [intros _; apply list_elem_of_here|].
  intros Hvalid. apply negb_false_iff, bool_decide_eq_true in Hvalid.
  by apply list_elem_of_further.
Qed.

Lemma accepted_label_nul (label : string) :
  label ∈ "all"%string :: valid_decades ∨ label ∈ "all"%string :: valid_markets →
  has_nul label = false.
Proof.
  unfold valid_decades, valid_markets. intros [Hin | Hin];
    repeat (apply elem_of_cons in Hin as [->|Hin]; [done|]);
    by apply elem_of_nil in Hin.
Qed.

Section top_performers.
Context (lib : PyLib) (app : App) (e : Env) (request : Request).

(** The file of the entry of a validated request has a name the file
    system takes. *)
Lemma top_performers_file_nul (limit : Z) :
  bad_decade request = false →
  bad_market request = false →
  has_nul (cache_file (cache app)
             (top_performers_cache_key (args_get (args request) "decade")
                (args_get (args request) "market") limit)) = false.
Proof.
  intros Hdecade Hmarket. apply cache_file_nul; [done|].
  unfold top_performers_cache_key.
  rewrite !has_nul_app, str_of_int_nul.
  rewrite (accepted_label_nul _ (or_introl (normalized_decade _ Hdecade))).
  by rewrite (accepted_label_nul _ (or_intror (normalized_market _ Hmarket))).
Qed.

(** C10. For a request to the top-performers route whose [limit] parses
    as the integer [L] (10 when absent), the limit is [min(L, 50)] in the
    parameters of the SQL statement, in the cache key and in
    [filters.limit] of the response: on a cache miss with the database
    answering, the statement sent ends with [min(L, 50)], the entry is
    written under the key ending in [min(L, 50)], and the payload, which
    the response carries once [jsonify] took it, echoes it.  The limit
    is 50 for every [L] above 50 and [L] itself otherwise: nothing bounds
    it from below, so zero and negative values pass unchanged. *)
Theorem C10_top_performers_limit (w : World) (L : Z) (rows : list Row) :
  let decade := args_get (args request) "decade" in
  let market := args_get (args request) "market" in
  let limit := Z.min L 50 in
  let key := top_performers_cache_key decade market limit in
  let query0 := "SELECT * FROM stock_data WHERE 1=1"%string in
  let query1 := if given decade then (query0 +:+ " AND decade = ?")%string else query0 in
  let query2 := if given market then (query1 +:+ " AND market = ?")%string else query1 in
  let query := (query2 +:+ " ORDER BY total_return DESC LIMIT ?")%string in
  let params1 := if given decade then [of_optional decade] else [] in
  let params2 := if given market then params1 ++ [of_optional market] else params1 in
  let params := params2 ++ [PInt limit] in
  let data := PDict
    [(PStr "top_performers", PList (map dict_of_row rows));
     (PStr "filters", PDict
        [(PStr "decade", of_optional decade);
         (PStr "market", of_optional market);
         (PStr "limit", PInt limit)]);
     (PStr "count", PInt (Z.of_nat (length (map dict_of_row rows))));
     (PStr "timestamp", PStr (isoformat_now e))] in
  let stored :=
    mkWorld (rate_limiter w)
      (<[cache_file (cache app) key := mkFile (time_time e) (json_dumps lib data)]>
         (files w))
      (log w)
      (statements w ++ [(query, params)]) in
  requested_limit lib request = Some L →
  bad_decade request = false →
  bad_market request = false →
  files w !! cache_file (cache app) key = None →
  faults e = no_faults →
  connect_fails e = false →
  execute e query params = Returned rows →
  get_top_performers lib app e request w
    = (if serializable data then (Returned (json_response data), stored)
       else (Returned (error_response "Failed to fetch top performers" 500),
             mkWorld (rate_limiter w) (files stored)
               (log w ++ [mkLog ERROR "Error fetching top performers" (Some TypeError)])
               (statements stored))) ∧
  last params = Some (PInt limit) ∧
  key = ("top_performers_" +:+ or_else decade "all" +:+ "_" +:+ or_else market "all"
         +:+ "_" +:+ str_of_int limit)%string ∧
  (L ≤ 50 → limit = L) ∧
  (50 < L → limit = 50).
Proof.
  intros decade market limit key query0 query1 query2 query params1 params2 params data
    stored Hlimit Hdecade Hmarket Hmiss Hfaults Hconnect Hexecute.
  split; [|split; [|split; [|split]]].
  - pose proof (top_performers_file_nul limit Hdecade Hmarket) as Hname.
    fold decade market in Hname. fold key in Hname.
    unfold get_top_performers. unfold bind at 1.
    rewrite (limit_argument_parsed lib request L w Hlimit).
    unfold bad_decade in Hdecade. unfold bad_market in Hmarket.
    rewrite Hdecade, Hmarket.
    fold decade market limit. fold key.
    unfold bind at 1.
    rewrite (DataCache_get_missing lib (cache app) e key w Hmiss)
      by (by rewrite Hfaults).
    change (truthy PNone) with false. cbv iota.
    unfold try_except, bind, get_db_connection. rewrite Hconnect.
    unfold ret at 1. unfold conn_execute.
    match goal with
    | |- context [execute e ?q ?p] =>
        change (execute e q p) with (execute e query params)
    end.
    rewrite Hexecute.
    fold data. rewrite DataCache_set_unfold, Hname, Hfaults.
    unfold lift, jsonify.
    destruct (serializable data); reflexivity.
  - unfold params. apply last_snoc.
  - reflexivity.
  - unfold limit. lia.
  - unfold limit. lia.
Qed.
End top_performers.

(** * Closed instances *)

(** The scenario of the specification for the cache: time to live of 5
    seconds, an entry written at 0 is read at 4. *)
Lemma C4_cache_set_get_witness :
  (DataCache_get plain_lib (quiet 4) short_cache "decades_list"
     (DataCache_set plain_lib (quiet 0) short_cache "decades_list" no_decades
        new_world).2).1
  = Returned no_decades.
Proof.
  destruct (C4_cache_set_get plain_lib short_cache "decades_list" no_decades new_world
              (quiet 0) (quiet 4) (quiet 4) [])
    as (Hfresh & _).
  - reflexivity.
  - reflexivity.
  - reflexivity.
  - vm_compute. reflexivity.
  - apply Hfresh; [vm_compute; reflexivity | simpl; lia].
Defined.

(** The same entry read at 6 is gone. *)
Example cache_entry_expires :
  (DataCache_get plain_lib (quiet 6) short_cache "decades_list"
     (DataCache_set plain_lib (quiet 0) short_cache "decades_list" no_decades
        new_world).2).1
  = Returned PNone.
Proof. vm_compute. reflexivity. Qed.

(** A dict with an integer key comes back with the key as a string;
    and the key [./a], never set, finds the entry of the key [a]. *)
Example cache_returns_json_image :
  (DataCache_get plain_lib (quiet 4) short_cache "k"
     (DataCache_set plain_lib (quiet 0) short_cache "k" (PDict [(PInt 1, PInt 2)])
        new_world).2).1
  = Returned (PDict [(PStr "1", PInt 2)]) ∧
  (DataCache_get plain_lib (quiet 4) short_cache "./a"
     (DataCache_set plain_lib (quiet 0) short_cache "a" (PInt 1) new_world).2).1
  = Returned (PInt 1).
Proof. split; vm_compute; reflexivity. Qed.

(** C4, as stated, fails: a value that JSON serializes is not always the
    value read back, and a key that was never set is not always without
    an entry. *)
Lemma C4_counterexample :
  ¬ returns_what_was_set plain_lib short_cache "k" (PDict [(PInt 1, PInt 2)]) ∧
  ¬ unset_key_not_found plain_lib short_cache "./a" "a".
Proof.
  split.
  - intros Hclaim.
    specialize (Hclaim new_world (quiet 0) (quiet 4) eq_refl eq_refl ltac:(simpl; lia)).
    vm_compute in Hclaim. discriminate Hclaim.
  - intros Hclaim. specialize (Hclaim (PInt 1) (quiet 0) (quiet 4) eq_refl eq_refl).
    vm_compute in Hclaim. discriminate Hclaim.
Qed.

(** C6. Faults that [DataCache] lets through to its caller.  A [get]
    raises [OSError] when the file system refuses to look the name up,
    as for a name that is too long: [exists()] stands before the [try];
    it raises [UnicodeDecodeError] on a file whose bytes are no text,
    which [except (JSONDecodeError, OSError)] does not cover.  A [set]
    raises [ValueError] for a key that holds a NUL.  And a write that
    breaks off is swallowed, but what it leaves may read as an entry: of
    the text [1920], cut after two characters, the next [get] makes 19. *)
Theorem C6_cache_faults_propagate :
  DataCache_get plain_lib (faulty 0 lookup_refused) short_cache long_key new_world
  = (Raised OSError, new_world) ∧
  DataCache_get plain_lib (quiet 1) short_cache "decades_list"
    (mkWorld (mkRateLimiter 100 900 ∅)
       {[ cache_file short_cache "decades_list" := mkFile 0 no_text ]} [] [])
  = (Raised UnicodeDecodeError,
     mkWorld (mkRateLimiter 100 900 ∅)
       {[ cache_file short_cache "decades_list" := mkFile 0 no_text ]} [] []) ∧
  DataCache_set plain_lib (quiet 0) short_cache nul_key (PInt 1) new_world
  = (Raised ValueError, new_world) ∧
  (DataCache_get plain_lib (quiet 1) short_cache "k"
     (DataCache_set plain_lib (faulty 0 (write_breaks_after 2)) short_cache "k"
        (PInt 1920) new_world).2).1
  = Returned (PInt 19).
Proof. repeat split; vm_compute; reflexivity. Qed.

(** An entry holding an empty dict, written at 0 and read at 10 with a
    time to live of an hour, is not served. *)
Lemma C9_falsy_entry_not_served_witness :
  (view_function plain_lib default_app (quiet 10) (plain_request []) Decades
     (mkWorld (mkRateLimiter 100 900 ∅)
        {[ "cache/decades_list.json"%string := mkFile 0 "{}" ]} [] [])).1
  = (view_function plain_lib default_app (quiet 10) (plain_request []) Decades
       (with_files
          (delete (cache_file (cache default_app) "decades_list")
             {[ "cache/decades_list.json"%string := mkFile 0 "{}" ]})
          (mkWorld (mkRateLimiter 100 900 ∅)
             {[ "cache/decades_list.json"%string := mkFile 0 "{}" ]} [] []))).1.
Proof.
  destruct (C9_falsy_entry_not_served plain_lib default_app (quiet 10) (plain_request [])
              Decades "decades_list"
              (mkWorld (mkRateLimiter 100 900 ∅)
                 {[ "cache/decades_list.json"%string := mkFile 0 "{}" ]} [] [])
              (mkFile 0 "{}") (PDict []))
    as [Hfalsy _].
  - reflexivity.
  - reflexivity.
  - vm_compute. reflexivity.
  - vm_compute. reflexivity.
  - vm_compute. reflexivity.
  - vm_compute. reflexivity.
  - vm_compute. reflexivity.
  - apply Hfalsy. reflexivity.
Defined.

(** A request for the top performers with [limit=-3] sends -3 to the
    database. *)
Lemma C10_top_performers_limit_witness :
  statements
    (get_top_performers plain_lib default_app (quiet 0)
       (plain_request [("limit", "-3")]%string) new_world).2
  = [("SELECT * FROM stock_data WHERE 1=1 ORDER BY total_return DESC LIMIT ?"%string,
      [PInt (-3)])].
Proof.
  destruct (C10_top_performers_limit plain_lib default_app (quiet 0)
              (plain_request [("limit", "-3")]%string) new_world (-3) [])
    as (Hrun & _).
  - vm_compute. reflexivity.
  - reflexivity.
  - reflexivity.
  - vm_compute. reflexivity.
  - reflexivity.
  - reflexivity.
  - reflexivity.
  - rewrite Hrun. reflexivity.
Defined.


(** * More on the limiter *)

Lemma after_calls_config (calls : list (string * Z)) :
  ∀ self,
    max_requests (after_calls self calls) = max_requests self ∧
    window_seconds (after_calls self calls) = window_seconds self.
Proof.
  induction calls as [|[c t] rest IH]; intros self; simpl; [done|].
  destruct (IH (is_allowed self t c).2) as [-> ->]. apply is_allowed_config.
Qed.

Lemma is_allowed_bounded (self : RateLimiter) (now : Z) (c : string) :
  bounded_table self → bounded_table (is_allowed self now c).2.
Proof.
  intros Hb ip l Hl.
  destruct (is_allowed_config self now c) as [-> _].
  destruct (decide (ip = c)) as [->|Hne].
  - rewrite is_allowed_caller_entry in Hl. injection Hl as <-.
    rewrite is_allowed_history.
    pose proof (is_allowed_verdict self now c) as Hv.
    pose proof (length_filter (λ ts, ts > now - window_seconds self) (history self c))
      as Hlen.
    fold (newer_than (now - window_seconds self) (history self c)) in Hlen.
    assert (Hold : Z.of_nat (length (history self c)) ≤ Z.max 0 (max_requests self)).
    { unfold history. destruct (requests self !! c) as [l0|] eqn:Hc; simpl; [|lia].
      by apply (Hb c). }
    destruct ((is_allowed self now c).1).
    + symmetry in Hv. apply negb_true_iff, bool_decide_eq_false in Hv.
      rewrite length_app. simpl. lia.
    + lia.
  - rewrite is_allowed_other in Hl by done.
    apply map_lookup_filter_Some in Hl as [Hl _]. by apply (Hb ip).
Qed.

(** X1. Starting from the limiter that [RateLimiter.__init__] returns,
    after any calls by any clients at any instants, no client's sequence
    holds more than [max_requests] timestamps (none holds any when
    [max_requests] is negative). *)
Theorem limiter_table_bounded
    (m window_minutes : Z) (self : RateLimiter) (calls : list (string * Z)) :
  RateLimiter_init m window_minutes = Returned self →
  ∀ ip l, requests (after_calls self calls) !! ip = Some l →
    Z.of_nat (length l) ≤ Z.max 0 m.
Proof.
  intros [= <-].
  assert (Hinv : ∀ calls self, bounded_table self → bounded_table (after_calls self calls)).
  { clear calls. induction calls as [|[c t] rest IH]; intros self Hb; simpl; [done|].
    apply IH. by apply is_allowed_bounded. }
  intros ip l Hl.
  pose proof (Hinv calls (mkRateLimiter m (window_minutes * 60) ∅)) as Hb.
  destruct (after_calls_config calls (mkRateLimiter m (window_minutes * 60) ∅))
    as [Hmax _].
  simpl in Hmax. rewrite <- Hmax. apply (Hb ltac:(intros ? ? ?; done) ip l Hl).
Qed.

Lemma limiter_table_bounded_witness :
  Z.of_nat
    (length (history (after_calls (mkRateLimiter 2 (1 * 60) ∅)
                        [("A"%string, 0); ("A"%string, 10); ("A"%string, 20)]) "A"))
  ≤ Z.max 0 2.
Proof.
  apply (limiter_table_bounded 2 1 (mkRateLimiter 2 (1 * 60) ∅)
           [("A"%string, 0); ("A"%string, 10); ("A"%string, 20)] eq_refl "A").
  vm_compute. reflexivity.
Defined.

(** X2. A slot is freed by waiting: when every recorded timestamp of the
    caller is at least [window_seconds] old and [max_requests] is at least
    1, the call is admitted and the caller's sequence becomes [now] alone. *)
Theorem limiter_window_elapsed (self : RateLimiter) (now : Z) (c : string) :
  1 ≤ max_requests self →
  Forall (λ ts, ts ≤ now - window_seconds self) (history self c) →
  (is_allowed self now c).1 = true ∧
  history (is_allowed self now c).2 c = [now].
Proof.
  intros Hmax Hold.
  assert (Hnone : newer_than (now - window_seconds self) (history self c) = []).
  { apply filter_none_of_not_exists. intros Hex.
    apply Exists_exists in Hex as (ts & Hin & Hts).
    rewrite Forall_forall in Hold. specialize (Hold ts Hin). simpl in Hold. lia. }
  assert (Hv : (is_allowed self now c).1 = true).
  { rewrite is_allowed_verdict, Hnone. simpl.
    apply negb_true_iff, bool_decide_eq_false. lia. }
  split; [exact Hv|]. by rewrite is_allowed_history, Hv, Hnone.
Qed.

Lemma limiter_window_elapsed_witness :
  (is_allowed (mkRateLimiter 2 60 {[ "A"%string := [0; 1] ]}) 61 "A").1 = true ∧
  history (is_allowed (mkRateLimiter 2 60 {[ "A"%string := [0; 1] ]}) 61 "A").2 "A"
  = [61].
Proof.
  apply (limiter_window_elapsed (mkRateLimiter 2 60 {[ "A"%string := [0; 1] ]}) 61 "A").
  - simpl. lia.
  - vm_compute. repeat constructor; discriminate.
Defined.

(** X3. Clients do not affect each other: a call by another client at an
    instant not later than [now] changes neither the verdict of the
    caller's call at [now] nor the sequence that call leaves for the
    caller. *)
Theorem limiter_clients_independent
    (self : RateLimiter) (other c : string) (earlier now : Z) :
  other ≠ c →
  earlier ≤ now →
  (is_allowed (is_allowed self earlier other).2 now c).1 = (is_allowed self now c).1 ∧
  history (is_allowed (is_allowed self earlier other).2 now c).2 c
  = history (is_allowed self now c).2 c.
Proof.
  intros Hne Htime.
  destruct (is_allowed_config self earlier other) as [Hmax Hw].
  assert (Hlive :
    newer_than (now - window_seconds self) (history (is_allowed self earlier other).2 c)
    = newer_than (now - window_seconds self) (history self c)).
  { unfold history at 1. rewrite is_allowed_other by done.
    destruct (filter _ (requests self) !! c) as [l|] eqn:Hl.
    - apply map_lookup_filter_Some in Hl as [Hl _]. unfold history. by rewrite Hl.
    - apply map_lookup_filter_None in Hl as [Hl | Hl].
      + unfold history. by rewrite Hl.
      + unfold history. destruct (requests self !! c) as [l|] eqn:Hc; [|done]. simpl.
        symmetry. apply filter_none_of_not_exists. intros Hex.
        apply (Hl l eq_refl). simpl.
        apply Exists_exists in Hex as (ts & Hin & Hts).
        apply Exists_exists. exists ts. split; [done|]. lia. }
  rewrite !is_allowed_history, !is_allowed_verdict, Hw, Hmax, Hlive. done.
Qed.

Lemma limiter_clients_independent_witness :
  (is_allowed (is_allowed after_two_calls 70 "A").2 80 "B").1
  = (is_allowed after_two_calls 80 "B").1.
Proof.
  apply (limiter_clients_independent after_two_calls "A" "B" 70 80).
  - discriminate.
  - lia.
Defined.

(** X4. A refused call leaves nothing behind: calling again at the same
    instant is refused again and the limiter stays exactly as the first
    refusal left it. *)
Theorem limiter_refusal_idempotent (self : RateLimiter) (now : Z) (c : string) :
  (is_allowed self now c).1 = false →
  is_allowed (is_allowed self now c).2 now c = (false, (is_allowed self now c).2).
Proof.
  intros Hrefused.
  pose proof (is_allowed_verdict self now c) as Hv. rewrite Hrefused in Hv.
  symmetry in Hv. apply negb_false_iff, bool_decide_eq_true in Hv.
  pose proof (is_allowed_history self now c) as Hh. rewrite Hrefused in Hh.
  destruct (is_allowed_config self now c) as [Hmax Hw].
  assert (Hfresh : newer_than (now - window_seconds self)
                     (newer_than (now - window_seconds self) (history self c))
                   = newer_than (now - window_seconds self) (history self c)).
  { apply newer_than_all. apply Forall_forall. intros ts Hts.
    unfold newer_than in Hts. by apply list_elem_of_filter in Hts as [Hts _]. }
  rewrite (is_allowed_unfold (is_allowed self now c).2 now c).
  rewrite Hw, Hmax, Hh, Hfresh.
  rewrite bool_decide_eq_true_2 by exact Hv.
  f_equal.
  rewrite (is_allowed_unfold self now c).
  rewrite bool_decide_eq_true_2 by exact Hv. simpl.
  f_equal. apply map_eq. intros ip.
  destruct (decide (ip = c)) as [->|Hip].
  - by rewrite !lookup_insert_eq.
  - rewrite !lookup_insert_ne by done.
    apply option_eq. intros l.
    rewrite !map_lookup_filter_Some, lookup_insert_ne by done.
    rewrite map_lookup_filter_Some. tauto.
Qed.

Lemma limiter_refusal_idempotent_witness :
  is_allowed (is_allowed (mkRateLimiter 1 60 {[ "A"%string := [5] ]}) 10 "A").2 10 "A"
  = (false, (is_allowed (mkRateLimiter 1 60 {[ "A"%string := [5] ]}) 10 "A").2).
Proof.
  apply (limiter_refusal_idempotent (mkRateLimiter 1 60 {[ "A"%string := [5] ]}) 10 "A").
  vm_compute. reflexivity.
Defined.


(** * More on the cache *)

Section cache_more.
Context (lib : PyLib) (self : DataCache).

(** What [get] returns depends on the world only through the file of its key. *)
Lemma DataCache_get_local (e : Env) (key : string) (w1 w2 : World) :
  files w1 !! cache_file self key = files w2 !! cache_file self key →
  (DataCache_get lib e self key w1).1 = (DataCache_get lib e self key w2).1.
Proof.
  intros Hsame. rewrite !DataCache_get_unfold, Hsame.
  destruct (has_nul _); [done|]. destruct (exists_fails (faults e)); [done|].
  destruct (files w2 !! cache_file self key) as [file|]; [|done].
  destruct (try_fault lib e self file) as [ex|]; [by destruct (caught_on_read ex)|].
  by destruct (expired e self file).
Qed.

Lemma DataCache_get_other (e : Env) (key : string) (w : World) (p : string) :
  p ≠ cache_file self key →
  files (DataCache_get lib e self key w).2 !! p = files w !! p.
Proof.
  intros Hp. rewrite DataCache_get_unfold.
  destruct (has_nul _); [done|]. destruct (exists_fails (faults e)); [done|].
  destruct (files w !! cache_file self key) as [file|]; [|done].
  destruct (try_fault lib e self file) as [ex|]; [by destruct (caught_on_read ex)|].
  destruct (expired e self file); simpl; [|done]. by rewrite lookup_delete_ne.
Qed.

(** X5. The last write wins: after [set(k, v1)], however it went, a
    [set(k, v2)] that meets no fault makes a [get(k)] within the time to
    live of the second write return [v2], for a key whose file name
    holds no NUL. *)
Theorem cache_last_write_wins
    (key : string) (v1 v2 : pyval) (w : World) (e1 e2 e_get : Env) :
  faults e2 = no_faults →
  faults e_get = no_faults →
  has_nul (cache_file self key) = false →
  json_loads lib (json_dumps lib v2) = Returned v2 →
  time_time e_get - time_time e2 ≤ ttl_seconds self →
  (DataCache_get lib e_get self key
     (DataCache_set lib e2 self key v2
        (DataCache_set lib e1 self key v1 w).2).2).1
  = Returned v2.
Proof.
  intros H2 Hget Hname Hjson Hfresh.
  set (w1 := (DataCache_set lib e1 self key v1 w).2).
  assert (Hfile : files (DataCache_set lib e2 self key v2 w1).2 !! cache_file self key
                  = Some (mkFile (time_time e2) (json_dumps lib v2))).
  { rewrite DataCache_set_unfold, Hname, H2. simpl. apply lookup_insert_eq. }
  rewrite (DataCache_get_readable lib self e_get key _ _ Hfile Hname)
    by (by apply (read_fault_none lib self e_get _ v2)).
  unfold expired, payload. simpl. rewrite Hjson.
  case_bool_decide; [lia | done].
Qed.

(** X6. Entries of different keys are independent, for keys without a
    slash: the two keys have two files, and neither a [set] nor a [get]
    on one key, whatever faults it meets, changes the file of the other
    key or what a [get] of that other key returns. *)
Theorem cache_keys_independent
    (k k' : string) (v : pyval) (w : World) (e e' : Env) :
  has_slash k = false →
  has_slash k' = false →
  k ≠ k' →
  cache_file self k ≠ cache_file self k' ∧
  files (DataCache_set lib e self k v w).2 !! cache_file self k'
    = files w !! cache_file self k' ∧
  files (DataCache_get lib e self k w).2 !! cache_file self k'
    = files w !! cache_file self k' ∧
  (DataCache_get lib e' self k' (DataCache_set lib e self k v w).2).1
    = (DataCache_get lib e' self k' w).1 ∧
  (DataCache_get lib e' self k' (DataCache_get lib e self k w).2).1
    = (DataCache_get lib e' self k' w).1.
Proof.
  intros Hk Hk' Hne.
  assert (Hp : cache_file self k' ≠ cache_file self k).
  { intros Heq. apply Hne. symmetry. by apply (cache_file_inj self). }
  pose proof (DataCache_set_other lib self e k v w _ Hp) as Hset.
  pose proof (DataCache_get_other e k w _ Hp) as Hget.
  split; [done|]. split; [exact Hset|]. split; [exact Hget|].
  split; by apply DataCache_get_local.
Qed.

(** X7. Whatever [get] returns other than [None] was read from an entry
    that exists and is not older than the time to live: an expired entry
    is never returned, whatever the storage does. *)
Theorem cache_serves_only_fresh (e : Env) (key : string) (w : World) (v : pyval) :
  (DataCache_get lib e self key w).1 = Returned v →
  v ≠ PNone →
  ∃ file,
    files w !! cache_file self key = Some file ∧
    time_time e - st_mtime file ≤ ttl_seconds self ∧
    json_loads lib (content file) = Returned v ∧
    (DataCache_get lib e self key w).2 = w.
Proof.
  intros Hget Hv. rewrite DataCache_get_unfold in Hget |- *.
  destruct (has_nul _); [simpl in Hget; congruence|].
  destruct (exists_fails (faults e)); [simpl in Hget; congruence|].
  destruct (files w !! cache_file self key) as [file|] eqn:Hfile;
    [|simpl in Hget; congruence].
  unfold try_fault, payload in *.
  destruct (stat_fails (faults e)); [simpl in Hget; congruence|].
  unfold expired in *. case_bool_decide as Hexp.
  { destruct (unlink_fails (faults e)); simpl in Hget; congruence. }
  destruct (open_read_fails (faults e) || read_fails (faults e));
    [simpl in Hget; congruence|].
  destruct (json_loads lib (content file)) as [v0|ex] eqn:Hjson; simpl in Hget.
  - injection Hget as ->. exists file. split; [done|]. split; [lia|]. by split.
  - destruct (caught_on_read ex); simpl in Hget; congruence.
Qed.

End cache_more.

Lemma cache_last_write_wins_witness :
  (DataCache_get plain_lib (quiet 4) short_cache "k"
     (DataCache_set plain_lib (quiet 2) short_cache "k" (PInt 2)
        (DataCache_set plain_lib (quiet 0) short_cache "k" (PInt 1)
           new_world).2).2).1
  = Returned (PInt 2).
Proof.
  apply (cache_last_write_wins plain_lib short_cache "k" (PInt 1) (PInt 2)
           new_world (quiet 0) (quiet 2) (quiet 4)).
  - reflexivity.
  - reflexivity.
  - vm_compute. reflexivity.
  - vm_compute. reflexivity.
  - simpl. lia.
Defined.

Lemma cache_keys_independent_witness :
  (DataCache_get plain_lib (quiet 1) short_cache "b"
     (DataCache_set plain_lib (quiet 0) short_cache "a" (PInt 1)
        new_world).2).1
  = (DataCache_get plain_lib (quiet 1) short_cache "b" new_world).1.
Proof.
  destruct (cache_keys_independent plain_lib short_cache "a" "b" (PInt 1)
              new_world (quiet 0) (quiet 1))
    as (_ & _ & _ & Hset & _).
  - reflexivity.
  - reflexivity.
  - discriminate.
  - exact Hset.
Defined.

Lemma cache_serves_only_fresh_witness :
  ∃ file,
    files (DataCache_set plain_lib (quiet 0) short_cache "k" (PInt 7)
             new_world).2 !! cache_file short_cache "k" = Some file ∧
    4 - st_mtime file ≤ 5.
Proof.
  destruct (cache_serves_only_fresh plain_lib short_cache (quiet 4) "k"
              (DataCache_set plain_lib (quiet 0) short_cache "k" (PInt 7)
                 new_world).2 (PInt 7))
    as (file & Hfile & Hage & _).
  - vm_compute. reflexivity.
  - discriminate.
  - exists file. split; [exact Hfile | exact Hage].
Defined.

(** * Security headers *)

Lemma same_header_eq (k k' : string) : same_header k k' = true ↔ lower k = lower k'.
Proof. apply String.eqb_eq. Qed.

Lemma same_header_other (k k' k0 : string) :
  same_header k' k = true → same_header k k0 = false → same_header k' k0 = false.
Proof.
  intros Hsame Hother. apply same_header_eq in Hsame.
  unfold same_header in *. by rewrite Hsame.
Qed.

Lemma same_header_trans (k k' k0 : string) :
  same_header k' k = true → same_header k k0 = true → same_header k' k0 = true.
Proof.
  intros Hsame Hother. apply same_header_eq in Hsame.
  unfold same_header in *. by rewrite Hsame.
Qed.

(** [headers.get] returns the value of the first header of the name. *)
Lemma header_get_named (k : string) (hs : list (string * string)) :
  header_get k hs = snd <$> head (headers_named k hs).
Proof.
  unfold headers_named. induction hs as [|[k' v] hs IH]; simpl; [done|].
  rewrite filter_cons. simpl.
  destruct (same_header k' k); [by rewrite decide_True | by rewrite decide_False].
Qed.

Lemma named_filter_other (k k0 : string) (hs : list (string * string)) :
  same_header k k0 = false →
  headers_named k0 (filter (λ h : string * string, same_header h.1 k = false) hs)
  = headers_named k0 hs.
Proof.
  intros Hother. unfold headers_named. induction hs as [|[k' v] hs IH]; [done|].
  rewrite !filter_cons. simpl.
  destruct (same_header k' k) eqn:Hk'.
  - rewrite decide_False by done.
    rewrite (same_header_other k k' k0 Hk' Hother), decide_False by done. exact IH.
  - rewrite decide_True by done. rewrite filter_cons. simpl.
    destruct (decide (same_header k' k0 = true)); by rewrite IH.
Qed.

Lemma named_filter_same (k k0 : string) (hs : list (string * string)) :
  same_header k k0 = true →
  headers_named k0 (filter (λ h : string * string, same_header h.1 k = false) hs) = [].
Proof.
  intros Hsame. unfold headers_named. induction hs as [|[k' v] hs IH]; [done|].
  rewrite filter_cons. simpl.
  destruct (same_header k' k) eqn:Hk'.
  - by rewrite decide_False by done.
  - rewrite decide_True by done. rewrite filter_cons. simpl.
    rewrite decide_False; [exact IH|].
    intros Hk0. apply same_header_eq in Hk0. apply same_header_eq in Hsame.
    assert (Hk : same_header k' k = true) by (apply same_header_eq; congruence).
    congruence.
Qed.

(** After the assignment there is one header of the name, the one
    assigned. *)
Lemma named_set_same (k k0 v : string) (hs : list (string * string)) :
  same_header k k0 = true → headers_named k0 (set_header k v hs) = [(k, v)].
Proof.
  intros Hsame. induction hs as [|[k' v'] hs IH]; simpl.
  - unfold headers_named. rewrite filter_cons. simpl. by rewrite decide_True.
  - destruct (same_header k' k) eqn:Hk'.
    + unfold headers_named at 1. rewrite filter_cons. simpl.
      rewrite decide_True by done. f_equal. by apply named_filter_same.
    + unfold headers_named at 1. rewrite filter_cons. simpl.
      rewrite decide_False; [exact IH|].
      intros Hk0. apply same_header_eq in Hk0. apply same_header_eq in Hsame.
      assert (Hk : same_header k' k = true) by (apply same_header_eq; congruence).
      congruence.
Qed.

(** The headers of other names are as before. *)
Lemma named_set_other (k k0 v : string) (hs : list (string * string)) :
  same_header k k0 = false → headers_named k0 (set_header k v hs) = headers_named k0 hs.
Proof.
  intros Hother. induction hs as [|[k' v'] hs IH]; simpl.
  - unfold headers_named. rewrite filter_cons. simpl. by rewrite decide_False by congruence.
  - destruct (same_header k' k) eqn:Hk'.
    + unfold headers_named at 1 2. rewrite !filter_cons. simpl.
      rewrite (same_header_other k k' k0 Hk' Hother).
      rewrite !decide_False by congruence. by apply named_filter_other.
    + unfold headers_named at 1 2. rewrite !filter_cons. simpl.
      destruct (decide (same_header k' k0 = true)); [f_equal|]; exact IH.
Qed.

Lemma filter_others_id (k : string) (hs : list (string * string)) :
  headers_named k hs = [] →
  filter (λ h : string * string, same_header h.1 k = false) hs = hs.
Proof.
  unfold headers_named. induction hs as [|[k' v] hs IH]; [done|].
  rewrite !filter_cons. simpl. destruct (same_header k' k) eqn:Hk'.
  - by rewrite decide_True by done.
  - rewrite decide_False by congruence. rewrite decide_True by done.
    intros Hnone. by rewrite IH.
Qed.

(** Assigning the header that is already there, alone of its name,
    changes nothing. *)
Lemma set_header_same (k v : string) (hs : list (string * string)) :
  headers_named k hs = [(k, v)] → set_header k v hs = hs.
Proof.
  induction hs as [|[k' v'] hs IH]; [done|].
  unfold headers_named. rewrite filter_cons. simpl.
  destruct (same_header k' k) eqn:Hk'.
  - rewrite decide_True by done. intros [= -> -> Hrest].
    by rewrite filter_others_id.
  - rewrite decide_False by congruence. intros Hnamed. by rewrite IH.
Qed.

(** The headers of the five names after [add_headers], and the others. *)
Lemma add_headers_values (response : Response) (name : string) :
  (same_header name "X-Content-Type-Options" = true →
   headers_named name (headers (add_headers response))
   = [("X-Content-Type-Options", "nosniff")]%string) ∧
  (same_header name "X-Frame-Options" = true →
   headers_named name (headers (add_headers response))
   = [("X-Frame-Options", "DENY")]%string) ∧
  (same_header name "X-XSS-Protection" = true →
   headers_named name (headers (add_headers response))
   = [("X-XSS-Protection", "1; mode=block")]%string) ∧
  (same_header name "Strict-Transport-Security" = true →
   headers_named name (headers (add_headers response))
   = [("Strict-Transport-Security", "max-age=31536000; includeSubDomains")]%string) ∧
  (same_header name "Content-Security-Policy" = true →
   headers_named name (headers (add_headers response))
   = [("Content-Security-Policy"%string,
       "default-src 'self'; "
       +:+ "script-src 'self' 'unsafe-inline' https://cdnjs.cloudflare.com; "
       +:+ "style-src 'self' 'unsafe-inline' https://fonts.googleapis.com; "
       +:+ "font-src 'self' https://fonts.gstatic.com; "
       +:+ "img-src 'self' data: https:; "
       +:+ "connect-src 'self'")]) ∧
  (Forall (λ k, same_header name k = false) security_header_names →
   headers_named name (headers (add_headers response))
   = headers_named name (headers response)).
Proof.
  assert (Hflip : ∀ k, same_header name k = same_header k name).
  { intros k. unfold same_header. apply eq_true_iff_eq.
    rewrite !String.eqb_eq. split; congruence. }
  assert (Hcase : ∀ k k', same_header k k' = false → same_header name k = true →
                          same_header k' name = false).
  { intros k k' Hkk' Hk. rewrite <- Hflip. apply same_header_eq in Hk.
    unfold same_header in *. by rewrite Hk. }
  unfold add_headers. simpl.
  repeat split.
  - intros Hname.
    rewrite !named_set_other by (eapply Hcase; [|exact Hname]; reflexivity).
    apply named_set_same. by rewrite <- Hflip.
  - intros Hname.
    rewrite !named_set_other by (eapply Hcase; [|exact Hname]; reflexivity).
    apply named_set_same. by rewrite <- Hflip.
  - intros Hname.
    rewrite !named_set_other by (eapply Hcase; [|exact Hname]; reflexivity).
    apply named_set_same. by rewrite <- Hflip.
  - intros Hname.
    rewrite !named_set_other by (eapply Hcase; [|exact Hname]; reflexivity).
    apply named_set_same. by rewrite <- Hflip.
  - intros Hname. apply named_set_same. by rewrite <- Hflip.
  - intros Hothers. unfold security_header_names in Hothers.
    repeat (apply Forall_cons in Hothers as [? Hothers]).
    rewrite !named_set_other by (by rewrite <- Hflip). done.
Qed.

(** X8. [SecurityHeaders.add_headers] leaves status, content type and body
    as they are.  Afterwards each of the five security headers is there
    once, with its fixed value, whatever headers of that name, in
    whatever case, the response carried before; and the headers of all
    other names are as before. *)
Theorem add_headers_sets_and_keeps (response : Response) (name : string) :
  status_code (add_headers response) = status_code response ∧
  mimetype (add_headers response) = mimetype response ∧
  body (add_headers response) = body response ∧
  (same_header name "X-Content-Type-Options" = true →
   headers_named name (headers (add_headers response))
   = [("X-Content-Type-Options", "nosniff")]%string) ∧
  (same_header name "X-Frame-Options" = true →
   headers_named name (headers (add_headers response))
   = [("X-Frame-Options", "DENY")]%string) ∧
  (same_header name "X-XSS-Protection" = true →
   headers_named name (headers (add_headers response))
   = [("X-XSS-Protection", "1; mode=block")]%string) ∧
  (same_header name "Strict-Transport-Security" = true →
   headers_named name (headers (add_headers response))
   = [("Strict-Transport-Security", "max-age=31536000; includeSubDomains")]%string) ∧
  (same_header name "Content-Security-Policy" = true →
   headers_named name (headers (add_headers response))
   = [("Content-Security-Policy"%string,
       "default-src 'self'; "
       +:+ "script-src 'self' 'unsafe-inline' https://cdnjs.cloudflare.com; "
       +:+ "style-src 'self' 'unsafe-inline' https://fonts.googleapis.com; "
       +:+ "font-src 'self' https://fonts.gstatic.com; "
       +:+ "img-src 'self' data: https:; "
       +:+ "connect-src 'self'")]) ∧
  (Forall (λ k, same_header name k = false) security_header_names →
   headers_named name (headers (add_headers response))
   = headers_named name (headers response)) ∧
  header_get name (headers (add_headers response))
  = snd <$> head (headers_named name (headers (add_headers response))).
Proof.
  split; [done|]. split; [done|]. split; [done|].
  destruct (add_headers_values response name) as (H1 & H2 & H3 & H4 & H5 & H6).
  repeat (split; [assumption|]). apply header_get_named.
Qed.

(** A response that carried [x-frame-options: SAMEORIGIN] carries
    [X-Frame-Options: DENY] afterwards, and nothing else of that name. *)
Example add_headers_replaces_any_case :
  headers_named "x-frame-options"
    (headers (add_headers
       (mkResponse 200 "text/html" (Raw "")
          [("x-frame-options", "SAMEORIGIN"); ("X-FRAME-OPTIONS", "ALLOWALL")]%string)))
  = [("X-Frame-Options", "DENY")]%string.
Proof. vm_compute. reflexivity. Qed.

(** X9. [SecurityHeaders.add_headers] is idempotent: applying it to a
    response that already went through it, as happens to the 429
    response, changes nothing. *)
Theorem add_headers_idempotent (response : Response) :
  add_headers (add_headers response) = add_headers response.
Proof.
  destruct (add_headers_values response "X-Content-Type-Options") as (H1 & _).
  destruct (add_headers_values response "X-Frame-Options") as (_ & H2 & _).
  destruct (add_headers_values response "X-XSS-Protection") as (_ & _ & H3 & _).
  destruct (add_headers_values response "Strict-Transport-Security")
    as (_ & _ & _ & H4 & _).
  destruct (add_headers_values response "Content-Security-Policy")
    as (_ & _ & _ & _ & H5 & _).
  unfold add_headers at 1.
  rewrite (set_header_same "X-Content-Type-Options" _ _ (H1 eq_refl)).
  rewrite (set_header_same "X-Frame-Options" _ _ (H2 eq_refl)).
  rewrite (set_header_same "X-XSS-Protection" _ _ (H3 eq_refl)).
  rewrite (set_header_same "Strict-Transport-Security" _ _ (H4 eq_refl)).
  rewrite (set_header_same "Content-Security-Policy" _ _ (H5 eq_refl)).
  by destruct (add_headers response).
Qed.

(** * The import script and the API *)

Lemma get_decade_inj (year k : Z) :
  get_decade year = get_decade (k * 10) → year / 10 = k.
Proof.
  unfold get_decade, str_of_int. intros Heq.
  apply string_app_inj_r in Heq. apply (inj pretty) in Heq.
  rewrite Z.div_mul in Heq by lia. lia.
Qed.

Lemma valid_decades_labels :
  valid_decades
  = (λ k, get_decade (k * 10))
      <$> [192; 193; 194; 195; 196; 197; 198; 199; 200; 201; 202].
Proof. vm_compute. reflexivity. Qed.

(** X10. The decade label the import script computes for a year is one the
    API accepts exactly for the years 1920 to 2029, and the market name
    the script writes is none of the markets the API accepts. *)
Theorem imported_rows_and_validation (year : Z) :
  (validate_decade (get_decade year) = true ↔ 1920 ≤ year ≤ 2029) ∧
  validate_market MARKET = false.
Proof.
  split; [|by vm_compute].
  pose proof (Z.div_mod year 10 ltac:(lia)) as Hdm.
  pose proof (Z.mod_pos_bound year 10 ltac:(lia)) as Hmod.
  unfold validate_decade. rewrite bool_decide_eq_true. split.
  - rewrite valid_decades_labels. intros Hin.
    apply list_elem_of_fmap in Hin as (k & Heq & Hk).
    apply get_decade_inj in Heq.
    repeat (apply elem_of_cons in Hk as [->|Hk]; [lia|]).
    by apply elem_of_nil in Hk.
  - intros Hyear.
    assert (Hq : year / 10 = 192 ∨ year / 10 = 193 ∨ year / 10 = 194
                 ∨ year / 10 = 195 ∨ year / 10 = 196 ∨ year / 10 = 197
                 ∨ year / 10 = 198 ∨ year / 10 = 199 ∨ year / 10 = 200
                 ∨ year / 10 = 201 ∨ year / 10 = 202) by lia.
    clear Hdm Hmod Hyear. unfold get_decade.
    destruct Hq as [-> | [-> | [-> | [-> | [-> | [-> | [-> | [-> | [-> | [-> | ->]]]]]]]]]];
      vm_compute; set_solver.
Qed.

(** * What the handlers leave alone *)

Section frame.
Context {X : Type} (proj : World → X).

Lemma preserves_ret {A} (a : A) : preserves proj (ret a).
Proof. intros w. done. Qed.

Lemma preserves_raise {A} (ex : exn) : preserves proj (@raise A ex).
Proof. intros w. done. Qed.

Lemma preserves_lift {A} (o : outcome A) : preserves proj (lift o).
Proof. intros w. done. Qed.

Lemma preserves_error_answer (text : string) (code : Z) :
  preserves proj (error_answer text code).
Proof. intros w. done. Qed.

Lemma preserves_bind {A B} (m : M A) (k : A → M B) :
  preserves proj m → (∀ a, preserves proj (k a)) → preserves proj (bind m k).
Proof.
  intros Hm Hk w. unfold bind. specialize (Hm w).
  destruct (m w) as [[a|ex] w']; simpl in *; [|done].
  by rewrite Hk.
Qed.

Lemma preserves_try_except {A}
    (body : M A) (classes : exn → bool) (handler : exn → M A) :
  preserves proj body → (∀ ex, preserves proj (handler ex)) →
  preserves proj (try_except body classes handler).
Proof.
  intros Hbody Hhandler w. unfold try_except. specialize (Hbody w).
  destruct (body w) as [[a|ex] w']; simpl in *; [done|].
  destruct (classes ex); [by rewrite Hhandler | done].
Qed.

Lemma preserves_mapM {A B} (f : A → M B) (l : list A) :
  (∀ a, preserves proj (f a)) → preserves proj (mapM f l).
Proof.
  intros Hf. induction l as [|x l IH]; simpl; [apply preserves_ret|].
  apply preserves_bind; [apply Hf|]. intros y.
  apply preserves_bind; [apply IH|]. intros ys. apply preserves_ret.
Qed.

Lemma preserves_foldM {A B} (f : B → A → M B) (l : list A) :
  (∀ b a, preserves proj (f b a)) → ∀ acc, preserves proj (foldM f acc l).
Proof.
  intros Hf. induction l as [|x l IH]; intros acc; simpl; [apply preserves_ret|].
  apply preserves_bind; [apply Hf | apply IH].
Qed.

Lemma preserves_row_item (row : Row) (name : string) : preserves proj (row_item row name).
Proof.
  induction row as [|[k v] row IH]; simpl; [apply preserves_raise|].
  destruct (String.eqb k name); [apply preserves_ret | apply IH].
Qed.

Lemma preserves_dict_item (d key : pyval) : preserves proj (dict_item d key).
Proof.
  destruct d; simpl; try apply preserves_raise.
  destruct (dict_get items key); [apply preserves_ret | apply preserves_raise].
Qed.

Lemma preserves_group_by_market (markets : list (pyval * pyval)) (stock : pyval) :
  preserves proj (group_by_market markets stock).
Proof.
  unfold group_by_market.
  apply preserves_bind; [apply preserves_dict_item|]. intros market.
  apply preserves_bind; [apply preserves_dict_item|]. intros group. apply preserves_ret.
Qed.

Lemma preserves_py_round2 (lib : PyLib) (v : pyval) : preserves proj (py_round2 lib v).
Proof. destruct v; simpl; first [apply preserves_ret | apply preserves_raise]. Qed.

Lemma preserves_round_stat (lib : PyLib) (stats : list (pyval * pyval)) (key : string) :
  preserves proj (round_stat lib stats key).
Proof.
  unfold round_stat. apply preserves_bind; [apply preserves_dict_item|]. intros v.
  destruct v; try apply preserves_ret;
    (apply preserves_bind; [apply preserves_py_round2 | intros; apply preserves_ret]).
Qed.

Lemma preserves_fetchone_dict (rows : list Row) : preserves proj (fetchone_dict rows).
Proof. destruct rows; simpl; [apply preserves_raise | apply preserves_ret]. Qed.

Lemma preserves_limit_argument (lib : PyLib) (request : Request) :
  preserves proj (limit_argument lib request).
Proof.
  unfold limit_argument. destruct (args_get (args request) "limit") as [s|];
    [|apply preserves_ret].
  destruct (int_of_str lib s); [apply preserves_ret | apply preserves_raise].
Qed.

(** Components that do not depend on the log or on the statements sent. *)
Hypothesis proj_ignores_log :
  ∀ limiter fs l1 l2 sent, proj (mkWorld limiter fs l1 sent) = proj (mkWorld limiter fs l2 sent).
Hypothesis proj_ignores_statements :
  ∀ limiter fs l s1 s2, proj (mkWorld limiter fs l s1) = proj (mkWorld limiter fs l s2).

Lemma preserves_logger_error (msg : string) (ex : option exn) :
  preserves proj (logger_error msg ex).
Proof.
  intros [limiter fs l sent]. unfold logger_error. simpl. apply proj_ignores_log.
Qed.

Lemma preserves_logger_warning (msg : string) (ex : option exn) :
  preserves proj (logger_warning msg ex).
Proof.
  intros [limiter fs l sent]. unfold logger_warning. simpl. apply proj_ignores_log.
Qed.

Lemma preserves_get_db_connection (e : Env) : preserves proj (get_db_connection e).
Proof.
  unfold get_db_connection. destruct (connect_fails e).
  - apply preserves_bind; [apply preserves_logger_error | intros; apply preserves_raise].
  - apply preserves_ret.
Qed.

Lemma preserves_conn_execute (e : Env) (sql : string) (params : list pyval) :
  preserves proj (conn_execute e sql params).
Proof.
  intros [limiter fs l sent]. unfold conn_execute. simpl. apply proj_ignores_statements.
Qed.
End frame.

Lemma limiter_kept_by_get (lib : PyLib) (e : Env) (self : DataCache) (key : string) :
  preserves rate_limiter (DataCache_get lib e self key).
Proof.
  intros w. rewrite DataCache_get_unfold.
  destruct (has_nul _); [done|]. destruct (exists_fails (faults e)); [done|].
  destruct (files w !! cache_file self key) as [file|]; [|done].
  destruct (try_fault lib e self file) as [ex|]; [by destruct (caught_on_read ex)|].
  by destruct (expired e self file).
Qed.

Lemma limiter_kept_by_set (lib : PyLib) (e : Env) (self : DataCache)
    (key : string) (data : pyval) :
  preserves rate_limiter (DataCache_set lib e self key data).
Proof.
  intros w. rewrite DataCache_set_unfold.
  destruct (has_nul _); [done|].
  destruct (open_write_fails (faults e)); [done|].
  by destruct (write_fails (faults e)).
Qed.

Ltac preserves_step :=
  lazymatch goal with
  | |- preserves _ (ret _) => apply preserves_ret
  | |- preserves _ (raise _) => apply preserves_raise
  | |- preserves _ (lift _) => apply preserves_lift
  | |- preserves _ (error_answer _ _) => apply preserves_error_answer
  | |- preserves _ (bind _ _) => apply preserves_bind; [|intros ?]
  | |- preserves _ (try_except _ _ _) => apply preserves_try_except; [|intros ?]
  | |- preserves _ (logger_error _ _) => apply preserves_logger_error; done
  | |- preserves _ (get_db_connection _) => apply preserves_get_db_connection; done
  | |- preserves _ (conn_execute _ _ _) => apply preserves_conn_execute; done
  | |- preserves rate_limiter (DataCache_get _ _ _ _) => apply limiter_kept_by_get
  | |- preserves rate_limiter (DataCache_set _ _ _ _ _) => apply limiter_kept_by_set
  | |- preserves _ (mapM _ _) => apply preserves_mapM; intros ?
  | |- preserves _ (foldM group_by_market _ _) =>
      apply preserves_foldM; intros ? ?; apply preserves_group_by_market
  | |- preserves _ (foldM (round_stat _) _ _) =>
      apply preserves_foldM; intros ? ?; apply preserves_round_stat
  | |- preserves _ (row_item _ _) => apply preserves_row_item
  | |- preserves _ (fetchone_dict _) => apply preserves_fetchone_dict
  | |- preserves _ (limit_argument _ _) => apply preserves_limit_argument
  | |- preserves _ (if ?b then _ else _) => destruct b
  | |- preserves _ (let _ := _ in _) => cbv zeta
  end.

Ltac preserves_all := repeat preserves_step.

Section limiter_frame.
Context (lib : PyLib) (app : App) (e : Env) (request : Request).

Lemma view_function_keeps_limiter (ep : Endpoint) :
  preserves rate_limiter (view_function lib app e request ep).
Proof.
  destruct ep; unfold view_function, get_decades, get_markets, get_decade_data,
    get_market_data, get_stock_data, get_top_performers, get_statistics, export_data;
    preserves_all.
Qed.

(** X11. The limiter is changed by the decorator alone.  No view function
    touches it, so after a request to any rate-limited route, whatever
    its parameters, the cache and the database did, the limiter is what
    [is_allowed] made of it for the client of the request. *)
Theorem limiter_changed_only_by_decorator (ep : Endpoint) (w : World) :
  rate_limiter (view_function lib app e request ep w).2 = rate_limiter w ∧
  rate_limiter (route lib app e request ep w).2
  = (is_allowed (rate_limiter w) (time_time e) (client_of request)).2.
Proof.
  split; [apply view_function_keeps_limiter|].
  unfold route. rewrite require_rate_limit_unfold.
  destruct ((is_allowed (rate_limiter w) (time_time e) (client_of request)).1);
    [|done].
  by rewrite view_function_keeps_limiter.
Qed.
End limiter_frame.

(** * What the handlers raise *)

Lemma returns_ret {A} (a : A) : always_returns (ret a).
Proof. intros w. by eexists _, _. Qed.

Lemma returns_bind {A B} (m : M A) (k : A → M B) :
  always_returns m → (∀ a, always_returns (k a)) → always_returns (bind m k).
Proof.
  intros Hm Hk w. unfold bind. destruct (Hm w) as (a & w' & ->). apply Hk.
Qed.

(** A [try] whose handler catches every exception and returns. *)
Lemma returns_try_except {A} (body : M A) (handler : exn → M A) :
  (∀ ex, always_returns (handler ex)) →
  always_returns (try_except body Exception handler).
Proof.
  intros Hhandler w. unfold try_except.
  destruct (body w) as [[a|ex] w']; [by eexists _, _|]. apply Hhandler.
Qed.

Lemma returns_logger_error (msg : string) (ex : option exn) :
  always_returns (logger_error msg ex).
Proof. intros w. by eexists _, _. Qed.

Lemma returns_error_answer (text : string) (code : Z) :
  always_returns (error_answer text code).
Proof. intros w. by eexists _, _. Qed.

Ltac returns_step :=
  lazymatch goal with
  | |- always_returns (ret _) => apply returns_ret
  | |- always_returns (error_answer _ _) => apply returns_error_answer
  | |- always_returns (bind _ _) => apply returns_bind; [|intros ?]
  | |- always_returns (try_except _ Exception _) => apply returns_try_except; intros ?
  | |- always_returns (logger_error _ _) => apply returns_logger_error
  | |- always_returns (if ?b then _ else _) => destruct b
  | |- always_returns (let _ := _ in _) => cbv zeta
  end.

Ltac returns_all := repeat returns_step.

(** * The health route *)

Section health_route.
Context (e : Env) (str_exn : exn → string).

(** X13. The health check stands outside the limiter and the cache: it
    raises nothing, leaves the limiter and the cache files as they were,
    and answers 200 exactly when the connection is made and the probe
    statement returns, 503 otherwise. *)
Theorem health_check_outcome (w : World) :
  ∃ r w',
    health_check e str_exn w = (Returned r, w') ∧
    rate_limiter w' = rate_limiter w ∧
    files w' = files w ∧
    (status_code r = 200 ∨ status_code r = 503) ∧
    (status_code r = 200 ↔
     connect_fails e = false ∧ ∃ rows, execute e "SELECT 1" [] = Returned rows).
Proof.
  unfold health_check, try_except, bind, get_db_connection, conn_execute, logger_error,
    ret, raise, lift, jsonify.
  destruct (connect_fails e); simpl.
  - eexists _, _. split; [reflexivity|]. simpl.
    split; [reflexivity|]. split; [reflexivity|]. split; [by right|].
    split; [intros Hcode; discriminate Hcode | intros [Hfalse _]; discriminate Hfalse].
  - destruct (execute e "SELECT 1" []) as [rows|ex]; simpl.
    + eexists _, _. split; [reflexivity|]. simpl.
      split; [reflexivity|]. split; [reflexivity|]. split; [by left|].
      split; [intros _; split; [reflexivity | by eexists] | reflexivity].
    + eexists _, _. split; [reflexivity|]. simpl.
      split; [reflexivity|]. split; [reflexivity|]. split; [by right|].
      split; [intros Hcode; discriminate Hcode|].
      intros [_ [rows Hrows]]. discriminate Hrows.
Qed.
End health_route.

(** * What a handler caches *)

Section caching.
Context (lib : PyLib) (e : Env) (c : DataCache) (key : string).

(** What [set] returns and writes depends on the world only through
    its files. *)
Lemma DataCache_set_files (data : pyval) (w1 w2 : World) :
  files w1 = files w2 →
  (DataCache_set lib e c key data w1).1 = (DataCache_set lib e c key data w2).1 ∧
  files (DataCache_set lib e c key data w1).2 = files (DataCache_set lib e c key data w2).2.
Proof.
  intros Hfiles. rewrite !DataCache_set_unfold.
  destruct (has_nul _); simpl; [done|].
  destruct (open_write_fails (faults e)); simpl; [done|].
  destruct (write_fails (faults e)); simpl; by rewrite Hfiles.
Qed.

(** A [set] that returned, with the storage working, wrote the entry. *)
Lemma DataCache_set_written (data : pyval) (w : World) :
  (DataCache_set lib e c key data w).1 = Returned tt →
  has_nul (cache_file c key) = false ∧
  (open_write_fails (faults e) = false → write_fails (faults e) = None →
   files (DataCache_set lib e c key data w).2
   = <[cache_file c key := mkFile (time_time e) (json_dumps lib data)]> (files w)).
Proof.
  rewrite DataCache_set_unfold.
  destruct (has_nul _); [intros Hret; discriminate Hret|]. intros _. split; [done|].
  by intros -> ->.
Qed.

Lemma cos_error (text : string) (code : Z) :
  code ≠ 200 → caches_its_payload lib e c key (error_answer text code).
Proof. intros Hcode w. left. split; [done|]. by intros r [= <-]. Qed.

Lemma cos_bind {A} (m : M A) (k : A → M Response) :
  preserves files m →
  (∀ a, caches_its_payload lib e c key (k a)) →
  caches_its_payload lib e c key (bind m k).
Proof.
  intros Hm Hk w. unfold bind. specialize (Hm w).
  destruct (m w) as [[a|ex] w1]; simpl in *; [|left; by split].
  destruct (Hk a w1) as [[Hfiles Hcode] | (data & Ht & Hset & Hfiles & Hanswer)].
  - left. split; [congruence | done].
  - right. exists data.
    destruct (DataCache_set_files data w1 w Hm) as [Hret Hwritten].
    split; [done|]. split; [congruence|]. split; [congruence | done].
Qed.

(** The [try] of a handler: what its [except Exception] makes of the
    outcome of the body. *)
Lemma cos_try_except (body : M Response) (msg text : string) :
  caches_its_payload lib e c key body →
  caches_its_payload lib e c key
    (try_except body Exception
       (λ ex, bind (logger_error msg (Some ex)) (λ _, error_answer text 500))).
Proof.
  intros Hbody w. unfold try_except. specialize (Hbody w).
  destruct (body w) as [[r|ex] w1]; [done|]. simpl in *.
  destruct Hbody as [[Hfiles _] | (data & Ht & Hset & Hfiles & Hno & _)].
  - left. split; [done|]. by intros r [= <-].
  - right. exists data. split; [done|]. split; [done|]. split; [done|].
    unfold answer_for. rewrite Hno. by eexists.
Qed.

Lemma cos_store (data : pyval) :
  truthy data = true →
  caches_its_payload lib e c key
    (bind (DataCache_set lib e c key data) (λ _, lift (jsonify data))).
Proof.
  intros Ht w. unfold bind.
  destruct (DataCache_set lib e c key data w) as [[[]|ex] w1] eqn:Hset.
  - right. exists data. rewrite Hset. split; [done|]. split; [done|]. split; [done|].
    unfold lift, jsonify, answer_for. simpl.
    by destruct (serializable data).
  - left. rewrite DataCache_set_unfold in Hset.
    destruct (has_nul _); [|destruct (open_write_fails _); [|destruct (write_fails _)]];
      simplify_eq. by split.
Qed.

(** A handler that starts with the cache lookup, once the lookup has
    returned nothing truthy. *)
Lemma miss_runs_recompute (V T : M Response) (w w1 : World) (v : pyval) :
  (∀ w', V w' = bind (DataCache_get lib e c key)
                  (λ cached_data,
                     if truthy cached_data then lift (jsonify cached_data) else T) w') →
  DataCache_get lib e c key w = (Returned v, w1) →
  truthy v = false →
  V w = T w1.
Proof.
  intros HV Hget Hv. rewrite HV.
  rewrite (bind_returned _ _ w v w1) by done. by rewrite Hv.
Qed.

(** The same handler, on an entry that holds a truthy payload. *)
Lemma hit_serves_entry (V T : M Response) (w : World) (file : File) (v : pyval) :
  (∀ w', V w' = bind (DataCache_get lib e c key)
                  (λ cached_data,
                     if truthy cached_data then lift (jsonify cached_data) else T) w') →
  files w !! cache_file c key = Some file →
  has_nul (cache_file c key) = false →
  read_fault lib e c file = None →
  expired e c file = false →
  json_loads lib (content file) = Returned v →
  truthy v = true →
  V w = (jsonify v, w).
Proof.
  intros HV Hfile Hname Hfault Hexp Hjson Hv. rewrite HV.
  rewrite (bind_returned _ _ w v w)
    by (rewrite (DataCache_get_readable lib c e key w file Hfile Hname Hfault), Hexp;
        unfold payload; by rewrite Hjson).
  by rewrite Hv.
Qed.

(** A lookup changes the files at most by removing the expired entry of
    its key. *)
Lemma DataCache_get_files (w : World) :
  files (DataCache_get lib e c key w).2 = files w ∨
  ∃ file,
    files w !! cache_file c key = Some file ∧
    expired e c file = true ∧
    (DataCache_get lib e c key w).1 = Returned PNone ∧
    files (DataCache_get lib e c key w).2 = delete (cache_file c key) (files w).
Proof.
  rewrite DataCache_get_unfold.
  destruct (has_nul _); [by left|]. destruct (exists_fails (faults e)); [by left|].
  destruct (files w !! cache_file c key) as [file|] eqn:Hfile; [|by left].
  destruct (try_fault lib e c file) as [ex|];
    [destruct (caught_on_read ex); by left|].
  destruct (expired e c file) eqn:Hexp; [|by left].
  right. by exists file.
Qed.
End caching.

(** What a handler does once the database fails. *)
Lemma recompute_database_fails
    (e : Env) (sql : string) (params : list pyval)
    (rest : list Row → M Response) (msg text : string) (w : World) :
  database_fails e →
  ∃ w',
    try_except
      (bind (get_db_connection e) (λ _, bind (conn_execute e sql params) rest))
      Exception
      (λ ex, bind (logger_error msg (Some ex)) (λ _, error_answer text 500)) w
    = (Returned (error_response text 500), w') ∧
    files w' = files w ∧ rate_limiter w' = rate_limiter w.
Proof.
  intros Hfails. unfold try_except, bind, get_db_connection, conn_execute, logger_error,
    ret, raise.
  destruct (connect_fails e) eqn:Hconnect; simpl.
  - by eexists.
  - destruct Hfails as [Hdown | Hrefuses]; [congruence|].
    destruct (Hrefuses sql params) as [ex ->]. simpl. by eexists.
Qed.

Ltac cos_step :=
  lazymatch goal with
  | |- caches_its_payload _ _ _ _ (error_answer _ _) =>
      apply cos_error; discriminate
  | |- caches_its_payload _ _ _ _ (bind (DataCache_set _ _ _ _ _) _) =>
      apply cos_store; reflexivity
  | |- caches_its_payload _ _ _ _ (bind _ _) =>
      apply cos_bind; [preserves_all | intros ?]
  | |- caches_its_payload _ _ _ _ (if ?b then _ else _) => destruct b
  | |- caches_its_payload _ _ _ _ (let _ := _ in _) => cbv zeta
  end.

Ltac cos_all := repeat cos_step.

Section cached_views.
Context (lib : PyLib) (app : App) (e : Env) (request : Request).

(** Each cached view function, for a request that passed validation, is
    the cache lookup followed, when nothing truthy was found, by one
    [try] that asks the database. *)
Lemma cached_view_shape (ep : Endpoint) (key : string) :
  fails_validation lib request ep = false →
  cache_key_of lib request ep = Some key →
  ∃ (sql : string) (params : list pyval) (rest : list Row → M Response)
    (msg text : string),
    (∀ w', view_function lib app e request ep w'
           = bind (DataCache_get lib e (cache app) key)
               (λ cached_data,
                  if truthy cached_data then lift (jsonify cached_data)
                  else try_except
                         (bind (get_db_connection e)
                            (λ _, bind (conn_execute e sql params) rest))
                         Exception
                         (λ ex, bind (logger_error msg (Some ex))
                                  (λ _, error_answer text 500))) w') ∧
    (∀ rows, caches_its_payload lib e (cache app) key (rest rows)) ∧
    (∀ rows, sends_nothing (rest rows)).
Proof.
  intros Hvalid Hkey.
  destruct ep as [| |decade|market|symbol| | |]; simpl in Hvalid, Hkey;
    try discriminate Hkey.
  - injection Hkey as <-. do 5 eexists. split.
    + intros w'. unfold view_function, get_decades. cbv zeta. reflexivity.
    + split; intros rows; cbv beta; [cos_all | silent].
  - injection Hkey as <-. do 5 eexists. split.
    + intros w'. unfold view_function, get_markets. cbv zeta. reflexivity.
    + split; intros rows; cbv beta; [cos_all | silent].
  - injection Hkey as <-. do 5 eexists. split.
    + intros w'. unfold view_function, get_decade_data. rewrite Hvalid.
      cbv zeta. reflexivity.
    + split; intros rows; cbv beta; [cos_all | silent].
  - injection Hkey as <-. apply orb_false_iff in Hvalid as [Hmarket Hdecade].
    unfold bad_decade in Hdecade. do 5 eexists. split.
    + intros w'. unfold view_function, get_market_data. rewrite Hmarket, Hdecade.
      cbv zeta. reflexivity.
    + split; intros rows; cbv beta; [cos_all | silent].
  - injection Hkey as <-. do 5 eexists. split.
    + intros w'. unfold view_function, get_stock_data. rewrite Hvalid.
      cbv zeta. reflexivity.
    + split; intros rows; cbv beta; [cos_all | silent].
  - destruct (requested_limit lib request) as [n|] eqn:Hlimit; [|discriminate Hkey].
    injection Hkey as <-. apply orb_false_iff in Hvalid as [Hdecade Hmarket].
    unfold bad_decade in Hdecade. unfold bad_market in Hmarket. do 5 eexists. split.
    + intros w'. unfold view_function, get_top_performers. unfold bind at 1.
      rewrite (limit_argument_parsed lib request n w' Hlimit), Hdecade, Hmarket.
      cbv zeta. reflexivity.
    + split; intros rows; cbv beta; [cos_all | silent].
  - injection Hkey as <-. apply orb_false_iff in Hvalid as [Hdecade Hmarket].
    unfold bad_decade in Hdecade. unfold bad_market in Hmarket. do 5 eexists. split.
    + intros w'. unfold view_function, get_statistics. rewrite Hdecade, Hmarket.
      cbv zeta. reflexivity.
    + split; intros rows; cbv beta; [cos_all | silent].
Qed.
End cached_views.

Section cached_views_miss.
Context (lib : PyLib) (app : App) (e : Env) (request : Request).

(** The outcome of a cached handler whose lookup returned nothing truthy. *)
Lemma recompute_outcome (ep : Endpoint) (key : string) (w w1 : World) (v : pyval) :
  fails_validation lib request ep = false →
  cache_key_of lib request ep = Some key →
  DataCache_get lib e (cache app) key w = (Returned v, w1) →
  truthy v = false →
  ∃ r w',
    view_function lib app e request ep w = (Returned r, w') ∧
    rate_limiter w' = rate_limiter w1 ∧
    ((files w' = files w1 ∧ status_code r ≠ 200) ∨
     (∃ data,
        truthy data = true ∧
        (DataCache_set lib e (cache app) key data w1).1 = Returned tt ∧
        files w' = files (DataCache_set lib e (cache app) key data w1).2 ∧
        answer_for data (Returned r))).
Proof.
  intros Hvalid Hkey Hget Hv.
  destruct (cached_view_shape lib app e request ep key Hvalid Hkey)
    as (sql & params & rest & msg & text & Hshape & Hrest & _).
  pose proof (view_function_keeps_limiter lib app e request ep w) as Hlimiter.
  pose proof (limiter_kept_by_get lib e (cache app) key w) as Hkept.
  rewrite Hget in Hkept. simpl in Hkept.
  rewrite (miss_runs_recompute lib e (cache app) key _ _ w w1 v Hshape Hget Hv) in Hlimiter |- *.
  set (T := try_except _ Exception _) in *.
  assert (Hcos : caches_its_payload lib e (cache app) key T).
  { apply cos_try_except.
    apply cos_bind; [apply preserves_get_db_connection; done|]. intros _.
    apply cos_bind; [apply preserves_conn_execute; done | exact Hrest]. }
  assert (Hret : always_returns T) by (unfold T; returns_all).
  destruct (Hret w1) as (r & w' & HT). specialize (Hcos w1).
  rewrite HT in Hcos, Hlimiter. simpl in Hcos, Hlimiter.
  exists r, w'. split; [done|]. split; [congruence|].
  destruct Hcos as [[Hfiles Hcode] | Hstored]; [|by right].
  left. split; [done|]. by apply Hcode.
Qed.


(** X15. A database that is down, or that refuses the statement, costs a
    500 and nothing else.  For a request that passed validation and
    whose lookup returned nothing truthy, the handler logs the failure
    and answers [{'error': ...}] with status 500; the limiter is as it
    was, and so are the cache files but for an expired entry of the
    request, which the lookup removed.  The export route, which has no
    entry, leaves the files as they were. *)
Theorem database_failure_is_500 (ep : Endpoint) (w : World) :
  fails_validation lib request ep = false →
  (ep = TopPerformers → is_Some (requested_limit lib request)) →
  (∀ key, cache_key_of lib request ep = Some key →
          ∃ v w1, DataCache_get lib e (cache app) key w = (Returned v, w1) ∧
                  truthy v = false) →
  database_fails e →
  ∃ text w',
    view_function lib app e request ep w = (Returned (error_response text 500), w') ∧
    rate_limiter w' = rate_limiter w ∧
    (files w' = files w ∨
     ∃ key file,
       cache_key_of lib request ep = Some key ∧
       files w !! cache_file (cache app) key = Some file ∧
       expired e (cache app) file = true ∧
       files w' = delete (cache_file (cache app) key) (files w)).
Proof.
  intros Hvalid Hlimit Hmiss Hfails.
  destruct (cache_key_of lib request ep) as [key|] eqn:Hkey.
  - destruct (Hmiss key eq_refl) as (v & w1 & Hget & Hv).
    destruct (cached_view_shape lib app e request ep key Hvalid Hkey)
      as (sql & params & rest & msg & text & Hshape & _).
    rewrite (miss_runs_recompute lib e (cache app) key _ _ w w1 v Hshape Hget Hv).
    destruct (recompute_database_fails e sql params rest msg text w1 Hfails)
      as (w' & HT & Hfiles & Hlimiter).
    exists text, w'. split; [done|].
    pose proof (limiter_kept_by_get lib e (cache app) key w) as Hkept.
    pose proof (DataCache_get_files lib e (cache app) key w) as Hleft.
    rewrite Hget in Hkept, Hleft. simpl in Hkept, Hleft.
    split; [congruence|].
    destruct Hleft as [Hsame | (file & Hfile & Hexp & _ & Hgone)].
    + left. congruence.
    + right. exists key, file. split; [done|]. split; [done|]. split; [done|]. congruence.
  - destruct ep; simpl in Hkey; try discriminate Hkey.
    + destruct (Hlimit eq_refl) as [n Hn]. by rewrite Hn in Hkey.
    + simpl in Hvalid.
      apply orb_false_iff in Hvalid as [Hvalid Hmarket].
      apply orb_false_iff in Hvalid as [Hformat Hdecade].
      unfold bad_decade in Hdecade. unfold bad_market in Hmarket.
      unfold view_function, export_data. rewrite Hformat, Hdecade, Hmarket. cbv zeta.
      edestruct (recompute_database_fails e) as (w' & HT & Hfiles & Hlimiter);
        [exact Hfails|].
      eexists _, w'. split; [exact HT|]. split; [done|]. by left.
Qed.

(** X12. What a rate-limited handler lets out.  An exception leaves a
    view function in three cases only: the top-performers handler raises
    [ValueError], before it touches anything, when [limit] does not
    parse as an integer; the cache lookup of a validated request raises
    (the fault of [exists()], or what [json.load] raises and [get] does
    not catch), and the handler passes it on; or the lookup returned a
    truthy payload that [jsonify] refuses with [TypeError].  Whatever
    the database and the write to the cache do becomes a response. *)
Theorem handlers_raise_only_from_lookup
    (ep : Endpoint) (w w' : World) (ex : exn) :
  view_function lib app e request ep w = (Raised ex, w') →
  (ep = TopPerformers ∧ requested_limit lib request = None ∧
   ex = ValueError ∧ w' = w) ∨
  (∃ key,
     fails_validation lib request ep = false ∧
     cache_key_of lib request ep = Some key ∧
     (DataCache_get lib e (cache app) key w = (Raised ex, w') ∨
      ∃ v, DataCache_get lib e (cache app) key w = (Returned v, w') ∧
           truthy v = true ∧ serializable v = false ∧ ex = TypeError)).
Proof.
  intros Hraised.
  destruct (limit_cases lib request ep) as [[-> Hnone] | Hparsed].
  { left. rewrite (top_performers_unparsed lib app e request w Hnone) in Hraised.
    by simplify_eq. }
  destruct (fails_validation lib request ep) eqn:Hvalid.
  { destruct (invalid_request_answer lib app e request ep w Hvalid Hparsed)
      as [text Hanswer]. congruence. }
  destruct (cache_key_of lib request ep) as [key|] eqn:Hkey.
  - right. exists key. split; [done|]. split; [done|].
    destruct (cached_view_shape lib app e request ep key Hvalid Hkey)
      as (sql & params & rest & msg & text & Hshape & _).
    rewrite Hshape in Hraised. unfold bind at 1 in Hraised.
    destruct (DataCache_get lib e (cache app) key w) as [[v|ex1] w1];
      [|left; congruence].
    destruct (truthy v) eqn:Hv.
    + right. exists v. unfold lift, jsonify in Hraised.
      destruct (serializable v); simplify_eq. done.
    + exfalso.
      match type of Hraised with
      | ?T w1 = _ => assert (Hret : always_returns T) by returns_all
      end.
      destruct (Hret w1) as (r & w2 & HT). congruence.
  - exfalso. destruct ep; simpl in Hkey; try discriminate Hkey.
    + destruct (Hparsed eq_refl) as [n Hn]. by rewrite Hn in Hkey.
    + assert (Hret : always_returns (export_data lib e request))
        by (unfold export_data; returns_all).
      destruct (Hret w) as (r & w2 & HT). unfold view_function in Hraised. congruence.
Qed.
End cached_views_miss.

(** X16. What a handler cached it serves again: when a request that
    passed validation found no entry and was answered with status 200,
    the same request arriving within the time to live, the storage
    working and [json] reading the payload back from its text, gets the
    very same response (timestamp included) and changes nothing: no
    statement is sent to the database. *)
Theorem cached_response_served_again
    (lib : PyLib) (app : App) (e1 e2 : Env) (request : Request)
    (ep : Endpoint) (key : string) (w w1 : World) (r : Response) :
  fails_validation lib request ep = false →
  cache_key_of lib request ep = Some key →
  files w !! cache_file (cache app) key = None →
  faults e1 = no_faults →
  faults e2 = no_faults →
  view_function lib app e1 request ep w = (Returned r, w1) →
  status_code r = 200 →
  (∀ data, r = json_response data → json_loads lib (json_dumps lib data) = Returned data) →
  time_time e2 - time_time e1 ≤ ttl_seconds (cache app) →
  view_function lib app e2 request ep w1 = (Returned r, w1).
Proof.
  intros Hvalid Hkey Hmiss Hf1 Hf2 Hfirst Hcode Hjson Hfresh.
  assert (Hget : DataCache_get lib e1 (cache app) key w = (Returned PNone, w))
    by (apply DataCache_get_missing; [done | by rewrite Hf1]).
  destruct (recompute_outcome lib app e1 request ep key w w PNone Hvalid Hkey Hget eq_refl)
    as (r' & w' & Hrun & _ & Hcases).
  rewrite Hfirst in Hrun. injection Hrun as <- <-.
  destruct Hcases as [[_ Hne] | (data & Ht & Hset & Hfiles & Hanswer)]; [done|].
  destruct (DataCache_set_written lib e1 (cache app) key data w Hset) as [Hname Hwritten].
  rewrite Hf1 in Hwritten. specialize (Hwritten eq_refl eq_refl).
  unfold answer_for in Hanswer.
  destruct (serializable data) eqn:Hdata;
    [|destruct Hanswer as [text ->]; discriminate Hcode].
  subst r.
  destruct (cached_view_shape lib app e2 request ep key Hvalid Hkey)
    as (sql & params & rest & msg & text & Hshape & _).
  rewrite (hit_serves_entry lib e2 (cache app) key _ _ w1
             (mkFile (time_time e1) (json_dumps lib data)) data Hshape).
  - unfold jsonify. by rewrite Hdata.
  - rewrite Hfiles, Hwritten. apply lookup_insert_eq.
  - exact Hname.
  - apply (read_fault_none lib (cache app) e2 _ data); [done|]. by apply Hjson.
  - unfold expired. cbn [st_mtime]. apply bool_decide_eq_false. lia.
  - cbn [content]. by apply Hjson.
  - exact Ht.
Qed.


(** A decade with a stock that has no market and a stock on the NYSE: the
    payload groups them under the keys [None] and ['NYSE'], which
    [jsonify] cannot sort.  The first request stores the payload and is
    answered 500; the second finds the entry, whose keys are all
    strings now, and is answered 200. *)
Example refused_payload_is_cached :
  let first :=
    view_function plain_lib default_app (answering 0 mixed_rows) (plain_request [])
      (DecadeData "1920s") new_world in
  let second :=
    view_function plain_lib default_app (answering 10 mixed_rows) (plain_request [])
      (DecadeData "1920s") first.2 in
  first.1 = Returned (error_response "Failed to fetch decade data" 500) ∧
  is_Some (files first.2 !! cache_file (cache default_app) "decade_1920s") ∧
  (∃ r, second.1 = Returned r ∧ status_code r = 200) ∧
  statements second.2 = statements first.2.
Proof.
  vm_compute. split; [reflexivity|]. split; [by eexists|].
  split; [eexists; split; reflexivity | reflexivity].
Qed.

(** The database is down and the entry of the request expired: the
    request is answered 500 and the entry is gone. *)
Lemma database_failure_is_500_witness :
  ∃ text w',
    view_function plain_lib default_app (database_down 5000) (plain_request []) Decades
      stale_world
    = (Returned (error_response text 500), w') ∧
    rate_limiter w' = rate_limiter stale_world ∧
    (files w' = files stale_world ∨
     ∃ key file,
       cache_key_of plain_lib (plain_request []) Decades = Some key ∧
       files stale_world !! cache_file (cache default_app) key = Some file ∧
       expired (database_down 5000) (cache default_app) file = true ∧
       files w' = delete (cache_file (cache default_app) key) (files stale_world)).
Proof.
  apply (database_failure_is_500 plain_lib default_app (database_down 5000)
           (plain_request []) Decades stale_world).
  - reflexivity.
  - intros Heq. discriminate Heq.
  - intros key [= <-]. eexists _, _. split; vm_compute; reflexivity.
  - left. reflexivity.
Defined.

Example expired_entry_removed_on_failure :
  files (view_function plain_lib default_app (database_down 5000) (plain_request [])
           Decades stale_world).2 = ∅.
Proof. vm_compute. reflexivity. Qed.

Lemma cached_response_served_again_witness :
  view_function plain_lib default_app (quiet 10) (plain_request []) Decades
    (view_function plain_lib default_app (quiet 0) (plain_request []) Decades
       new_world).2
  = (Returned (json_response no_decades),
     (view_function plain_lib default_app (quiet 0) (plain_request []) Decades
        new_world).2).
Proof.
  apply (cached_response_served_again plain_lib default_app (quiet 0) (quiet 10)
           (plain_request []) Decades "decades_list" new_world).
  - reflexivity.
  - reflexivity.
  - reflexivity.
  - reflexivity.
  - reflexivity.
  - vm_compute. reflexivity.
  - reflexivity.
  - intros data [= <-]. vm_compute. reflexivity.
  - vm_compute. discriminate.
Defined.

(** The file system refuses to look the entry up: the decades handler
    raises what [exists()] raised. *)
Lemma handlers_raise_only_from_lookup_witness :
  (Decades = TopPerformers ∧ requested_limit plain_lib (plain_request []) = None ∧
   OSError = ValueError ∧ new_world = new_world) ∨
  (∃ key,
     fails_validation plain_lib (plain_request []) Decades = false ∧
     cache_key_of plain_lib (plain_request []) Decades = Some key ∧
     (DataCache_get plain_lib (faulty 0 lookup_refused) (cache default_app) key new_world
      = (Raised OSError, new_world) ∨
      ∃ v, DataCache_get plain_lib (faulty 0 lookup_refused) (cache default_app) key
             new_world = (Returned v, new_world) ∧
           truthy v = true ∧ serializable v = false ∧ OSError = TypeError)).
Proof.
  apply (handlers_raise_only_from_lookup plain_lib default_app (faulty 0 lookup_refused)
           (plain_request []) Decades new_world new_world OSError).
  vm_compute. reflexivity.
Defined.

(** A [limit] that is no integer; and a [limit] so low that the name of
    the entry is too long for the file system. *)
Example top_performers_bad_limit :
  view_function plain_lib default_app (quiet 0)
    (plain_request [("limit", "ten")]%string) TopPerformers new_world
  = (Raised ValueError, new_world).
Proof. vm_compute. reflexivity. Qed.

Example top_performers_long_name :
  cache_key_of plain_lib (plain_request [("limit", long_limit)]%string) TopPerformers
  = Some long_key ∧
  (255 < String.length long_key)%nat ∧
  view_function plain_lib default_app (faulty 0 lookup_refused)
    (plain_request [("limit", long_limit)]%string) TopPerformers new_world
  = (Raised OSError, new_world).
Proof. vm_compute. repeat split; lia. Qed.

(** * Empty results *)

Section empty_results.
Context (lib : PyLib) (app : App) (e : Env) (request : Request).

(** The part of a handler that asks the database, when no row comes back. *)
Lemma recompute_no_rows
    (sql : string) (params : list pyval)
    (rest : list Row → M Response) (handler : exn → M Response) (w : World) :
  database_empty e →
  try_except
    (bind (get_db_connection e) (λ _, bind (conn_execute e sql params) rest))
    Exception handler w
  = try_except (rest []) Exception handler
      (mkWorld (rate_limiter w) (files w) (log w) (statements w ++ [(sql, params)])).
Proof.
  intros [Hconnect Hrows].
  unfold try_except, bind, get_db_connection, conn_execute. rewrite Hconnect.
  unfold ret at 1. by rewrite Hrows.
Qed.

(** X17. An empty result is "no data" on some routes and an empty list on
    others.  With the database answering and finding no row, a request
    that passed validation and finds no entry gets a 404, with nothing
    cached, on the decade, market, stock and export routes; on the
    decades, markets and top-performers routes it gets a 200 whose
    payload has [count] 0. *)
Theorem empty_result_answers (ep : Endpoint) (w : World) :
  database_empty e →
  fails_validation lib request ep = false →
  (ep = TopPerformers → is_Some (requested_limit lib request)) →
  exists_fails (faults e) = false →
  (∀ key, cache_key_of lib request ep = Some key →
          files w !! cache_file (cache app) key = None) →
  (answers_no_data ep = true →
   ∃ text w',
     view_function lib app e request ep w = (Returned (error_response text 404), w') ∧
     files w' = files w) ∧
  (answers_list ep = true →
   ∃ data w',
     view_function lib app e request ep w = (Returned (json_response (PDict data)), w') ∧
     dict_get data (PStr "count") = Some (PInt 0)).
Proof.
  intros Hempty Hvalid Hlimit Hexists Hmiss.
  destruct ep as [| |decade|market|symbol| | |]; simpl in Hvalid;
    (split; intros Hkind; try discriminate Hkind).
  - unfold view_function, get_decades.
    rewrite (bind_returned _ _ w PNone w)
      by (apply DataCache_get_missing; [by apply Hmiss | done]).
    change (truthy PNone) with false. cbv iota zeta.
    rewrite recompute_no_rows by done.
    unfold try_except, bind; simpl.
    rewrite DataCache_set_unfold.
    change (has_nul (cache_file (cache app) "decades_list")) with false. cbv iota.
    destruct (open_write_fails (faults e)); [by eexists _, _|].
    destruct (write_fails (faults e)); by eexists _, _.
  - unfold view_function, get_markets.
    rewrite (bind_returned _ _ w PNone w)
      by (apply DataCache_get_missing; [by apply Hmiss | done]).
    change (truthy PNone) with false. cbv iota zeta.
    rewrite recompute_no_rows by done.
    unfold try_except, bind; simpl.
    rewrite DataCache_set_unfold.
    change (has_nul (cache_file (cache app) "markets_list")) with false. cbv iota.
    destruct (open_write_fails (faults e)); [by eexists _, _|].
    destruct (write_fails (faults e)); by eexists _, _.
  - unfold view_function, get_decade_data. rewrite Hvalid.
    rewrite (bind_returned _ _ w PNone w)
      by (apply DataCache_get_missing; [by apply Hmiss | done]).
    change (truthy PNone) with false. cbv iota zeta.
    rewrite recompute_no_rows by done.
    by eexists _, _.
  - apply orb_false_iff in Hvalid as [Hmarket Hdecade]. unfold bad_decade in Hdecade.
    unfold view_function, get_market_data. rewrite Hmarket, Hdecade.
    rewrite (bind_returned _ _ w PNone w)
      by (apply DataCache_get_missing; [by apply Hmiss | done]).
    change (truthy PNone) with false. cbv iota zeta.
    rewrite recompute_no_rows by done.
    by eexists _, _.
  - unfold view_function, get_stock_data. rewrite Hvalid.
    rewrite (bind_returned _ _ w PNone w)
      by (apply DataCache_get_missing; [by apply Hmiss | done]).
    change (truthy PNone) with false. cbv iota zeta.
    rewrite recompute_no_rows by done.
    by eexists _, _.
  - destruct (Hlimit eq_refl) as [n Hn].
    apply orb_false_iff in Hvalid as [Hdecade Hmarket].
    pose proof (top_performers_file_nul app request (Z.min n 50) Hdecade Hmarket)
      as Hname.
    unfold bad_decade in Hdecade. unfold bad_market in Hmarket.
    unfold view_function, get_top_performers. unfold bind at 1.
    rewrite (limit_argument_parsed lib request n w Hn), Hdecade, Hmarket.
    rewrite (bind_returned _ _ w PNone w)
      by (apply DataCache_get_missing; [apply Hmiss; simpl; by rewrite Hn | done]).
    change (truthy PNone) with false. cbv iota zeta.
    rewrite recompute_no_rows by done.
    unfold try_except, bind.
    rewrite DataCache_set_unfold, Hname.
    assert (Hdata : ∀ timestamp,
              serializable
                (PDict
                   [(PStr "top_performers", PList (map dict_of_row []));
                    (PStr "filters", PDict
                       [(PStr "decade", of_optional (args_get (args request) "decade"));
                        (PStr "market", of_optional (args_get (args request) "market"));
                        (PStr "limit", PInt (Z.min n 50))]);
                    (PStr "count", PInt (Z.of_nat (length (map dict_of_row []))));
                    (PStr "timestamp", PStr timestamp)]) = true).
    { intros timestamp.
      by destruct (args_get (args request) "decade"), (args_get (args request) "market"). }
    unfold lift, jsonify.
    destruct (open_write_fails (faults e)); [rewrite Hdata; by eexists _, _|].
    destruct (write_fails (faults e)); rewrite Hdata; by eexists _, _.
  - apply orb_false_iff in Hvalid as [Hvalid Hmarket].
    apply orb_false_iff in Hvalid as [Hformat Hdecade].
    unfold bad_decade in Hdecade. unfold bad_market in Hmarket.
    unfold view_function, export_data. rewrite Hformat, Hdecade, Hmarket. cbv zeta.
    rewrite recompute_no_rows by done.
    by eexists _, _.
Qed.
End empty_results.

Lemma empty_result_answers_witness :
  ∃ text w',
    view_function plain_lib default_app (quiet 0) (plain_request [])
      (DecadeData "1920s") new_world
    = (Returned (error_response text 404), w') ∧
    files w' = files new_world.
Proof.
  destruct (empty_result_answers plain_lib default_app (quiet 0) (plain_request [])
              (DecadeData "1920s") new_world)
    as [Hnodata _].
  - split; [reflexivity | intros; reflexivity].
  - vm_compute. reflexivity.
  - intros Heq. discriminate Heq.
  - reflexivity.
  - intros key _. reflexivity.
  - apply Hnodata. reflexivity.
Defined.

(** * Cache keys *)

(** No decade label, followed by an underscore, starts another one. *)
Lemma decade_then_rest (d1 d2 r1 r2 : string) :
  d1 ∈ "all"%string :: valid_decades →
  d2 ∈ "all"%string :: valid_decades →
  d1 +:+ "_" +:+ r1 = d2 +:+ "_" +:+ r2 →
  d1 = d2 ∧ r1 = r2.
Proof.
  unfold valid_decades. intros H1 H2 Heq.
  repeat (apply elem_of_cons in H1 as [->|H1]); [..|by apply elem_of_nil in H1];
    (repeat (apply elem_of_cons in H2 as [->|H2]); [..|by apply elem_of_nil in H2]);
    simplify_eq/=; done.
Qed.

Lemma market_then_rest (m1 m2 r1 r2 : string) :
  m1 ∈ "all"%string :: valid_markets →
  m2 ∈ "all"%string :: valid_markets →
  m1 +:+ "_" +:+ r1 = m2 +:+ "_" +:+ r2 →
  m1 = m2 ∧ r1 = r2.
Proof.
  unfold valid_markets. intros H1 H2 Heq.
  repeat (apply elem_of_cons in H1 as [->|H1]); [..|by apply elem_of_nil in H1];
    (repeat (apply elem_of_cons in H2 as [->|H2]); [..|by apply elem_of_nil in H2]);
    simplify_eq/=; done.
Qed.

(** X18. Cache keys do not collide.  When two requests that passed
    validation, to any two cached routes, have the same cache key, they
    are requests to the same route with the same normalised parameters:
    the same decade and market (or none), the same clamped limit, the
    same symbol up to case. *)
Theorem cache_keys_do_not_collide
    (lib : PyLib) (request1 request2 : Request) (ep1 ep2 : Endpoint) (key : string) :
  fails_validation lib request1 ep1 = false →
  fails_validation lib request2 ep2 = false →
  cache_key_of lib request1 ep1 = Some key →
  cache_key_of lib request2 ep2 = Some key →
  normalized_query lib request1 ep1 = normalized_query lib request2 ep2.
Proof.
  intros Hv1 Hv2 Hk1 Hk2.
  destruct ep1 as [| |d1|m1|s1| | |], ep2 as [| |d2|m2|s2| | |];
    simpl in Hk1, Hk2, Hv1, Hv2;
    unfold decade_cache_key, market_cache_key, stock_cache_key,
      top_performers_cache_key, statistics_cache_key in Hk1, Hk2;
    try (match type of Hk1 with
         | context [requested_limit _ _] =>
             destruct (requested_limit lib request1) as [n1|] eqn:Hlimit1
         end);
    try (match type of Hk2 with
         | context [requested_limit _ _] =>
             destruct (requested_limit lib request2) as [n2|] eqn:Hlimit2
         end);
    try discriminate Hk1; try discriminate Hk2;
    rewrite <- Hk2 in Hk1; clear Hk2; rename Hk1 into Hk;
    try discriminate Hk;
    try (injection Hk as Hk);
    change (String.append "" ?x) with x in Hk.
  - done.
  - done.
  - by rewrite Hk.
  - apply orb_false_iff in Hv1 as [Hm1 Hd1]. apply orb_false_iff in Hv2 as [Hm2 Hd2].
    apply negb_false_iff, bool_decide_eq_true in Hm1, Hm2.
    destruct (market_then_rest m1 m2 _ _
                ltac:(by apply list_elem_of_further)
                ltac:(by apply list_elem_of_further) Hk)
      as [-> Hrest].
    unfold normalized_query. by rewrite Hrest.
  - unfold normalized_query. by rewrite Hk.
  - apply orb_false_iff in Hv1 as [Hd1 Hm1]. apply orb_false_iff in Hv2 as [Hd2 Hm2].
    destruct (decade_then_rest _ _ _ _ (normalized_decade _ Hd1) (normalized_decade _ Hd2)
                Hk) as [Hd Hrest].
    destruct (market_then_rest _ _ _ _ (normalized_market _ Hm1) (normalized_market _ Hm2)
                Hrest) as [Hm Hl].
    apply (inj pretty) in Hl.
    unfold normalized_query. rewrite Hlimit1, Hlimit2, Hd, Hm. simpl. by rewrite Hl.
  - apply orb_false_iff in Hv1 as [Hd1 Hm1]. apply orb_false_iff in Hv2 as [Hd2 Hm2].
    destruct (decade_then_rest _ _ _ _ (normalized_decade _ Hd1) (normalized_decade _ Hd2)
                Hk) as [Hd Hm].
    unfold normalized_query. by rewrite Hd, Hm.
Qed.

Lemma cache_keys_do_not_collide_witness :
  normalized_query plain_lib (plain_request [("decade", "1920s")]%string)
    (MarketData "NYSE")
  = normalized_query plain_lib
      (plain_request [("page", "2"); ("decade", "1920s")]%string) (MarketData "NYSE").
Proof.
  apply (cache_keys_do_not_collide plain_lib
           (plain_request [("decade", "1920s")]%string)
           (plain_request [("page", "2"); ("decade", "1920s")]%string)
           (MarketData "NYSE") (MarketData "NYSE") "market_NYSE_1920s");
    vm_compute; reflexivity.
Defined.

(** * Statements sent to the database *)

Section statements_sent.
Context (lib : PyLib) (app : App) (e : Env) (request : Request).

Lemma get_sends_nothing (key : string) :
  sends_nothing (DataCache_get lib e (cache app) key).
Proof.
  intros w. rewrite DataCache_get_unfold.
  destruct (has_nul _); [done|]. destruct (exists_fails (faults e)); [done|].
  destruct (files w !! cache_file (cache app) key) as [file|]; [|done].
  destruct (try_fault lib e (cache app) file) as [ex|];
    [by destruct (caught_on_read ex)|].
  by destruct (expired e (cache app) file).
Qed.

(** The part of a handler that asks the database sends its statement
    when the connection is made, and nothing otherwise. *)
Lemma recompute_statements
    (sql : string) (params : list pyval)
    (rest : list Row → M Response) (msg text : string) (w : World) :
  (∀ rows, sends_nothing (rest rows)) →
  statements
    (try_except
       (bind (get_db_connection e) (λ _, bind (conn_execute e sql params) rest))
       Exception
       (λ ex, bind (logger_error msg (Some ex)) (λ _, error_answer text 500))
       w).2
  = if connect_fails e then statements w else statements w ++ [(sql, params)].
Proof.
  intros Hrest. destruct (connect_fails e) eqn:Hconnect.
  - unfold try_except, bind, get_db_connection. by rewrite Hconnect.
  - apply recompute_sends_statement; [done| |done]. intros ex. silent.
Qed.

Lemma view_function_statements (ep : Endpoint) (w : World) :
  statements (view_function lib app e request ep w).2 = statements w ∨
  ∃ statement,
    statements (view_function lib app e request ep w).2 = statements w ++ [statement].
Proof.
  destruct (limit_cases lib request ep) as [[-> Hnone] | Hparsed].
  { left. by rewrite (top_performers_unparsed lib app e request w Hnone). }
  destruct (fails_validation lib request ep) eqn:Hvalid.
  { left. destruct (invalid_request_answer lib app e request ep w Hvalid Hparsed)
      as [text ->]. done. }
  destruct (cache_key_of lib request ep) as [key|] eqn:Hkey.
  - destruct (cached_view_shape lib app e request ep key Hvalid Hkey)
      as (sql & params & rest & msg & text & Hshape & _ & Hsilent).
    assert (Hsent : ∃ none : bool,
      statements (view_function lib app e request ep w).2
      = if none then statements w else statements w ++ [(sql, params)]).
    { rewrite Hshape. unfold bind at 1.
      pose proof (get_sends_nothing key w) as Hget.
      destruct (DataCache_get lib e (cache app) key w) as [[v|ex] w1]; simpl in Hget |- *;
        [|by exists true].
      destruct (truthy v); [by exists true|].
      rewrite (recompute_statements sql params rest msg text w1 Hsilent), Hget.
      destruct (connect_fails e); [by exists true | by exists false]. }
    destruct Hsent as [[] Hsent]; [by left | right; by eexists].
  - destruct ep; simpl in Hkey; try discriminate Hkey.
    + destruct (Hparsed eq_refl) as [n Hn]. by rewrite Hn in Hkey.
    + simpl in Hvalid.
      apply orb_false_iff in Hvalid as [Hvalid Hmarket].
      apply orb_false_iff in Hvalid as [Hformat Hdecade].
      unfold bad_decade in Hdecade. unfold bad_market in Hmarket.
      unfold view_function, export_data. rewrite Hformat, Hdecade, Hmarket. cbv zeta.
      match goal with
      | |- statements (?T w).2 = _ ∨ _ =>
          assert (Hsent : ∃ statement,
                    statements (T w).2
                    = if connect_fails e then statements w
                      else statements w ++ [statement])
      end.
      { eexists. apply recompute_statements. intros rows. cbv beta. silent. }
      destruct Hsent as [statement Hsent]. rewrite Hsent.
      destruct (connect_fails e); [by left | right; by eexists].
Qed.

(** X19. A request costs the database at most one statement: whatever the
    route, the parameters and the state, a rate-limited request sends one
    statement or none, and none when the limiter refuses it or when it
    fails validation. *)
Theorem request_sends_at_most_one_statement (ep : Endpoint) (w : World) :
  (statements (route lib app e request ep w).2 = statements w ∨
   ∃ statement,
     statements (route lib app e request ep w).2 = statements w ++ [statement]) ∧
  ((is_allowed (rate_limiter w) (time_time e) (client_of request)).1 = false →
   statements (route lib app e request ep w).2 = statements w) ∧
  (fails_validation lib request ep = true →
   statements (route lib app e request ep w).2 = statements w).
Proof.
  unfold route. rewrite require_rate_limit_unfold.
  destruct ((is_allowed (rate_limiter w) (time_time e) (client_of request)).1).
  - set (w1 := mkWorld _ (files w) (log w) (statements w)).
    split; [apply (view_function_statements ep w1)|]. split; [done|].
    intros Hvalid.
    destruct (limit_cases lib request ep) as [[-> Hnone] | Hparsed].
    + by rewrite (top_performers_unparsed lib app e request w1 Hnone).
    + by destruct (invalid_request_answer lib app e request ep w1 Hvalid Hparsed)
        as [text ->].
  - split; [by left|]. by split.
Qed.

(** X20. The export route stands outside the cache: whatever the request
    and the database do, it leaves the cache files as they were. *)
Theorem export_never_touches_cache (w : World) :
  files (view_function lib app e request Export w).2 = files w.
Proof.
  assert (Hp : preserves files (export_data lib e request)).
  { unfold export_data. preserves_all. }
  apply Hp.
Qed.
End statements_sent.
